(** * Snowflake migration scripts: a shallow embedding and its properties

    The development follows the Python sources
    [utils.py], [config.py], [create_databases.py], [create_tables.py],
    [database_mapping.py] and [merge_databases.py].

    Python code that talks to the warehouse is written in a small
    state-and-exception monad over a [World]: the (external) warehouse state,
    the connection objects handed out so far, the choices of the thread-pool
    scheduler, the pool task that is running, the SQL statements handed to
    [cursor.execute] and the lines written through [loguru].

    Left out of the embedding: [time.sleep], the [tqdm] progress bars,
    [cursor.close()] and [connection.close()], the [logger.info] and
    [logger.debug] lines (except the debug lines that are the output of a dry
    run of [merge_database]) and the file system (a file is given by its
    lines, a written file by the list of its records).  The environment is a
    map from names to values: [SnowflakeConfig.from_env] and
    [get_connection_params] are functions of it, and the [main] functions of
    create_databases, create_tables and database_mapping start from the
    configuration that [from_env] has resolved. *)

From Stdlib Require Import String Ascii.
From stdpp Require Import base option list strings gmap fin_maps.

Local Open Scope string_scope.
Local Open Scope list_scope.
Local Open Scope nat_scope.

(** ** Strings: [in] and [str.split] *)

Module PyStr.

(** [sub in s] for strings. *)
Fixpoint contains (sub s : string) : bool :=
  String.prefix sub s ||
  match s with
  | EmptyString => false
  | String _ s' => contains sub s'
  end.

(** [s.split(sep)] for a non-empty [sep]: occurrences are taken from the left
    and do not overlap.  [skip] counts the characters of a matched separator
    that are still to be passed over, [cur] is the piece being read. *)
Fixpoint split_go (sep : string) (skip : nat) (cur s : string) : list string :=
  match s with
  | EmptyString => [cur]
  | String c s' =>
      match skip with
      | S k => split_go sep k cur s'
      | O =>
          if String.prefix sep s
          then cur :: split_go sep (String.length sep - 1) EmptyString s'
          else split_go sep 0 (cur +:+ String c EmptyString) s'
      end
  end.

Definition split (sep s : string) : list string := split_go sep 0 EmptyString s.

(** [sep.join(parts)] *)
Fixpoint join (sep : string) (parts : list string) : string :=
  match parts with
  | [] => EmptyString
  | [part] => part
  | part :: parts' => part +:+ sep +:+ join sep parts'
  end.

End PyStr.

(** utils.py *)
Definition DELIMITER : string := "__".

(** ** Exceptions, rows, configuration *)

Inductive exn : Type :=
| ValueError (msg : string)
| UnboundLocalError (var : string)
| JSONDecodeError (msg : string)
| ConnectError (msg : string)        (* snowflake.connector.connect failed *)
| ProgrammingError (msg : string).   (* cursor.execute failed *)

Definition exn_str (e : exn) : string :=
  match e with
  | ValueError m | JSONDecodeError m | ConnectError m | ProgrammingError m => m
  | UnboundLocalError v =>
      "cannot access local variable '" +:+ v +:+
      "' where it is not associated with a value"
  end.

Definition is_ValueError (e : exn) : bool :=
  match e with ValueError _ => true | _ => false end.

(** A row of a [SHOW ...] result, as the scripts read it through a
    [DictCursor]: only the columns ["name"] and ["kind"] are ever used. *)
Record Row : Type := mkRow { row_name : string; row_kind : string }.

(** What the warehouse answers to one statement. *)
Inductive Reply : Type :=
| Rows (rs : list Row)
| Fails (msg : string).

(** config.py, [SnowflakeConfig] (the fields the scripts read). *)
Record SnowflakeConfig : Type := mkConfig {
  account : string;
  role : string;
  warehouse : string;
  admin_role : string;
  readonly_role : string
}.

(** One record of the JSONL mapping file. *)
Record TableMap : Type := mkTableMap {
  source_table : string;
  target_table : string
}.

Record MappingRow : Type := mkMappingRow {
  source_database : string;
  source_schema : string;
  target_database_name : string;
  target_schema : string;
  tables : list TableMap
}.

(** ** The warehouse (external collaborator) *)

Definition Conn : Type := nat.

(** [sf_connect] is [connector.connect]: it may fail with a message.
    [sf_execute] is one [cursor.execute(sql)] on a cursor of connection [c]. *)
Class Warehouse (W : Type) : Type := {
  sf_connect : W → W * option string;
  sf_execute : W → Conn → string → W * Reply
}.

(** Result of a Python call: a value or a raised exception. *)
Inductive res (A : Type) : Type :=
| Ok (a : A)
| Raise (e : exn).
Arguments Ok {A} a.
Arguments Raise {A} e.

Inductive Level : Type := L_DEBUG | L_WARNING | L_ERROR.

(** One [cursor.execute(sql)]: the pool task that issued it (the keys of the
    enclosing pool tasks, innermost first; [[]] in the main thread), the
    connection of the cursor, the statement, and whether the warehouse
    carried it out ([false]: [execute] raised). *)
Record Event : Type := mkEvent {
  ev_task : list string;
  ev_conn : Conn;
  ev_sql : string;
  ev_ok : bool
}.

Record World (W : Type) : Type := mkWorld {
  wh : W;                           (* warehouse state *)
  next_conn : Conn;                 (* connection objects created so far *)
  picks : list nat;                 (* choices of the pool scheduler *)
  task : list string;               (* the pool task that is running *)
  trace : list Event;               (* statements given to cursor.execute *)
  logs : list (Level * string)      (* lines written through the logger *)
}.
Arguments mkWorld {W} _ _ _ _ _ _.
Arguments wh {W} _.
Arguments next_conn {W} _.
Arguments picks {W} _.
Arguments task {W} _.
Arguments trace {W} _.
Arguments logs {W} _.

(** ** The monad *)

Definition M (W A : Type) : Type := World W → res A * World W.

Definition ret {W A} (a : A) : M W A := λ w, (Ok a, w).

Definition raise {W A} (e : exn) : M W A := λ w, (Raise e, w).

Definition bind {W A B} (m : M W A) (k : A → M W B) : M W B :=
  λ w, match m w with
       | (Ok a, w') => k a w'
       | (Raise e, w') => (Raise e, w')
       end.

(** [try: m except Exception as e: h e] *)
Definition try_except {W A} (m : M W A) (h : exn → M W A) : M W A :=
  λ w, match m w with
       | (Ok a, w') => (Ok a, w')
       | (Raise e, w') => h e w'
       end.

(** [try: m except ValueError as e: h e]: other exceptions pass through. *)
Definition try_except_ValueError {W A} (m : M W A) (h : exn → M W A) : M W A :=
  try_except m (λ e, if is_ValueError e then h e else raise e).

(** What a future holds once its task has run: the value or the exception. *)
Definition attempt {W A} (m : M W A) : M W (res A) :=
  λ w, let (r, w') := m w in (Ok r, w').

(** A call that does not touch the world. *)
Definition of_res {W A} (r : res A) : M W A := λ w, (r, w).

Declare Scope py_scope.
Delimit Scope py_scope with py.
Notation "x <- m ;; k" := (bind m (λ x, k))
  (at level 100, m at next level, right associativity,
   format "'[v' x  <-  m  ;;  '/' k ']'") : py_scope.
Notation "m ;;; k" := (bind m (λ _, k))
  (at level 100, right associativity) : py_scope.

Local Open Scope py_scope.

(** A cursor is a handle on its connection. *)
Record Cursor : Type := mkCursor { cursor_conn : Conn }.

Definition conn_cursor (conn : Conn) : Cursor := mkCursor conn.

Section Primitives.
Context {W : Type} {WH : Warehouse W}.

Definition logger (lvl : Level) (msg : string) : M W unit :=
  λ w, (Ok tt, mkWorld (wh w) (next_conn w) (picks w) (task w) (trace w)
                       (logs w ++ [(lvl, msg)])).

(** config.py, [get_snowflake_connection]: a new connection object. *)
Definition get_snowflake_connection (config : SnowflakeConfig) : M W Conn :=
  λ w, match sf_connect (wh w) with
       | (wh', None) =>
           (Ok (next_conn w),
            mkWorld wh' (S (next_conn w)) (picks w) (task w) (trace w) (logs w))
       | (wh', Some msg) =>
           (Raise (ConnectError msg),
            mkWorld wh' (next_conn w) (picks w) (task w) (trace w) (logs w))
       end.

(** [cursor.execute(sql)] followed by reading the rows. *)
Definition cursor_execute (cursor : Cursor) (sql : string) : M W (list Row) :=
  λ w, let (wh', r) := sf_execute (wh w) (cursor_conn cursor) sql in
       let w' ok := mkWorld wh' (next_conn w) (picks w) (task w)
                            (trace w ++ [mkEvent (task w) (cursor_conn cursor) sql ok])
                            (logs w) in
       match r with
       | Rows rs => (Ok rs, w' true)
       | Fails msg => (Raise (ProgrammingError msg), w' false)
       end.

(** The scheduler chooses which of the [bound] running tasks finishes next. *)
Definition next_pick (bound : nat) : M W nat :=
  λ w, (Ok (hd 0 (picks w) mod bound),
        mkWorld (wh w) (next_conn w) (tl (picks w)) (task w) (trace w) (logs w)).

(** Run [m] as the pool task submitted under key [k]. *)
Definition in_task {A} (k : string) (m : M W A) : M W A :=
  λ w, let (r, w') := m (mkWorld (wh w) (next_conn w) (picks w) (k :: task w)
                                 (trace w) (logs w)) in
       (r, mkWorld (wh w') (next_conn w') (picks w') (task w) (trace w') (logs w')).

End Primitives.

(** ** Python containers *)

(** A [dict] with string keys, in insertion order. *)
Fixpoint dict_set {V} (k : string) (v : V) (d : list (string * V)) : list (string * V) :=
  match d with
  | [] => [(k, v)]
  | (k', v') :: d' =>
      if decide (k = k') then (k', v) :: d' else (k', v') :: dict_set k v d'
  end.

Definition dict_mem {V} (k : string) (d : list (string * V)) : bool :=
  bool_decide (k ∈ d.*1).

(** ** concurrent.futures.ThreadPoolExecutor

    [run_pool width tasks] submits [tasks] in order and returns the futures in
    the order in which they complete, each with the key it was submitted
    under.  At any moment the running tasks are the first [width] unfinished
    ones; the scheduler ([picks]) chooses which of them finishes next, and the
    chosen task is run at that point.  A task that raises leaves its exception
    in its future.

    A task is run in one piece.  For the inner pool of [execute_sqls], whose
    tasks are single [cursor.execute] calls, the schedules are the orders in
    which the warehouse can receive the statements.  For the outer pools,
    whose tasks issue several statements, the statements of two running units
    are not interleaved: the order of units is any, the order inside a unit is
    the unit's own. *)

Section Pool.
Context {W : Type} {WH : Warehouse W} {A : Type}.

Fixpoint pool_go (n width : nat) (pending : list (string * M W A))
  : M W (list (string * res A)) :=
  match n with
  | O => ret []
  | S n' =>
      i <- next_pick (width `min` length pending) ;;
      match pending !! i with
      | None => ret []
      | Some (k, task) =>
          r <- in_task k (attempt task) ;;
          rest <- pool_go n' width (delete i pending) ;;
          ret ((k, r) :: rest)
      end
  end.

Definition run_pool (max_workers : nat) (tasks : list (string * M W A))
  : M W (list (string * res A)) :=
  if decide (max_workers = 0)
  then raise (ValueError "max_workers must be greater than 0")
  else pool_go (length tasks) max_workers tasks.

End Pool.

(** ** utils.py *)

Module utils.
Section Defs.
Context {W : Type} {WH : Warehouse W}.

Definition get_database_names (connection : Conn) : M W (list Row) :=
  let cursor := conn_cursor connection in
  rows <- cursor_execute cursor "SHOW TERSE DATABASES" ;;
  ret rows.

Definition get_schema_names (connection : Conn) (database_name : string) : M W (list string) :=
  let cursor := conn_cursor connection in
  rows <- cursor_execute cursor ("SHOW SCHEMAS IN DATABASE " +:+ database_name) ;;
  ret (map row_name rows).

Definition get_table_names (connection : Conn) (full_schema_name : string) : M W (list string) :=
  let cursor := conn_cursor connection in
  rows <- cursor_execute cursor ("SHOW TABLES IN SCHEMA " +:+ full_schema_name) ;;
  ret (map row_name rows).

End Defs.

(** [os.environ], and Python truthiness of an [Optional[str]]. *)
Definition truthy (o : option string) : bool :=
  match o with
  | Some s => negb (bool_decide (s = EmptyString))
  | None => false
  end.

(** [a or b] on [Optional[str]] values. *)
Definition py_or (a b : option string) : option string :=
  if truthy a then a else b.

Definition get_environment_variable (environ : gmap string string) (name : string)
    (default : option string) : res string :=
  match environ !! name with
  | Some value => Ok value
  | None =>
      match default with
      | Some d => Ok d
      | None => Raise (ValueError ("Environment variable '" +:+ name +:+ "' not found."))
      end
  end.

Definition get_snowflake_conneciton_env_variables (environ : gmap string string)
  : res (string * string * string * string * string) :=
  match get_environment_variable environ "SPIDER_ACCOUNT" None with
  | Raise e => Raise e
  | Ok account =>
  match get_environment_variable environ "SPIDER_USER" None with
  | Raise e => Raise e
  | Ok user =>
  match get_environment_variable environ "SPIDER_PWD" None with
  | Raise e => Raise e
  | Ok password =>
  match get_environment_variable environ "SPIDER_WAREHOUSE" (Some "WH_MIGRATION") with
  | Raise e => Raise e
  | Ok warehouse =>
  match get_environment_variable environ "SPIDER_ROLE" (Some "ACCOUNTADMIN") with
  | Raise e => Raise e
  | Ok role => Ok (account, user, password, warehouse, role)
  end end end end end.

End utils.

(** ** config.py *)

Module config.

(** [SnowflakeConfig.get_database_setup_commands]: the lines of the template
    (for names that contain no line break). *)
Definition get_database_setup_commands (self : SnowflakeConfig) (db_name : string) : list string :=
  [ "USE ROLE accountadmin;";
    "CREATE DATABASE IF NOT EXISTS " +:+ db_name +:+ ";";
    "GRANT OWNERSHIP ON DATABASE " +:+ db_name +:+ " TO ROLE " +:+ admin_role self +:+ ";";
    "GRANT ALL PRIVILEGES ON DATABASE " +:+ db_name +:+ " TO ROLE " +:+ admin_role self +:+ ";";
    "GRANT USAGE ON DATABASE  " +:+ db_name +:+ " TO ROLE " +:+ readonly_role self +:+ ";";
    "GRANT USAGE ON ALL SCHEMAS IN DATABASE " +:+ db_name +:+ "  TO ROLE " +:+ readonly_role self +:+ ";";
    "GRANT USAGE ON FUTURE SCHEMAS IN DATABASE " +:+ db_name +:+ "  TO ROLE " +:+ readonly_role self +:+ ";";
    "GRANT SELECT ON ALL TABLES IN DATABASE " +:+ db_name +:+ "  TO ROLE " +:+ readonly_role self +:+ ";";
    "GRANT SELECT ON FUTURE TABLES IN DATABASE " +:+ db_name +:+ "  TO ROLE " +:+ readonly_role self +:+ ";" ].


(** The dataclass with all its fields: the five of [SnowflakeConfig] above
    and [user], [protocol], [port], [authenticator]. *)
Record SnowflakeConfigFull : Type := mkConfigFull {
  base : SnowflakeConfig;
  user : option string;
  protocol : string;
  port : nat;
  authenticator : string
}.

(** [cls(account=..., ..., user=...)] with the defaults of the dataclass. *)
Definition cls (account role warehouse admin_role readonly_role : string) (user : option string)
  : SnowflakeConfigFull :=
  {| base := mkConfig account role warehouse admin_role readonly_role;
     user := user;
     protocol := "https";
     port := 443;
     authenticator := "snowflake" |}.

(** [SnowflakeConfig.from_env]; [environ] is [os.environ]. *)
Definition from_env (environ : gmap string string)
    (account role warehouse admin_role readonly_role : option string)
  : res SnowflakeConfigFull :=
  let final_account := utils.py_or account (environ !! "SNOWFLAKE_ACCOUNT") in
  let final_role := utils.py_or role (environ !! "SNOWFLAKE_ROLE") in
  let final_warehouse := utils.py_or warehouse (environ !! "SNOWFLAKE_WAREHOUSE") in
  let final_admin_role := utils.py_or admin_role (environ !! "SNOWFLAKE_ADMIN_ROLE") in
  let final_readonly_role := utils.py_or readonly_role (environ !! "SNOWFLAKE_READONLY_ROLE") in
  let final_user := environ !! "DESTINATION_USER" in
  let missing_configs : list string := [] in
  let missing_configs :=
    if utils.truthy final_account then missing_configs
    else missing_configs ++ ["SNOWFLAKE_ACCOUNT"] in
  let missing_configs :=
    if utils.truthy final_role then missing_configs
    else missing_configs ++ ["SNOWFLAKE_ROLE"] in
  let missing_configs :=
    if utils.truthy final_warehouse then missing_configs
    else missing_configs ++ ["SNOWFLAKE_WAREHOUSE"] in
  let missing_configs :=
    if utils.truthy final_admin_role then missing_configs
    else missing_configs ++ ["SNOWFLAKE_ADMIN_ROLE"] in
  let missing_configs :=
    if utils.truthy final_readonly_role then missing_configs
    else missing_configs ++ ["SNOWFLAKE_READONLY_ROLE"] in
  match missing_configs with
  | _ :: _ =>
      Raise (ValueError
               ("Missing required configuration: " +:+ PyStr.join ", " missing_configs +:+ ". " +:+
                "Please set environment variables or provide command line arguments."))
  | [] =>
      Ok (cls (default "" final_account) (default "" final_role) (default "" final_warehouse)
              (default "" final_admin_role) (default "" final_readonly_role) final_user)
  end.

(** The values of the connection parameters: strings, the port, [None]. *)
Inductive ParamValue : Type :=
| PStr (s : string)
| PInt (n : nat)
| PNone.

Definition opt_param (o : option string) : ParamValue :=
  match o with Some s => PStr s | None => PNone end.

(** [SnowflakeConfig.get_connection_params] *)
Definition get_connection_params (self : SnowflakeConfigFull) (environ : gmap string string)
  : gmap string ParamValue :=
  let params : gmap string ParamValue :=
    <["warehouse" := PStr (warehouse (base self))]>
    (<["role" := PStr (role (base self))]>
    (<["authenticator" := PStr (authenticator self)]>
    (<["user" := opt_param (user self)]>
    (<["account" := PStr (account (base self))]>
    (<["port" := PInt (port self)]>
    (<["protocol" := PStr (protocol self)]> ∅)))))) in
  if decide (authenticator self = "snowflake") then
    let password := environ !! "SNOWFLAKE_PASSWORD" in
    if utils.truthy password
    then <["password" := opt_param password]> params
    else params
  else params.

End config.

(** [json.loads] on one line of the mapping file (external): the record, or
    the exception raised for a line that is not a mapping record. *)
Class Json : Type := json_loads : string → res MappingRow.

(** ** create_databases.py (flat mode) *)

Module create_databases.
Section Defs.
Context {W : Type} {WH : Warehouse W} {JS : Json}.

Definition get_sf_connection (config : SnowflakeConfig) : M W Conn :=
  get_snowflake_connection config.

Definition get_db_setup_commands (db_name : string) (config : SnowflakeConfig) : list string :=
  config.get_database_setup_commands config db_name.

Definition setup_dbs_cmds (json_data : MappingRow) (config : SnowflakeConfig) : list string :=
  let db_name := target_database_name json_data in
  get_db_setup_commands db_name config.

Definition get_schema_setup_commands (json_data : MappingRow) (config : SnowflakeConfig)
  : list string :=
  let schema_name := target_schema json_data in
  let tables := tables json_data in
  let schema_path := schema_name in
  let out_cmds := [ "USE ROLE " +:+ admin_role config;
                    "CREATE SCHEMA IF NOT EXISTS " +:+ schema_path ] in
  foldl (λ out_cmds table,
           let source_table := source_table table in
           let target_table := target_table table in
           out_cmds ++ [ "CREATE TABLE IF NOT EXISTS " +:+ target_table +:+
                         " AS SELECT * FROM " +:+ source_table ])
        out_cmds tables.

(** The argument is the content of the file at [file_path], line by line. *)
Fixpoint process_jsonl_file_loop (file : list string) (sql_statements : list MappingRow)
  : res (list MappingRow) :=
  match file with
  | [] => Ok sql_statements
  | line :: file' =>
      match json_loads line with
      | Raise e => Raise e
      | Ok json_data =>
          if decide (target_database_name json_data = "EBI_CHEMBL")
          then process_jsonl_file_loop file' sql_statements
          else process_jsonl_file_loop file' (sql_statements ++ [json_data])
      end
  end.

Definition process_jsonl_file (file : list string) : res (list MappingRow) :=
  process_jsonl_file_loop file [].

Definition check_database_exists (conn : Conn) (db_name : string) : M W bool :=
  let cursor := conn_cursor conn in
  let query := "SHOW DATABASES LIKE '" +:+ db_name +:+ "'" in
  rows <- cursor_execute cursor query ;;
  let result := head rows in
  ret (bool_decide (result ≠ None)).

Definition check_schema_exists (snowflake_connector : Conn) (schema_path : string)
    (config : SnowflakeConfig) : M W bool :=
  match PyStr.split "." schema_path with
  | [db_name; schema] =>
      let cursor := conn_cursor snowflake_connector in
      _ <- cursor_execute cursor ("USE ROLE " +:+ admin_role config) ;;
      _ <- cursor_execute cursor ("USE DATABASE " +:+ db_name) ;;
      let query := "SHOW SCHEMAS LIKE '" +:+ schema +:+ "'" in
      rows <- cursor_execute cursor query ;;
      let result := head rows in
      ret (bool_decide (result ≠ None))
  | [] | [_] => raise (ValueError "not enough values to unpack (expected 2, got 1)")
  | _ => raise (ValueError "too many values to unpack (expected 2)")
  end.

(** The [for cmd in cmds] loop of [exec_set_of_cmds]. *)
Fixpoint exec_cmds_loop (sf_conn : Conn) (cmds : list string) : M W string :=
  match cmds with
  | [] => ret "DONE"
  | cmd :: cmds' =>
      failed <- try_except
                  (_ <- cursor_execute (conn_cursor sf_conn) cmd ;; ret false)
                  (λ e, logger L_ERROR ("Error while executing " +:+ cmd +:+ ": " +:+ exn_str e) ;;;
                        ret true) ;;
      if failed : bool then ret "FAILED" else exec_cmds_loop sf_conn cmds'
  end.

(** [time.sleep(3)] has no counterpart here. *)
Definition exec_set_of_cmds (cmds : list string) (config : SnowflakeConfig)
    (db_to_check schema_to_check : option string) : M W string :=
  sf_conn <- get_sf_connection config ;;
  db_exists <- match db_to_check with
               | Some db => check_database_exists sf_conn db
               | None => ret false
               end ;;
  if db_exists : bool then ret "SKIPPED" else
  schema_exists <- match schema_to_check with
                   | Some schema => check_schema_exists sf_conn schema config
                   | None => ret false
                   end ;;
  if schema_exists : bool then ret "SKIPPED" else
  exec_cmds_loop sf_conn cmds.

(** The first loop of [main]: one command list per target database. *)
Definition collect_dbs_setup_commands (all_input_jsonl : list MappingRow)
    (config : SnowflakeConfig) : list (string * list string) :=
  foldl (λ dbs_setup_commands json_data,
           let db_name := target_database_name json_data in
           if dict_mem db_name dbs_setup_commands
           then dbs_setup_commands
           else dict_set db_name (setup_dbs_cmds json_data config) dbs_setup_commands)
        [] all_input_jsonl.

(** The body of the [as_completed] loop, over the futures in completion
    order; a future is stored with its [future_to_db] entry. *)
Fixpoint record_statuses (completed : list (string * res string))
    (db_create_statuses : gmap string string) : M W (gmap string string) :=
  match completed with
  | [] => ret db_create_statuses
  | (db, future) :: completed' =>
      match future with
      | Ok status => record_statuses completed' (<[db := status]> db_create_statuses)
      | Raise e =>
          logger L_ERROR (db +:+ ": " +:+ exn_str e) ;;;
          record_statuses completed' (<[db := "ERROR"]> db_create_statuses)
      end
  end.

(** The tasks [main] submits to the pool, one per database. *)
Definition database_tasks (dbs_setup_commands : list (string * list string))
    (config : SnowflakeConfig) : list (string * M W string) :=
  map (λ '(db, cmds), (db, exec_set_of_cmds cmds config (Some db) None))
      dbs_setup_commands.

(** The pool part of [main]: submit the tasks and fill [db_create_statuses]. *)
Definition create_all (dbs_setup_commands : list (string * list string))
    (config : SnowflakeConfig) : M W (gmap string string) :=
  completed <- run_pool 8 (database_tasks dbs_setup_commands config) ;;
  record_statuses completed ∅.

(** [main], from the resolved configuration on; the result is
    [db_create_statuses] as it stands when [main] returns. *)
Definition main (file : list string) (config : SnowflakeConfig) : M W (gmap string string) :=
  match process_jsonl_file file with
  | Raise e => raise e
  | Ok all_input_jsonl =>
      create_all (collect_dbs_setup_commands all_input_jsonl config) config
  end.

End Defs.
End create_databases.

(** ** create_tables.py (nested mode) *)

Module create_tables.

Definition MAX_SCHEMA_THREADS : nat := 2.
Definition MAX_TABLE_THREADS : nat := 4.

Inductive Status : Type := SKIP | SUCCESS | ERROR.

#[global] Instance Status_eq_dec : EqDecision Status.
Proof. solve_decision. Defined.

#[global] Instance Status_countable : Countable Status.
Proof.
  refine (inj_countable'
            (λ s, match s with SKIP => 0 | SUCCESS => 1 | ERROR => 2 end)
            (λ n, match n with 0 => SKIP | 1 => SUCCESS | _ => ERROR end) _).
  by intros [].
Defined.

Definition prepare_table_creation_sqls (source_table target_table : string) : string :=
  "CREATE TABLE IF NOT EXISTS " +:+ target_table +:+ " AS SELECT * FROM " +:+ source_table.

Section Defs.
Context {W : Type} {WH : Warehouse W} {JS : Json}.

Definition get_sf_connection (config : SnowflakeConfig) : M W Conn :=
  get_snowflake_connection config.

(** The argument is the content of [source_file], line by line. *)
Fixpoint get_json_setup (source_file : list string) : res (list MappingRow) :=
  match source_file with
  | [] => Ok []
  | line :: lines =>
      match json_loads line with
      | Raise e => Raise e
      | Ok row =>
          match get_json_setup lines with
          | Raise e => Raise e
          | Ok rows => Ok (row :: rows)
          end
      end
  end.

Definition execute_sql (sql : string) (cursor : Cursor) : M W unit :=
  _ <- cursor_execute cursor sql ;; ret tt.

(** The futures are only counted as they complete: [future.result()] is never
    called, so what a future holds is not looked at. *)
Definition execute_sqls (sqls : list string) (conn : Conn) : M W unit :=
  let cursor := conn_cursor conn in
  futures <- run_pool MAX_TABLE_THREADS
               (map (λ sql, (sql, execute_sql sql cursor)) sqls) ;;
  let completed := foldl (λ completed _, completed + 1) 0 futures in
  ret tt.

Definition _check_schema_and_execute (schema : string) (sqls : list string) (conn : Conn)
  : M W Status :=
  let cursor := conn_cursor conn in
  if decide (length sqls = 0) then ret SKIP else
  created_tables <- try_except
                      (cursor_execute cursor ("SHOW TABLES IN SCHEMA " +:+ schema))
                      (λ _, _ <- cursor_execute cursor ("CREATE SCHEMA IF NOT EXISTS " +:+ schema) ;;
                            ret []) ;;
  let created_tables := map row_name created_tables in
  if decide (length created_tables = length sqls) then ret SKIP else
  try_except
    (execute_sqls sqls conn ;;; ret SUCCESS)
    (λ e, logger L_ERROR ("Error while creating tables in schema " +:+ schema +:+ ": " +:+ exn_str e) ;;;
          ret ERROR).

Definition safe_check_schema_and_execute (schema : string) (sqls : list string) (conn : Conn)
  : M W Status :=
  try_except
    (_check_schema_and_execute schema sqls conn)
    (λ e, logger L_ERROR ("Error while processing schema " +:+ schema +:+ ": " +:+ exn_str e) ;;;
          ret ERROR).

(** The first loop of [main]: the CTAS statements of every target schema. *)
Definition collect_schema_to_table_sqls (json_data : list MappingRow)
  : list (string * list string) :=
  foldl (λ schema_to_table_sqls row,
           let table_sqls :=
             map (λ table, prepare_table_creation_sqls (source_table table) (target_table table))
                 (tables row) in
           dict_set (target_schema row) table_sqls schema_to_table_sqls)
        [] json_data.

(** The body of the [as_completed] loop: [statuses[future.result()] += 1] on a
    [defaultdict(int)]. *)
Fixpoint count_statuses (completed : list (string * res Status))
    (statuses : gmap Status nat) : M W (gmap Status nat) :=
  match completed with
  | [] => ret statuses
  | (_, future) :: completed' =>
      match future with
      | Ok status =>
          count_statuses completed' (<[status := default 0 (statuses !! status) + 1]> statuses)
      | Raise e => raise e
      end
  end.

(** The tasks [main] submits to the outer pool: every schema unit is given
    the one connection [conn]. *)
Definition schema_tasks (schema_to_table_sqls : list (string * list string)) (conn : Conn)
  : list (string * M W Status) :=
  map (λ '(schema, sqls), (schema, safe_check_schema_and_execute schema sqls conn))
      schema_to_table_sqls.

Definition process_all (schema_to_table_sqls : list (string * list string)) (conn : Conn)
  : M W (gmap Status nat) :=
  completed <- run_pool MAX_SCHEMA_THREADS (schema_tasks schema_to_table_sqls conn) ;;
  count_statuses completed ∅.

(** [main], from the resolved configuration on; the result is [statuses]. *)
Definition main (source_file : list string) (config : SnowflakeConfig) : M W (gmap Status nat) :=
  conn <- get_sf_connection config ;;
  match get_json_setup source_file with
  | Raise e => raise e
  | Ok json_data => process_all (collect_schema_to_table_sqls json_data) conn
  end.

End Defs.
End create_tables.

(** ** database_mapping.py *)

Module database_mapping.
Section Defs.
Context {W : Type} {WH : Warehouse W}.

Definition get_sf_connection (config : SnowflakeConfig) : M W Conn :=
  get_snowflake_connection config.

(** [a, b = parts]: nothing is assigned unless there are exactly two parts. *)
Definition unpack2 (parts : list string) : M W (string * string) :=
  match parts with
  | [a; b] => ret (a, b)
  | [] => raise (ValueError "not enough values to unpack (expected 2, got 0)")
  | [_] => raise (ValueError "not enough values to unpack (expected 2, got 1)")
  | _ => raise (ValueError "too many values to unpack (expected 2)")
  end.

(** The [for schema_name in schema_names] loop of [main].  [locals] holds
    [new_database_name] and [real_schema_name], unbound ([None]) until the
    first successful assignment. *)
Fixpoint mapping_loop (connection : Conn) (source_database : string)
    (schema_names : list string) (locals : option (string * string))
    (jsons : list MappingRow) : M W (list MappingRow) :=
  match schema_names with
  | [] => ret jsons
  | schema_name :: schema_names' =>
      locals <- try_except_ValueError
                  (p <- unpack2 (PyStr.split DELIMITER schema_name) ;; ret (Some p))
                  (λ e, logger L_WARNING (exn_str e) ;;; ret locals) ;;
      match locals with
      | None => raise (UnboundLocalError "new_database_name")
      | Some (new_database_name, real_schema_name) =>
          let target_fqn_schema := new_database_name +:+ "." +:+ real_schema_name in
          tables <- utils.get_table_names connection (source_database +:+ "." +:+ schema_name) ;;
          let schema_json :=
            {| source_database := source_database;
               source_schema := schema_name;
               target_database_name := new_database_name;
               target_schema := target_fqn_schema;
               tables :=
                 map (λ table,
                        {| source_table := source_database +:+ "." +:+ schema_name +:+ "." +:+ table;
                           target_table := target_fqn_schema +:+ "." +:+ table |})
                     tables |} in
          mapping_loop connection source_database schema_names' locals (jsons ++ [schema_json])
      end
  end.

(** [main], from the resolved configuration on; the result is the list of
    records written to [output_file]. *)
Definition main (source_database : string) (config : SnowflakeConfig) : M W (list MappingRow) :=
  connection <- get_sf_connection config ;;
  schema_names <- utils.get_schema_names connection source_database ;;
  jsons <- mapping_loop connection source_database schema_names None [] ;;
  ret jsons.

End Defs.
End database_mapping.

(** ** merge_databases.py *)

Module merge_databases.
Section Defs.
Context {W : Type} {WH : Warehouse W}.

(** The [for schema_name in schema_names] loop of [merge_database]. *)
Fixpoint clone_loop (cursor : Cursor) (database_name output_database : string)
    (dry_run : bool) (schema_names : list string) : M W unit :=
  match schema_names with
  | [] => ret tt
  | schema_name :: schema_names' =>
      if PyStr.contains DELIMITER schema_name || PyStr.contains DELIMITER database_name
      then raise (ValueError ("Database or schema name contains the delimiter '" +:+ DELIMITER +:+ "'."))
      else
        let clone_db_sql :=
          "CREATE SCHEMA IF NOT EXISTS " +:+ output_database +:+ "." +:+ database_name +:+
          DELIMITER +:+ schema_name +:+ " CLONE " +:+ database_name +:+ "." +:+ schema_name +:+ ";" in
        (if dry_run
         then logger L_DEBUG clone_db_sql
         else _ <- cursor_execute cursor clone_db_sql ;; ret tt) ;;;
        clone_loop cursor database_name output_database dry_run schema_names'
  end.

Definition merge_database (connection : Conn) (database_name output_database : string)
    (dry_run : bool) : M W unit :=
  let cursor := conn_cursor connection in
  let create_db_sql := "CREATE DATABASE IF NOT EXISTS " +:+ output_database in
  (if dry_run
   then logger L_DEBUG create_db_sql
   else _ <- cursor_execute cursor create_db_sql ;; ret tt) ;;;
  schema_names <- utils.get_schema_names connection database_name ;;
  let schema_names :=
    filter (λ schema_name, schema_name ≠ "INFORMATION_SCHEMA") schema_names in
  clone_loop cursor database_name output_database dry_run schema_names.


(** [SnowflakeConnection(account=..., user=..., ...)]: a new connection. *)
Definition SnowflakeConnection (account user password warehouse role : string) : M W Conn :=
  λ w, match sf_connect (wh w) with
       | (wh', None) =>
           (Ok (next_conn w),
            mkWorld wh' (S (next_conn w)) (picks w) (task w) (trace w) (logs w))
       | (wh', Some msg) =>
           (Raise (ConnectError msg),
            mkWorld wh' (next_conn w) (picks w) (task w) (trace w) (logs w))
       end.

(** The [for row in database_names] loop of [main]. *)
Fixpoint main_loop (connection : Conn) (output_database : string) (dry_run : bool)
    (database_names : list Row) (snowflake_marketplace_dbs migration_dbs : list string)
  : M W (list string * list string) :=
  match database_names with
  | [] => ret (snowflake_marketplace_dbs, migration_dbs)
  | row :: database_names' =>
      let kind := row_kind row in
      let name := row_name row in
      if bool_decide (name ∈ ["SNOWFLAKE"; output_database])
      then main_loop connection output_database dry_run database_names'
             snowflake_marketplace_dbs migration_dbs
      else if decide (kind = "IMPORTED DATABASE")
      then main_loop connection output_database dry_run database_names'
             (snowflake_marketplace_dbs ++ [name]) migration_dbs
      else
        let migration_dbs := migration_dbs ++ [name] in
        merge_database connection name output_database dry_run ;;;
        main_loop connection output_database dry_run database_names'
          snowflake_marketplace_dbs migration_dbs
  end.

(** [main]; [environ] is [os.environ].  The result is the pair of lists
    [snowflake_marketplace_dbs] and [migration_dbs] that [main] logs. *)
Definition main (environ : gmap string string) (output_database : string) (dry_run : bool)
  : M W (list string * list string) :=
  vars <- of_res (utils.get_snowflake_conneciton_env_variables environ) ;;
  let '(account, user, password, warehouse, role) := vars in
  connection <- SnowflakeConnection account user password warehouse role ;;
  database_names <- utils.get_database_names connection ;;
  main_loop connection output_database dry_run database_names [] [].

End Defs.
End merge_databases.

(** ** Test doubles

    A scripted warehouse: it has no state of its own, refuses the statements
    listed in [failing] and answers the others with the rows listed for them
    (no rows by default). *)

Module Scenario.

Record Script : Type := mkScript {
  refuses_connection : bool;
  failing : list string;
  answers : list (string * list Row)
}.

Fixpoint rows_for (sql : string) (answers : list (string * list Row)) : list Row :=
  match answers with
  | [] => []
  | (q, rs) :: answers' => if decide (sql = q) then rs else rows_for sql answers'
  end.

Definition scripted (s : Script) : Warehouse unit :=
  {| sf_connect := λ _, (tt, if refuses_connection s then Some "connection refused" else None);
     sf_execute := λ _ _ sql,
       (tt, if bool_decide (sql ∈ failing s)
            then Fails ("SQL compilation error: " +:+ sql)
            else Rows (rows_for sql (answers s))) |}.

(** The world at the start of a run, with the scheduler choices [ps]. *)
Definition start (ps : list nat) : World unit := mkWorld tt 0 ps [] [] [].

(** A stand-in for the JSON reader: a line is the name of the target
    database of its record, whose schema PUBLIC has the one table T; an
    empty line is not JSON. *)
Definition record_of (line : string) : MappingRow :=
  {| source_database := "SRC";
     source_schema := line;
     target_database_name := line;
     target_schema := line +:+ ".PUBLIC";
     tables := [ {| source_table := "SRC." +:+ line +:+ ".T";
                    target_table := line +:+ ".PUBLIC.T" |} ] |}.

Definition line_is_database : Json :=
  λ line, if decide (line = "")
          then Raise (JSONDecodeError "Expecting value: line 1 column 1 (char 0)")
          else Ok (record_of line).

(** A warehouse that carries out everything and has no rows to show. *)
Definition obliging : Script :=
  {| refuses_connection := false; failing := []; answers := [] |}.

Definition cfg : SnowflakeConfig :=
  {| account := "acct"; role := "R"; warehouse := "WH";
     admin_role := "ADMIN"; readonly_role := "READER" |}.

(** Three CTAS statements of one schema unit; the warehouse refuses the third. *)
Definition ctas (n : string) : string :=
  create_tables.prepare_table_creation_sqls ("SRC.S.T" +:+ n) ("DB.S.T" +:+ n).

Definition three_tables : list string := [ctas "1"; ctas "2"; ctas "3"].

Definition third_fails : Script :=
  {| refuses_connection := false; failing := [ctas "3"]; answers := [] |}.



(** Schema DB.S exists and holds one table. *)
Definition one_table_exists : Script :=
  {| refuses_connection := false;
     failing := [];
     answers := [("SHOW TABLES IN SCHEMA DB.S", [mkRow "T1" "TABLE"])] |}.

(** Database FOO is not there; its second setup statement is refused. *)
Definition second_setup_refused : Script :=
  {| refuses_connection := false;
     failing := ["CREATE DATABASE IF NOT EXISTS FOO;"];
     answers := [] |}.

(** Database A__B has no schema of its own, only INFORMATION_SCHEMA. *)
Definition only_information_schema : Script :=
  {| refuses_connection := false;
     failing := [];
     answers := [("SHOW SCHEMAS IN DATABASE A__B", [mkRow "INFORMATION_SCHEMA" ""])] |}.



(** Database DB holds the schemas PUBLIC, A__B and LATER, in that order. *)
Definition delimiter_in_schema : Script :=
  {| refuses_connection := false;
     failing := [];
     answers := [("SHOW SCHEMAS IN DATABASE DB",
                  [mkRow "INFORMATION_SCHEMA" ""; mkRow "PUBLIC" "";
                   mkRow "A__B" ""; mkRow "LATER" ""])] |}.


(** An environment in which, of the five settings of [from_env], only the
    account is set, and the warehouse is set to the empty string. *)
Definition environ_account_only : gmap string string :=
  list_to_map [("SNOWFLAKE_ACCOUNT", "acct"); ("SNOWFLAKE_WAREHOUSE", "")].

(** The environment of merge_databases, without warehouse and role. *)
Definition environ_spider : gmap string string :=
  list_to_map [("SPIDER_ACCOUNT", "acct"); ("SPIDER_USER", "me"); ("SPIDER_PWD", "secret")].

(** The warehouse cannot be reached. *)
Definition unreachable : Script :=
  {| refuses_connection := true; failing := []; answers := [] |}.

(** Database FOO is there. *)
Definition database_foo_exists : Script :=
  {| refuses_connection := false;
     failing := [];
     answers := [("SHOW DATABASES LIKE 'FOO'", [mkRow "FOO" "STANDARD"])] |}.

(** Schema DB.S exists and holds three tables. *)
Definition three_tables_exist : Script :=
  {| refuses_connection := false;
     failing := [];
     answers := [("SHOW TABLES IN SCHEMA DB.S",
                  [mkRow "T1" "TABLE"; mkRow "T2" "TABLE"; mkRow "T3" "TABLE"])] |}.

(** A second record for the target schema of [record_of line], with the one
    table U instead of T. *)
Definition later_record_of (line : string) : MappingRow :=
  {| source_database := "SRC";
     source_schema := line;
     target_database_name := line;
     target_schema := line +:+ ".PUBLIC";
     tables := [ {| source_table := "SRC." +:+ line +:+ ".U";
                    target_table := line +:+ ".PUBLIC.U" |} ] |}.

(** Source database SRC holds the schemas DB1__S1, A__B__C and DB2__S2, in
    that order.  A query for the tables of schema GONE, which SRC does not
    hold, is refused. *)
Definition overlong_schema_name : Script :=
  {| refuses_connection := false;
     failing := ["SHOW TABLES IN SCHEMA SRC.GONE"];
     answers := [("SHOW SCHEMAS IN DATABASE SRC",
                  [mkRow "DB1__S1" ""; mkRow "A__B__C" ""; mkRow "DB2__S2" ""])] |}.

(** The account holds SNOWFLAKE, the output database OUT, the imported
    database MARKET and the database DB with the schema PUBLIC. *)
Definition four_databases : Script :=
  {| refuses_connection := false;
     failing := [];
     answers := [("SHOW TERSE DATABASES",
                  [mkRow "SNOWFLAKE" "APPLICATION"; mkRow "OUT" "STANDARD";
                   mkRow "MARKET" "IMPORTED DATABASE"; mkRow "DB" "STANDARD"]);
                 ("SHOW SCHEMAS IN DATABASE DB", [mkRow "PUBLIC" ""])] |}.

(** Database DB holds the schemas PUBLIC, RAW and LATER, in that order; the
    clone of RAW is refused. *)
Definition second_clone_refused : Script :=
  {| refuses_connection := false;
     failing := ["CREATE SCHEMA IF NOT EXISTS OUT.DB__RAW CLONE DB.RAW;"];
     answers := [("SHOW SCHEMAS IN DATABASE DB",
                  [mkRow "INFORMATION_SCHEMA" ""; mkRow "PUBLIC" "";
                   mkRow "RAW" ""; mkRow "LATER" ""])] |}.

End Scenario.

(** ** Vocabulary of the statements below *)

Section Vocabulary.
Context {W : Type} {WH : Warehouse W}.

(** The warehouse carries out every statement of [sqls], one after the other
    on connection [c], starting from state [wh0]: the state it ends in. *)
Fixpoint all_succeed (c : Conn) (sqls : list string) (wh0 : W) : option W :=
  match sqls with
  | [] => Some wh0
  | sql :: sqls' =>
      match sf_execute wh0 c sql with
      | (wh1, Rows _) => all_succeed c sqls' wh1
      | (_, Fails _) => None
      end
  end.

(** The events of statements [sqls] issued by task [t] on connection [c],
    all with the same flag. *)
Definition events (t : list string) (c : Conn) (ok : bool) (sqls : list string) : list Event :=
  map (λ sql, mkEvent t c sql ok) sqls.

(** The flag of event [e] is the answer of the warehouse, in some state, to
    the statement of [e] on the connection of [e]. *)
Definition answered (e : Event) : Prop :=
  ∃ wh0, ev_ok e = match (sf_execute wh0 (ev_conn e) (ev_sql e)).2 with
                   | Rows _ => true
                   | Fails _ => false
                   end.

(** From [w] to [w'] the running task is the same, no connection has been
    created, and the statements issued in between all satisfy [Q]. *)
Definition steps (Q : Event → Prop) (w w' : World W) : Prop :=
  task w' = task w ∧ next_conn w' = next_conn w ∧
  ∃ evs, trace w' = trace w ++ evs ∧ Forall Q evs.

(** Run by task [t], the computation [m] only makes such steps. *)
Definition runs {A} (t : list string) (Q : Event → Prop) (m : M W A) : Prop :=
  ∀ w, task w = t → steps Q w (m w).2.

End Vocabulary.

(** create_tables.main: the completed futures that hold status [s]. *)
Definition holds (s : create_tables.Status) (future : res create_tables.Status) : bool :=
  match future with
  | Ok s' => bool_decide (s' = s)
  | Raise _ => false
  end.

Definition futures_with (s : create_tables.Status)
    (completed : list (string * res create_tables.Status)) : nat :=
  length (filter (λ c, holds s c.2) completed).

(** create_databases.main: what is recorded for a completed future. *)
Definition recorded (future : res string) : string :=
  match future with
  | Ok status => status
  | Raise _ => "ERROR"
  end.


(** [statuses[s]] on the [defaultdict(int)] of create_tables.main. *)
Definition tally (statuses : gmap create_tables.Status nat) (s : create_tables.Status) : nat :=
  default 0 (statuses !! s).

(** A schema name that unpacks into exactly two parts at the delimiter. *)
Definition splits (schema_name : string) : option (string * string) :=
  match PyStr.split DELIMITER schema_name with
  | [a; b] => Some (a, b)
  | _ => None
  end.


(** database_mapping: the two locals after the loop has gone through
    [schema_names], having started with [locals]. *)
Definition locals_after (locals : option (string * string)) (schema_names : list string)
  : option (string * string) :=
  foldl (λ locals schema_name, from_option Some locals (splits schema_name))
        locals schema_names.

(** database_mapping: the record emitted for [schema_name] when the locals
    hold [new_database_name] and [real_schema_name] and the source schema has
    the tables [table_names]. *)
Definition mapping_record (source_database schema_name new_database_name real_schema_name : string)
    (table_names : list string) : MappingRow :=
  {| source_database := source_database;
     source_schema := schema_name;
     target_database_name := new_database_name;
     target_schema := new_database_name +:+ "." +:+ real_schema_name;
     tables :=
       map (λ table,
              {| source_table := source_database +:+ "." +:+ schema_name +:+ "." +:+ table;
                 target_table := (new_database_name +:+ "." +:+ real_schema_name) +:+ "." +:+ table |})
           table_names |}.

(** The message of the ValueError raised by [a, b = parts]. *)
Definition unpack_message (parts : list string) : string :=
  match parts with
  | [] => "not enough values to unpack (expected 2, got 0)"
  | [_] => "not enough values to unpack (expected 2, got 1)"
  | _ => "too many values to unpack (expected 2)"
  end.

(** database_mapping: the [SHOW TABLES] queries that the loop issues for
    [schema_names], in order. *)
Definition table_queries (source_database : string) (schema_names : list string) : list string :=
  map (λ schema_name, "SHOW TABLES IN SCHEMA " +:+ source_database +:+ "." +:+ schema_name)
      schema_names.

(** merge_databases: the statement that clones one schema. *)
Definition clone_sql (database_name output_database schema_name : string) : string :=
  "CREATE SCHEMA IF NOT EXISTS " +:+ output_database +:+ "." +:+ database_name +:+
  DELIMITER +:+ schema_name +:+ " CLONE " +:+ database_name +:+ "." +:+ schema_name +:+ ";".

(** ** Vocabulary of the further properties *)

(** config.from_env: the five required settings as they are resolved, each
    with the name of its environment variable: the override if it is a
    non-empty string, else the environment variable. *)
Definition resolved_settings (environ : gmap string string)
    (account role warehouse admin_role readonly_role : option string)
  : list (string * option string) :=
  [ ("SNOWFLAKE_ACCOUNT", utils.py_or account (environ !! "SNOWFLAKE_ACCOUNT"));
    ("SNOWFLAKE_ROLE", utils.py_or role (environ !! "SNOWFLAKE_ROLE"));
    ("SNOWFLAKE_WAREHOUSE", utils.py_or warehouse (environ !! "SNOWFLAKE_WAREHOUSE"));
    ("SNOWFLAKE_ADMIN_ROLE", utils.py_or admin_role (environ !! "SNOWFLAKE_ADMIN_ROLE"));
    ("SNOWFLAKE_READONLY_ROLE", utils.py_or readonly_role (environ !! "SNOWFLAKE_READONLY_ROLE")) ].

(** The names of the settings that resolve to nothing or to the empty string. *)
Definition unresolved (settings : list (string * option string)) : list string :=
  omap (λ setting, if utils.truthy setting.2 then None else Some setting.1) settings.

(** A string that is there and not empty. *)
Definition nonempty (o : option string) : Prop := ∃ s, o = Some s ∧ s ≠ EmptyString.

(** An override given as the empty string, read as no override. *)
Definition blank_is_none (o : option string) : option string :=
  match o with
  | Some EmptyString => None
  | _ => o
  end.

(** config.from_env: the message of the ValueError for the settings [missing]. *)
Definition missing_message (missing : list string) : string :=
  "Missing required configuration: " +:+ PyStr.join ", " missing +:+ ". " +:+
  "Please set environment variables or provide command line arguments.".

(** config.get_connection_params: the seven entries that are always there. *)
Definition base_params (self : config.SnowflakeConfigFull) : gmap string config.ParamValue :=
  <["warehouse" := config.PStr (warehouse (config.base self))]>
  (<["role" := config.PStr (role (config.base self))]>
  (<["authenticator" := config.PStr (config.authenticator self)]>
  (<["user" := config.opt_param (config.user self)]>
  (<["account" := config.PStr (account (config.base self))]>
  (<["port" := config.PInt (config.port self)]>
  (<["protocol" := config.PStr (config.protocol self)]> ∅)))))).

(** create_tables.main: the CTAS statements of one record of the mapping. *)
Definition table_sqls (row : MappingRow) : list string :=
  map (λ table, create_tables.prepare_table_creation_sqls (source_table table) (target_table table))
      (tables row).

(** merge_databases.main: a row of SHOW TERSE DATABASES that is merged. *)
Definition eligible (output_database : string) (row : Row) : Prop :=
  (row_name row ∉ ["SNOWFLAKE"; output_database]) ∧ row_kind row ≠ "IMPORTED DATABASE".

(** merge_databases.main: a row that is only listed as a marketplace database. *)
Definition imported (output_database : string) (row : Row) : Prop :=
  (row_name row ∉ ["SNOWFLAKE"; output_database]) ∧ row_kind row = "IMPORTED DATABASE".

(** merge_databases: [sql] is one of the statements of merging database
    [database_name] into [output_database]. *)
Definition merge_statement (output_database database_name sql : string) : Prop :=
  sql = "CREATE DATABASE IF NOT EXISTS " +:+ output_database ∨
  sql = "SHOW SCHEMAS IN DATABASE " +:+ database_name ∨
  ∃ schema_name, sql = clone_sql database_name output_database schema_name.

#[global] Instance eligible_dec (output_database : string) (row : Row) :
  Decision (eligible output_database row).
Proof. unfold eligible. apply _. Defined.

#[global] Instance imported_dec (output_database : string) (row : Row) :
  Decision (imported output_database row).
Proof. unfold imported. apply _. Defined.

(** database_mapping: the warnings of the names of [schema_names] that do not
    unpack. *)
Definition unpack_warnings (schema_names : list string) : list (Level * string) :=
  map (λ schema_name, (L_WARNING, unpack_message (PyStr.split DELIMITER schema_name)))
      (filter (λ schema_name, splits schema_name = None) schema_names).

(** ** Properties *)

(** *** Strings *)

Lemma append_snoc (cur s : string) (c : ascii) :
  (cur +:+ String c EmptyString) +:+ s = cur +:+ String c s.
Proof.
  induction cur as [|a cur IH]; [done|].
  change (String a ((cur +:+ String c EmptyString) +:+ s) = String a (cur +:+ String c s)).
  by rewrite IH.
Qed.

Lemma append_empty_r (s : string) : s +:+ EmptyString = s.
Proof.
  induction s as [|a s IH]; [done|].
  change (String a (s +:+ EmptyString) = String a s). by rewrite IH.
Qed.

Lemma split_go_no_sep (sep s cur : string) :
  PyStr.contains sep s = false → PyStr.split_go sep 0 cur s = [cur +:+ s].
Proof.
  revert cur. induction s as [|c s IH]; intros cur Hc.
  - by rewrite append_empty_r.
  - cbn [PyStr.contains] in Hc. apply orb_false_iff in Hc as [Hp Hs].
    cbn [PyStr.split_go]. rewrite Hp, (IH _ Hs). by rewrite append_snoc.
Qed.

Lemma split_no_sep (sep s : string) :
  PyStr.contains sep s = false → PyStr.split sep s = [s].
Proof. intros Hc. unfold PyStr.split. by rewrite split_go_no_sep. Qed.


(** *** Stepping through the monad *)

Section Steps.
Context {W : Type} {WH : Warehouse W}.

Lemma bind_ok {A B} (m : M W A) (k : A → M W B) w a w1 :
  m w = (Ok a, w1) → bind m k w = k a w1.
Proof. intros Hm. unfold bind. by rewrite Hm. Qed.

Lemma bind_raise {A B} (m : M W A) (k : A → M W B) w e w1 :
  m w = (Raise e, w1) → bind m k w = (Raise e, w1).
Proof. intros Hm. unfold bind. by rewrite Hm. Qed.

(** One [cursor.execute], whatever the warehouse answers. *)
Lemma cursor_execute_step (cursor : Cursor) (sql : string) (w : World W) :
  cursor_execute cursor sql w =
    let (wh', r) := sf_execute (wh w) (cursor_conn cursor) sql in
    (match r with Rows rs => Ok rs | Fails msg => Raise (ProgrammingError msg) end,
     mkWorld wh' (next_conn w) (picks w) (task w)
             (trace w ++ [mkEvent (task w) (cursor_conn cursor) sql
                                  (match r with Rows _ => true | Fails _ => false end)])
             (logs w)).
Proof. unfold cursor_execute. by destruct (sf_execute _ _ _) as [wh' [rs|msg]]. Qed.

Lemma cursor_execute_rows cursor sql (w : World W) wh' rs :
  sf_execute (wh w) (cursor_conn cursor) sql = (wh', Rows rs) →
  cursor_execute cursor sql w =
    (Ok rs, mkWorld wh' (next_conn w) (picks w) (task w)
                    (trace w ++ [mkEvent (task w) (cursor_conn cursor) sql true]) (logs w)).
Proof. intros Hq. by rewrite cursor_execute_step, Hq. Qed.

Lemma cursor_execute_fails cursor sql (w : World W) wh' msg :
  sf_execute (wh w) (cursor_conn cursor) sql = (wh', Fails msg) →
  cursor_execute cursor sql w =
    (Raise (ProgrammingError msg),
     mkWorld wh' (next_conn w) (picks w) (task w)
             (trace w ++ [mkEvent (task w) (cursor_conn cursor) sql false]) (logs w)).
Proof. intros Hq. by rewrite cursor_execute_step, Hq. Qed.

End Steps.

(** *** create_tables: the empty schema unit *)

Section EmptyUnit.
Context {W : Type} {WH : Warehouse W} {JS : Json}.

(** C5.  A schema unit with an empty statement list is skipped, and the world
    is left as it was: no existence query and no other statement is issued,
    nothing is logged at warning or error level.  The same holds through the
    [safe_] wrapper. *)
Theorem empty_schema_unit_skipped (schema : string) (conn : Conn) (w : World W) :
  create_tables._check_schema_and_execute schema [] conn w = (Ok create_tables.SKIP, w) ∧
  create_tables.safe_check_schema_and_execute schema [] conn w = (Ok create_tables.SKIP, w).
Proof. split; reflexivity. Qed.

End EmptyUnit.

(** *** create_databases: reading the mapping file *)

Section ReadMapping.
Context {JS : Json}.

Lemma process_jsonl_file_loop_spec (file : list string) (recs acc : list MappingRow) :
  Forall2 (λ line r, json_loads line = Ok r) file recs →
  create_databases.process_jsonl_file_loop file acc =
    Ok (acc ++ filter (λ r, target_database_name r ≠ "EBI_CHEMBL") recs).
Proof.
  intros Hparse. revert acc.
  induction Hparse as [|line r file recs Hline _ IH]; intros acc; simpl.
  - by rewrite app_nil_r.
  - rewrite Hline. case_decide as Hdb.
    + rewrite IH. by rewrite filter_cons_False by (by intros []).
    + rewrite IH. rewrite filter_cons_True by done. by rewrite <-app_assoc.
Qed.

(** C8.  When every line of the file parses, [process_jsonl_file] returns the
    parsed records whose target database is not EBI_CHEMBL, in file order;
    the records that target EBI_CHEMBL are left out without any notice. *)
Theorem process_jsonl_file_drops_ebi_chembl (file : list string) (recs : list MappingRow) :
  Forall2 (λ line r, json_loads line = Ok r) file recs →
  create_databases.process_jsonl_file file =
    Ok (filter (λ r, target_database_name r ≠ "EBI_CHEMBL") recs).
Proof. intros Hparse. unfold create_databases.process_jsonl_file. by rewrite (process_jsonl_file_loop_spec _ recs). Qed.

End ReadMapping.

(** *** create_databases: the statement runner *)

Section StatementRunner.
Context {W : Type} {WH : Warehouse W} {JS : Json}.

(** While statements succeed, the loop goes on with the next one. *)
Lemma exec_cmds_loop_prefix (sf_conn : Conn) (pre rest : list string) (w : World W) (wh1 : W) :
  all_succeed sf_conn pre (wh w) = Some wh1 →
  create_databases.exec_cmds_loop sf_conn (pre ++ rest) w =
  create_databases.exec_cmds_loop sf_conn rest
    (mkWorld wh1 (next_conn w) (picks w) (task w)
             (trace w ++ events (task w) sf_conn true pre) (logs w)).
Proof.
  revert w. induction pre as [|cmd pre IH]; intros w Hpre.
  - simpl in Hpre. injection Hpre as <-. simpl. rewrite app_nil_r. by destruct w.
  - simpl in Hpre. destruct (sf_execute (wh w) sf_conn cmd) as [wh' [rs|msg]] eqn:Hq; [|done].
    cbn [app create_databases.exec_cmds_loop].
    unfold bind at 1, try_except, bind at 1.
    rewrite (cursor_execute_rows (conn_cursor sf_conn) cmd w wh' rs Hq). simpl.
    rewrite IH by done. simpl. by rewrite <-app_assoc.
Qed.

(** The first statement that the warehouse refuses ends the loop. *)
Lemma exec_cmds_loop_fails (sf_conn : Conn) (cmd : string) (post : list string)
    (w : World W) (wh1 : W) (msg : string) :
  sf_execute (wh w) sf_conn cmd = (wh1, Fails msg) →
  create_databases.exec_cmds_loop sf_conn (cmd :: post) w =
    (Ok "FAILED",
     mkWorld wh1 (next_conn w) (picks w) (task w)
             (trace w ++ [mkEvent (task w) sf_conn cmd false])
             (logs w ++ [(L_ERROR, "Error while executing " +:+ cmd +:+ ": " +:+ msg)])).
Proof.
  intros Hq. cbn [create_databases.exec_cmds_loop].
  unfold bind at 1, try_except, bind at 1.
  by rewrite (cursor_execute_fails (conn_cursor sf_conn) cmd w wh1 msg Hq).
Qed.

(** C2.  Once the connection is there and the existence checks have answered
    "does not exist", the statements run in order.  If the statements [pre]
    succeed and the next one is refused, the result is FAILED and the
    statements issued are those of [pre] and the refused one: none of the
    later statements is given to the warehouse.  If all statements succeed
    ([rest] is empty) the result is DONE. *)
Theorem exec_set_of_cmds_stops_at_first_failure
    (config : SnowflakeConfig) (db_to_check schema_to_check : option string)
    (pre rest : list string) (sf_conn : Conn) (w wa wb w0 : World W) (wh1 : W) :
  create_databases.get_sf_connection config w = (Ok sf_conn, wa) →
  match db_to_check with
  | Some db => create_databases.check_database_exists sf_conn db wa = (Ok false, wb)
  | None => wb = wa
  end →
  match schema_to_check with
  | Some schema => create_databases.check_schema_exists sf_conn schema config wb = (Ok false, w0)
  | None => w0 = wb
  end →
  all_succeed sf_conn pre (wh w0) = Some wh1 →
  match rest with
  | [] => True
  | cmd :: _ => ∃ msg, (sf_execute wh1 sf_conn cmd).2 = Fails msg
  end →
  ∃ w',
    create_databases.exec_set_of_cmds (pre ++ rest) config db_to_check schema_to_check w =
      (Ok (match rest with [] => "DONE" | _ :: _ => "FAILED" end), w') ∧
    trace w' = trace w0 ++ events (task w0) sf_conn true pre
                        ++ events (task w0) sf_conn false (take 1 rest).
Proof.
  intros Hconn Hdb Hschema Hpre Hrest.
  assert (Hloop : ∃ w',
    create_databases.exec_cmds_loop sf_conn (pre ++ rest) w0 =
      (Ok (match rest with [] => "DONE" | _ :: _ => "FAILED" end), w') ∧
    trace w' = trace w0 ++ events (task w0) sf_conn true pre
                        ++ events (task w0) sf_conn false (take 1 rest)).
  { rewrite (exec_cmds_loop_prefix _ _ _ _ _ Hpre).
    destruct rest as [|cmd post].
    - eexists. split; [reflexivity|]. simpl. by rewrite app_nil_r.
    - destruct Hrest as [msg Hmsg].
      destruct (sf_execute wh1 sf_conn cmd) as [wh2 r] eqn:Hq. simpl in Hmsg. subst r.
      erewrite exec_cmds_loop_fails by exact Hq.
      eexists. split; [reflexivity|]. simpl. by rewrite <-app_assoc. }
  destruct Hloop as (w' & Hrun & Htrace). exists w'. split; [|done].
  unfold create_databases.exec_set_of_cmds.
  rewrite (bind_ok _ _ _ _ _ Hconn).
  destruct db_to_check as [db|].
  - rewrite (bind_ok _ _ _ _ _ Hdb).
    destruct schema_to_check as [schema|].
    + by rewrite (bind_ok _ _ _ _ _ Hschema).
    + subst w0. by rewrite (bind_ok _ _ wb false wb).
  - subst wb. rewrite (bind_ok _ _ wa false wa) by done.
    destruct schema_to_check as [schema|].
    + by rewrite (bind_ok _ _ _ _ _ Hschema).
    + subst w0. by rewrite (bind_ok _ _ wa false wa).
Qed.

End StatementRunner.

(** *** The thread pool *)

Section PoolProps.
Context {W : Type} {WH : Warehouse W} {A : Type}.

Lemma next_pick_step (bound : nat) (w : World W) :
  next_pick bound w =
    (Ok (hd 0 (picks w) mod bound),
     mkWorld (wh w) (next_conn w) (tl (picks w)) (task w) (trace w) (logs w)).
Proof. reflexivity. Qed.

(** Every submitted task is run exactly once, in an order the scheduler
    chooses, and the pool itself never raises.  [P] is any property of the
    completed futures and of the worlds before and after that holds for no
    task and is kept when one more task is run first. *)
Lemma pool_go_spec (P : list (string * res A) → World W → World W → Prop) (width : nat) :
  0 < width →
  (∀ w, P [] w w) →
  ∀ (n : nat) (pending : list (string * M W A)) (w : World W),
    length pending = n →
    (∀ k t b w r w1 w2 cs,
       (k, t) ∈ pending →
       in_task k (attempt t) (next_pick b w).2 = (Ok r, w1) →
       P cs w1 w2 → P ((k, r) :: cs) w w2) →
    ∃ completed w',
      pool_go n width pending w = (Ok completed, w') ∧
      completed.*1 ≡ₚ pending.*1 ∧
      P completed w w'.
Proof.
  intros Hwidth Hnil. induction n as [|n IH]; intros pending w Hlen Hstep.
  - destruct pending; [|done]. exists [], w. by repeat split.
  - cbn [pool_go]. unfold bind at 1. rewrite next_pick_step.
    set (i := hd 0 (picks w) mod (width `min` length pending)).
    set (wp := mkWorld _ _ _ _ _ _).
    assert (Hi : i < length pending).
    { subst i. pose proof (Nat.mod_upper_bound (hd 0 (picks w)) (width `min` length pending)).
      lia. }
    destruct (lookup_lt_is_Some_2 pending i Hi) as [[k t] Hkt].
    rewrite Hkt. unfold bind at 1.
    destruct (in_task k (attempt t) wp) as [r' w1] eqn:Hrun.
    assert (∃ r, r' = Ok r) as [r ->].
    { unfold in_task, attempt in Hrun. destruct (t _) as [r ?]. injection Hrun as <- _. eauto. }
    destruct (IH (delete i pending) w1) as (cs & w' & Hgo & Hperm & HP).
    { rewrite length_delete by eauto. lia. }
    { intros k0 t0 b0 v r0 v1 v2 cs0 Hin. apply Hstep.
      by eapply list_elem_of_delete_inv. }
    exists ((k, r) :: cs), w'. unfold bind. rewrite Hgo. split; [done|]. split.
    + rewrite (delete_Permutation pending i (k, t) Hkt). simpl. by rewrite Hperm.
    + apply (Hstep k t 0 w r w1 w'); [by eapply list_elem_of_lookup_2| exact Hrun | exact HP].
Qed.

Lemma run_pool_spec (P : list (string * res A) → World W → World W → Prop)
    (max_workers : nat) (tasks : list (string * M W A)) (w : World W) :
  0 < max_workers →
  (∀ w, P [] w w) →
  (∀ k t b w r w1 w2 cs,
     (k, t) ∈ tasks →
     in_task k (attempt t) (next_pick b w).2 = (Ok r, w1) →
     P cs w1 w2 → P ((k, r) :: cs) w w2) →
  ∃ completed w',
    run_pool max_workers tasks w = (Ok completed, w') ∧
    completed.*1 ≡ₚ tasks.*1 ∧
    P completed w w'.
Proof.
  intros Hw Hnil Hstep. unfold run_pool. case_decide; [lia|].
  by apply pool_go_spec.
Qed.

End PoolProps.

(** *** create_tables: one schema unit *)

Section SchemaUnit.
Context {W : Type} {WH : Warehouse W} {JS : Json}.

Lemma keys_of_keyed {B} (f : string → B) (l : list string) :
  (map (λ x, (x, f x)) l).*1 = l.
Proof. induction l as [|x l IH]; [done|]. cbn. by f_equal. Qed.

(** One table statement run as a pool task: one more event, whatever the
    warehouse answers, and no exception leaves the future. *)
Lemma execute_sql_task (sql : string) (cursor : Cursor) (w w1 : World W) (r : res unit) :
  in_task sql (attempt (create_tables.execute_sql sql cursor)) w = (Ok r, w1) →
  next_conn w1 = next_conn w ∧ task w1 = task w ∧ logs w1 = logs w ∧ picks w1 = picks w ∧
  ∃ e, trace w1 = trace w ++ [e] ∧ ev_sql e = sql ∧ ev_conn e = cursor_conn cursor ∧
       ev_task e = sql :: task w ∧ answered e.
Proof.
  unfold in_task, attempt, create_tables.execute_sql, bind.
  rewrite cursor_execute_step. simpl.
  destruct (sf_execute _ _ _) as [wh' [rs|msg]] eqn:Hq; simpl; intros [= <- <-]; simpl;
    repeat split; eexists; (split; [reflexivity|]); repeat split;
    exists (wh w); simpl; by rewrite Hq.
Qed.

(** [execute_sqls] hands every statement to the warehouse, in an order the
    scheduler chooses, and returns normally whatever the warehouse answers. *)
Lemma execute_sqls_spec (sqls : list string) (conn : Conn) (w : World W) :
  ∃ w',
    create_tables.execute_sqls sqls conn w = (Ok tt, w') ∧
    next_conn w' = next_conn w ∧ task w' = task w ∧ logs w' = logs w ∧
    ∃ evs, trace w' = trace w ++ evs ∧
           map ev_sql evs ≡ₚ sqls ∧
           Forall (λ e, ev_conn e = conn ∧ ev_task e = ev_sql e :: task w ∧ answered e) evs.
Proof.
  unfold create_tables.execute_sqls.
  set (tasks := map _ sqls).
  destruct (run_pool_spec
    (λ cs v v',
       next_conn v' = next_conn v ∧ task v' = task v ∧ logs v' = logs v ∧
       ∃ evs, trace v' = trace v ++ evs ∧ map ev_sql evs = cs.*1 ∧
              Forall (λ e, ev_conn e = conn ∧ ev_task e = ev_sql e :: task v ∧ answered e) evs)
    create_tables.MAX_TABLE_THREADS tasks w)
    as (completed & w' & Hrun & Hperm & Hn & Ht & Hl & evs & Htr & Hsql & Hevs).
  - unfold create_tables.MAX_TABLE_THREADS. lia.
  - intros v. repeat split. exists []. by rewrite app_nil_r.
  - intros k t b v r v1 v2 cs Hin Hstep (Hn & Ht & Hl & evs & Htr & Hsql & Hevs).
    subst tasks. apply list_elem_of_fmap in Hin as (sql & [= -> ->] & _).
    apply execute_sql_task in Hstep as (Hn1 & Ht1 & Hl1 & _ & e & Htr1 & He1 & He2 & He3 & He4).
    simpl in *. rewrite Hn, Ht, Hl, Htr, Htr1, Hn1, Ht1, Hl1. repeat split.
    exists (e :: evs). rewrite <-app_assoc. split; [done|]. simpl. split; [by rewrite Hsql, He1|].
    constructor; [by rewrite He1|]. by rewrite Ht1 in Hevs.
  - exists w'. unfold bind. rewrite Hrun. repeat split; try done.
    exists evs. split; [done|]. split; [|done].
    rewrite Hsql, Hperm. subst tasks. by rewrite keys_of_keyed.
Qed.

(** What a schema unit with statements does, by the answers to the
    [SHOW TABLES] query and, if that is refused, to [CREATE SCHEMA]. *)
Lemma check_schema_and_execute_cases (schema : string) (sqls : list string) (conn : Conn)
    (w : World W) :
  sqls ≠ [] →
  let probe := "SHOW TABLES IN SCHEMA " +:+ schema in
  let create := "CREATE SCHEMA IF NOT EXISTS " +:+ schema in
  let ran w' before :=
    ∃ evs, trace w' = trace w ++ before ++ evs ∧
           map ev_sql evs ≡ₚ sqls ∧
           Forall (λ e, ev_conn e = conn ∧ ev_task e = ev_sql e :: task w ∧ answered e) evs in
  match sf_execute (wh w) conn probe with
  | (wh1, Rows rs) =>
      if decide (length rs = length sqls) then
        create_tables._check_schema_and_execute schema sqls conn w =
          (Ok create_tables.SKIP,
           mkWorld wh1 (next_conn w) (picks w) (task w)
                   (trace w ++ [mkEvent (task w) conn probe true]) (logs w))
      else
        ∃ w', create_tables._check_schema_and_execute schema sqls conn w =
                (Ok create_tables.SUCCESS, w') ∧
              logs w' = logs w ∧
              ran w' [mkEvent (task w) conn probe true]
  | (wh1, Fails _) =>
      match sf_execute wh1 conn create with
      | (wh2, Rows _) =>
          ∃ w', create_tables._check_schema_and_execute schema sqls conn w =
                  (Ok create_tables.SUCCESS, w') ∧
                logs w' = logs w ∧
                ran w' [mkEvent (task w) conn probe false; mkEvent (task w) conn create true]
      | (wh2, Fails msg) =>
          create_tables._check_schema_and_execute schema sqls conn w =
            (Raise (ProgrammingError msg),
             mkWorld wh2 (next_conn w) (picks w) (task w)
                     (trace w ++ [mkEvent (task w) conn probe false;
                                  mkEvent (task w) conn create false]) (logs w))
      end
  end.
Proof.
  intros Hsqls probe create ran.
  assert (Hlen : length sqls ≠ 0) by (by destruct sqls).
  unfold create_tables._check_schema_and_execute.
  destruct (decide (length sqls = 0)) as [|_]; [done|].
  unfold bind, try_except.
  rewrite !cursor_execute_step. cbn [cursor_conn conn_cursor]. fold probe.
  destruct (sf_execute (wh w) conn probe) as [wh1 [rs|msg1]]; cbn beta iota zeta.
  - rewrite length_map. destruct (decide (length rs = length sqls)); [done|].
    match goal with |- context [create_tables.execute_sqls sqls conn ?v] =>
      destruct (execute_sqls_spec sqls conn v) as (w' & Hrun & _ & _ & Hl & evs & Htr & Hp & Hf)
    end.
    exists w'. rewrite Hrun. split; [done|]. split; [done|].
    subst ran. cbn beta. exists evs. by rewrite Htr; cbn [trace]; rewrite <-?app_assoc.
  - rewrite !cursor_execute_step.
    cbn [cursor_conn conn_cursor wh next_conn picks task trace logs]. fold create.
    destruct (sf_execute wh1 conn create) as [wh2 [rs|msg2]]; cbn beta iota zeta.
    + cbn [ret map length]. destruct (decide (0 = length sqls)); [by destruct sqls|].
      match goal with |- context [create_tables.execute_sqls sqls conn ?v] =>
        destruct (execute_sqls_spec sqls conn v) as (w' & Hrun & _ & _ & Hl & evs & Htr & Hp & Hf)
      end.
      exists w'. rewrite Hrun. split; [done|]. split; [done|].
      subst ran. cbn beta. exists evs. by rewrite Htr; cbn [trace]; rewrite <-?app_assoc.
    + by rewrite <-app_assoc.
Qed.

(** C3.  A schema unit with a non-empty statement list is skipped exactly
    when the [SHOW TABLES IN SCHEMA] query is answered (the schema exists)
    with as many tables as the unit has statements.  When the schema exists
    with another number of tables, in particular fewer, the unit is not
    skipped: every table statement is handed to the warehouse after the
    query, on the unit's connection, and the outcome is SUCCESS. *)
Theorem schema_unit_skipped_iff_all_tables_exist (schema : string) (sqls : list string)
    (conn : Conn) (w : World W) :
  sqls ≠ [] →
  let probe := "SHOW TABLES IN SCHEMA " +:+ schema in
  let run := create_tables._check_schema_and_execute schema sqls conn w in
  (run.1 = Ok create_tables.SKIP ↔
     ∃ rs, (sf_execute (wh w) conn probe).2 = Rows rs ∧ length rs = length sqls) ∧
  (∀ rs, (sf_execute (wh w) conn probe).2 = Rows rs → length rs ≠ length sqls →
     run.1 = Ok create_tables.SUCCESS ∧
     ∃ evs, trace run.2 = trace w ++ mkEvent (task w) conn probe true :: evs ∧
            map ev_sql evs ≡ₚ sqls ∧
            Forall (λ e, ev_conn e = conn) evs).
Proof.
  intros Hsqls probe run.
  pose proof (check_schema_and_execute_cases schema sqls conn w Hsqls) as Hcases.
  cbn zeta in Hcases. fold probe in Hcases. subst run.
  destruct (sf_execute (wh w) conn probe) as [wh1 [rs|msg1]]; cbn [snd].
  - case_decide as Hn.
    + rewrite Hcases. split; [split; eauto|].
      intros rs' [= <-] Hne. done.
    + destruct Hcases as (w' & -> & _ & evs & Htr & Hp & Hf). cbn [fst snd]. split.
      * split; [done|]. by intros (rs' & [= <-] & ?).
      * intros rs' [= <-] _. split; [done|]. exists evs. split; [done|]. split; [done|].
        eapply Forall_impl; [exact Hf|]. by intros e [? _].
  - split; [|by intros rs' [=]].
    split; [|by intros (rs' & [=] & _)].
    destruct (sf_execute wh1 conn _) as [wh2 [rs|msg2]].
    + by destruct Hcases as (w' & -> & _).
    + by rewrite Hcases.
Qed.

End SchemaUnit.

(** *** create_tables: a refused table statement *)

Section RefusedTable.
Import Scenario.

Lemma carried_out_count (evs : list Event) (s : Script) :
  Forall (answered (WH := scripted s)) evs →
  length (filter (λ e, ev_ok e = true) evs) =
  length (filter (λ sql, sql ∉ failing s) (map ev_sql evs)).
Proof.
  induction 1 as [|e evs [[] He] _ IH]; [done|]. cbn [map].
  assert (ev_ok e = true ↔ ev_sql e ∉ failing s) as Hiff.
  { rewrite He. simpl. case_bool_decide; naive_solver. }
  destruct (decide (ev_ok e = true)) as [Hok|Hok].
  - rewrite !filter_cons_True by tauto. simpl. by rewrite IH.
  - rewrite !filter_cons_False by tauto. done.
Qed.

(** C1 (what the code does).  One schema unit with three table statements,
    of which the warehouse carries out the first two and refuses the third.
    Whatever the scheduler does, all three statements are handed to the
    warehouse, two of them are carried out, and the outcome of the unit is
    SUCCESS, not ERROR: nothing is logged about the refused statement. *)
Theorem refused_table_statement_reported_as_success (ps : list nat) :
  let run := create_tables.safe_check_schema_and_execute (WH := scripted third_fails)
               "DB.S" three_tables 0 (start ps) in
  run.1 = Ok create_tables.SUCCESS ∧
  logs run.2 = [] ∧
  ∃ evs, trace run.2 = mkEvent [] 0 "SHOW TABLES IN SCHEMA DB.S" true :: evs ∧
         map ev_sql evs ≡ₚ three_tables ∧
         length (filter (λ e, ev_ok e = true) evs) = 2.
Proof.
  intros run.
  pose proof (check_schema_and_execute_cases (WH := scripted third_fails)
                "DB.S" three_tables 0 (start ps)) as Hcases.
  destruct Hcases as (w' & Hrun & Hlogs & evs & Htr & Hperm & Hevs); [done|].
  subst run. unfold create_tables.safe_check_schema_and_execute, try_except.
  rewrite Hrun. cbn [fst snd]. split; [done|]. split; [done|].
  exists evs. split; [done|]. split; [done|].
  rewrite (carried_out_count evs third_fails).
  - rewrite Hperm. by vm_compute.
  - eapply Forall_impl; [exact Hevs|]. by intros e (_ & _ & ?).
Qed.

End RefusedTable.

(** *** Which statements a computation issues *)

Section Frames.
Context {W : Type} {WH : Warehouse W}.

Lemma steps_refl (Q : Event → Prop) (w : World W) : steps Q w w.
Proof. repeat split. exists []. by rewrite app_nil_r. Qed.

Lemma steps_trans (Q : Event → Prop) (w1 w2 w3 : World W) :
  steps Q w1 w2 → steps Q w2 w3 → steps Q w1 w3.
Proof.
  intros (Ht1 & Hn1 & evs1 & Htr1 & HQ1) (Ht2 & Hn2 & evs2 & Htr2 & HQ2).
  split; [congruence|]. split; [congruence|].
  exists (evs1 ++ evs2). rewrite Htr2, Htr1, <-app_assoc. split; [done|].
  by apply Forall_app.
Qed.

Lemma steps_task (Q : Event → Prop) (w w' : World W) : steps Q w w' → task w' = task w.
Proof. by intros [? _]. Qed.

Lemma runs_ret {A} t Q (a : A) : runs (W := W) t Q (ret a).
Proof. intros w _. apply steps_refl. Qed.

Lemma runs_raise {A} t Q (e : exn) : runs (W := W) (A := A) t Q (raise e).
Proof. intros w _. apply steps_refl. Qed.

Lemma runs_bind {A B} t Q (m : M W A) (k : A → M W B) :
  runs t Q m → (∀ a, runs t Q (k a)) → runs t Q (bind m k).
Proof.
  intros Hm Hk w Ht. specialize (Hm w Ht). unfold bind.
  destruct (m w) as [[a|e] w1]; [|done].
  eapply steps_trans; [exact Hm|]. apply Hk. apply steps_task in Hm. cbn [snd] in Hm. congruence.
Qed.

Lemma runs_try_except {A} t Q (m : M W A) (h : exn → M W A) :
  runs t Q m → (∀ e, runs t Q (h e)) → runs t Q (try_except m h).
Proof.
  intros Hm Hh w Ht. specialize (Hm w Ht). unfold try_except.
  destruct (m w) as [[a|e] w1]; [done|].
  eapply steps_trans; [exact Hm|]. apply Hh. apply steps_task in Hm. cbn [snd] in Hm. congruence.
Qed.

Lemma runs_attempt {A} t Q (m : M W A) : runs t Q m → runs t Q (attempt m).
Proof.
  intros Hm w Ht. specialize (Hm w Ht). unfold attempt. by destruct (m w).
Qed.

Lemma runs_logger t Q lvl msg : runs (W := W) t Q (logger lvl msg).
Proof. intros w _. repeat split. exists []. simpl. by rewrite app_nil_r. Qed.

Lemma runs_next_pick t Q bound : runs (W := W) t Q (next_pick bound).
Proof. intros w _. repeat split. exists []. simpl. by rewrite app_nil_r. Qed.

Lemma runs_cursor_execute t (Q : Event → Prop) (cursor : Cursor) (sql : string) :
  (∀ ok, Q (mkEvent t (cursor_conn cursor) sql ok)) →
  runs t Q (cursor_execute cursor sql).
Proof.
  intros HQ w Ht. rewrite cursor_execute_step.
  destruct (sf_execute _ _ _) as [wh' r]. repeat split. simpl.
  eexists [_]. split; [done|]. constructor; [|done]. rewrite Ht. apply HQ.
Qed.

Lemma runs_in_task {A} t Q (k : string) (m : M W A) :
  runs (k :: t) Q m → runs t Q (in_task k m).
Proof.
  intros Hm w Ht. unfold in_task.
  set (wk := mkWorld _ _ _ (k :: task w) _ _).
  destruct (Hm wk) as (_ & Hn & evs & Htr & HQ); [simpl; by rewrite Ht|].
  destruct (m wk) as [r w1]. simpl in *. repeat split; eauto.
Qed.

Lemma runs_pool_go {A} t Q (n width : nat) (pending : list (string * M W A)) :
  Forall (λ kt, runs (kt.1 :: t) Q kt.2) pending →
  runs t Q (pool_go n width pending).
Proof.
  revert pending. induction n as [|n IH]; intros pending Hall; [apply runs_ret|].
  cbn [pool_go]. apply runs_bind; [apply runs_next_pick|]. intros i.
  destruct (pending !! i) as [[k task]|] eqn:Hi; [|apply runs_ret].
  apply runs_bind.
  - apply runs_in_task, runs_attempt.
    by apply (Forall_lookup_1 _ _ _ _ Hall Hi).
  - intros r. apply runs_bind; [|intros; apply runs_ret].
    apply IH. rewrite delete_take_drop. apply Forall_app. split.
    + by apply Forall_take.
    + by apply Forall_drop.
Qed.

Lemma runs_run_pool {A} t Q (max_workers : nat) (tasks : list (string * M W A)) :
  Forall (λ kt, runs (kt.1 :: t) Q kt.2) tasks →
  runs t Q (run_pool max_workers tasks).
Proof.
  intros Hall. unfold run_pool. case_decide; [apply runs_raise|]. by apply runs_pool_go.
Qed.

End Frames.

(** *** Units and their connections *)

Section UnitConnections.
Context {W : Type} {WH : Warehouse W} {JS : Json}.

Local Ltac runs_step :=
  first [ apply runs_ret | apply runs_raise | apply runs_logger
        | apply runs_cursor_execute; intros; simpl; done
        | apply runs_bind; [|intros ?] | apply runs_try_except; [|intros ?] ].

(** A schema unit issues all its statements on the connection it is given. *)
Lemma execute_sqls_runs t (sqls : list string) (conn : Conn) :
  runs t (λ e, ev_conn e = conn) (create_tables.execute_sqls sqls conn).
Proof.
  unfold create_tables.execute_sqls. apply runs_bind; [|intros; apply runs_ret].
  apply runs_run_pool. apply Forall_fmap, Forall_forall. intros sql _. simpl.
  unfold create_tables.execute_sql. repeat runs_step.
Qed.

Lemma safe_check_schema_and_execute_runs t (schema : string) (sqls : list string) (conn : Conn) :
  runs t (λ e, ev_conn e = conn)
       (create_tables.safe_check_schema_and_execute schema sqls conn).
Proof.
  unfold create_tables.safe_check_schema_and_execute, create_tables._check_schema_and_execute.
  runs_step; [|repeat runs_step].
  case_decide; [apply runs_ret|].
  runs_step; [repeat runs_step|].
  case_decide; [apply runs_ret|].
  runs_step; [|repeat runs_step].
  runs_step; [apply execute_sqls_runs | apply runs_ret].
Qed.

(** The safe wrapper always produces a status. *)
Lemma safe_check_schema_and_execute_total (schema : string) (sqls : list string) (conn : Conn)
    (w : World W) :
  ∃ status, (create_tables.safe_check_schema_and_execute schema sqls conn w).1 = Ok status.
Proof.
  unfold create_tables.safe_check_schema_and_execute, try_except.
  destruct (create_tables._check_schema_and_execute schema sqls conn w) as [[s|e] w']; eauto.
Qed.

(** A database unit, once it has its connection, issues everything on it. *)
Lemma exec_cmds_loop_runs t (sf_conn : Conn) (cmds : list string) :
  runs t (λ e, ev_conn e = sf_conn ∧ ev_task e = t)
       (create_databases.exec_cmds_loop sf_conn cmds).
Proof.
  induction cmds as [|cmd cmds IH]; [apply runs_ret|].
  cbn [create_databases.exec_cmds_loop]. runs_step; [repeat runs_step|].
  destruct a; [apply runs_ret | apply IH].
Qed.

Lemma check_database_exists_runs t (conn : Conn) (db_name : string) :
  runs t (λ e, ev_conn e = conn ∧ ev_task e = t)
       (create_databases.check_database_exists conn db_name).
Proof. unfold create_databases.check_database_exists. repeat runs_step. Qed.

Lemma check_schema_exists_runs t (conn : Conn) (schema_path : string) (config : SnowflakeConfig) :
  runs t (λ e, ev_conn e = conn ∧ ev_task e = t)
       (create_databases.check_schema_exists conn schema_path config).
Proof.
  unfold create_databases.check_schema_exists.
  destruct (PyStr.split "." schema_path) as [|? [|? [|? ?]]]; repeat runs_step.
Qed.

Lemma get_sf_connection_cases (config : SnowflakeConfig) (w : World W) :
  match sf_connect (wh w) with
  | (wh', None) =>
      create_databases.get_sf_connection config w =
        (Ok (next_conn w),
         mkWorld wh' (S (next_conn w)) (picks w) (task w) (trace w) (logs w))
  | (wh', Some msg) =>
      create_databases.get_sf_connection config w =
        (Raise (ConnectError msg),
         mkWorld wh' (next_conn w) (picks w) (task w) (trace w) (logs w))
  end.
Proof.
  unfold create_databases.get_sf_connection, get_snowflake_connection.
  by destruct (sf_connect (wh w)) as [wh' [msg|]].
Qed.

(** A database unit creates at most one connection, a new one, and issues
    every statement on it. *)
Lemma exec_set_of_cmds_connection (cmds : list string) (config : SnowflakeConfig)
    (db_to_check schema_to_check : option string) (w : World W) :
  let w' := (create_databases.exec_set_of_cmds cmds config db_to_check schema_to_check w).2 in
  task w' = task w ∧
  ∃ evs, trace w' = trace w ++ evs ∧
         Forall (λ e, ev_conn e = next_conn w ∧ ev_task e = task w) evs ∧
         (next_conn w' = S (next_conn w) ∨ next_conn w' = next_conn w ∧ evs = []).
Proof.
  intros w'. subst w'. unfold create_databases.exec_set_of_cmds.
  pose proof (get_sf_connection_cases config w) as Hconn.
  destruct (sf_connect (wh w)) as [wh' [msg|]].
  { rewrite (bind_raise _ _ _ _ _ Hconn). simpl.
    split; [done|]. exists []. rewrite app_nil_r. eauto. }
  rewrite (bind_ok _ _ _ _ _ Hconn).
  match goal with |- context [bind ?m ?k ?w1] =>
    assert (Hruns : runs (task w) (λ e, ev_conn e = next_conn w ∧ ev_task e = task w) (bind m k));
    [|destruct (Hruns w1 eq_refl) as (Ht & Hn & evs & Htr & HQ)]
  end.
  { runs_step.
    - destruct db_to_check; [apply check_database_exists_runs | apply runs_ret].
    - destruct a; [apply runs_ret|]. runs_step.
      + destruct schema_to_check; [apply check_schema_exists_runs | apply runs_ret].
      + destruct a; [apply runs_ret | apply exec_cmds_loop_runs]. }
  simpl in *. split; [done|]. exists evs. eauto.
Qed.

End UnitConnections.

(** *** Python dicts *)

Section Dicts.
Context {V : Type}.

Lemma dict_set_keys (k : string) (v : V) (d : list (string * V)) :
  (dict_set k v d).*1 = if decide (k ∈ d.*1) then d.*1 else d.*1 ++ [k].
Proof.
  induction d as [|[k' v'] d IH]; [done|]. cbn [dict_set fmap list_fmap fst].
  destruct (decide (k = k')) as [->|Hne].
  - cbn. rewrite decide_True by left. done.
  - cbn. fold (fmap (M := list) (@fst string V)). rewrite IH.
    destruct (decide (k ∈ d.*1)) as [Hin|Hnin].
    + rewrite decide_True by (by right). done.
    + rewrite decide_False; [done|]. by intros [?|?]%elem_of_cons.
Qed.

Lemma dict_set_NoDup (k : string) (v : V) (d : list (string * V)) :
  NoDup d.*1 → NoDup (dict_set k v d).*1.
Proof.
  intros Hd. rewrite dict_set_keys. case_decide; [done|].
  apply NoDup_app. split; [done|]. split; [|apply NoDup_singleton].
  intros x Hx ->%list_elem_of_singleton. done.
Qed.

End Dicts.

Section Collect.

(** [main] submits one unit per target database, each under its own name. *)
Lemma collect_dbs_setup_commands_NoDup (rows : list MappingRow) (config : SnowflakeConfig) :
  NoDup (create_databases.collect_dbs_setup_commands rows config).*1.
Proof.
  unfold create_databases.collect_dbs_setup_commands.
  assert (Hgen : ∀ acc : list (string * list string), NoDup acc.*1 →
    NoDup (foldl (λ d json_data,
             let db_name := target_database_name json_data in
             if dict_mem db_name d then d
             else dict_set db_name (create_databases.setup_dbs_cmds json_data config) d)
           acc rows).*1).
  { induction rows as [|row rows IH]; intros acc Hacc; [done|].
    cbn [foldl]. apply IH. cbn zeta. destruct (dict_mem _ _); [done|].
    by apply dict_set_NoDup. }
  apply Hgen. constructor.
Qed.

Lemma collect_dbs_setup_commands_keys (rows : list MappingRow) (config : SnowflakeConfig) :
  list_to_set (C := gset string) (create_databases.collect_dbs_setup_commands rows config).*1 =
  list_to_set (target_database_name <$> rows).
Proof.
  unfold create_databases.collect_dbs_setup_commands.
  assert (Hgen : ∀ acc : list (string * list string),
    list_to_set (C := gset string)
      (foldl (λ d json_data,
             let db_name := target_database_name json_data in
             if dict_mem db_name d then d
             else dict_set db_name (create_databases.setup_dbs_cmds json_data config) d)
           acc rows).*1 =
    list_to_set acc.*1 ∪ list_to_set (target_database_name <$> rows)).
  { induction rows as [|row rows IH]; intros acc.
    - apply set_eq. intros x. rewrite elem_of_union, !elem_of_list_to_set.
      split; [by left|]. by intros [?|?%elem_of_nil].
    - cbn [foldl]. rewrite IH. cbn zeta. unfold dict_mem.
      apply set_eq. intros x. rewrite fmap_cons.
      rewrite !elem_of_union, !elem_of_list_to_set, elem_of_cons.
      case_bool_decide as Hin.
      + split; [tauto|]. intros [?|[->|?]]; tauto.
      + rewrite dict_set_keys, decide_False by done.
        rewrite elem_of_app, list_elem_of_singleton. tauto. }
  rewrite Hgen. apply set_eq. intros x. rewrite elem_of_union, !elem_of_list_to_set.
  split; [by intros [?%elem_of_nil|?]|by right].
Qed.

End Collect.

(** *** The outcome aggregators *)

Section Aggregators.
Context {W : Type} {WH : Warehouse W} {JS : Json}.

(** The loop over the completed futures of create_databases.main: it never
    raises and issues no statement; every future leaves an entry under its
    database, ERROR if the future holds an exception. *)
Lemma record_statuses_spec (completed : list (string * res string))
    (statuses : gmap string string) (w : World W) :
  ∃ statuses' w',
    create_databases.record_statuses completed statuses w = (Ok statuses', w') ∧
    trace w' = trace w ∧
    dom statuses' = dom statuses ∪ list_to_set completed.*1 ∧
    (NoDup completed.*1 →
     ∀ db future, (db, future) ∈ completed → statuses' !! db = Some (recorded future)).
Proof.
  revert statuses w. induction completed as [|[db future] completed IH]; intros statuses w.
  - exists statuses, w. repeat split.
    + apply set_eq. intros x. rewrite elem_of_union, elem_of_list_to_set.
      split; [by left|]. by intros [?|?%elem_of_nil].
    + by intros _ ?? ?%elem_of_nil.
  - cbn [create_databases.record_statuses].
    assert (Hnext : ∃ w1, trace w1 = trace w ∧
      create_databases.record_statuses ((db, future) :: completed) statuses w =
      create_databases.record_statuses completed (<[db := recorded future]> statuses) w1).
    { destruct future as [status|e]; [by exists w|].
      eexists. split; [|reflexivity]. done. }
    destruct Hnext as (w1 & Htr1 & Hnext). cbn [create_databases.record_statuses] in Hnext.
    rewrite Hnext.
    destruct (IH (<[db := recorded future]> statuses) w1) as (m & w' & Hrun & Htr & Hdom & Hlook).
    exists m, w'. split; [done|]. split; [congruence|]. split.
    + rewrite Hdom, dom_insert_L. apply set_eq. intros x. rewrite fmap_cons.
      rewrite !elem_of_union, !elem_of_list_to_set, elem_of_cons, elem_of_singleton.
      cbn. tauto.
    + intros Hnd db' future' Hin. cbn in Hnd. apply NoDup_cons in Hnd as [Hfresh Hnd].
      apply elem_of_cons in Hin as [[= -> ->]|Hin]; [|by apply Hlook].
      assert (m !! db = (<[db := recorded future]> statuses) !! db) as ->;
        [|by rewrite lookup_insert_eq].
      clear -Hrun Hfresh. revert Hrun Hfresh.
      generalize (<[db:=recorded future]> statuses). revert w1 m w'.
      induction completed as [|[db2 f2] completed IH2]; intros w1 m w' m0 Hrun Hfresh.
      * by injection Hrun as <- _.
      * cbn in Hfresh. apply not_elem_of_cons in Hfresh as [Hne Hfresh].
        cbn [create_databases.record_statuses] in Hrun. destruct f2 as [s2|e2].
        -- rewrite (IH2 _ _ _ _ Hrun Hfresh). by rewrite lookup_insert_ne.
        -- unfold bind, logger in Hrun. cbn in Hrun.
           rewrite (IH2 _ _ _ _ Hrun Hfresh). by rewrite lookup_insert_ne.
Qed.

Lemma tally_insert (statuses : gmap create_tables.Status nat) (s s' : create_tables.Status) :
  tally (<[s := default 0 (statuses !! s) + 1]> statuses) s' =
  tally statuses s' + (if bool_decide (s = s') then 1 else 0).
Proof.
  unfold tally. case_bool_decide as Hs.
  - subst. by rewrite lookup_insert_eq.
  - rewrite lookup_insert_ne by done. lia.
Qed.

Lemma holds_Ok (s s0 : create_tables.Status) : holds s (Ok s0) ↔ s0 = s.
Proof. simpl. by rewrite bool_decide_spec. Qed.

(** The loop over the completed futures of create_tables.main, when every
    future holds a status: one more under that status for every future. *)
Lemma count_statuses_spec (completed : list (string * res create_tables.Status))
    (statuses : gmap create_tables.Status nat) (w : World W) :
  Forall (λ c, ∃ s, c.2 = Ok s) completed →
  ∃ statuses',
    create_tables.count_statuses completed statuses w = (Ok statuses', w) ∧
    ∀ s, tally statuses' s = tally statuses s + futures_with s completed.
Proof.
  intros Hall. revert statuses.
  induction Hall as [|[k future] completed [s0 Hs0] _ IH]; intros statuses.
  - exists statuses. split; [done|]. intros s. unfold futures_with. simpl. lia.
  - cbn in Hs0. subst future. cbn [create_tables.count_statuses].
    destruct (IH (<[s0 := default 0 (statuses !! s0) + 1]> statuses)) as (m & Hrun & Hm).
    exists m. split; [done|]. intros s. rewrite Hm, tally_insert.
    unfold futures_with. cbn [holds snd]. destruct (decide (s0 = s)) as [->|Hne].
    + rewrite bool_decide_eq_true_2 by done.
      rewrite filter_cons_True by (cbn [snd]; by apply holds_Ok). simpl. lia.
    + rewrite bool_decide_eq_false_2 by done.
      rewrite filter_cons_False by (cbn [snd]; by rewrite holds_Ok). simpl. lia.
Qed.

Lemma futures_with_total (completed : list (string * res create_tables.Status)) :
  Forall (λ c, ∃ s, c.2 = Ok s) completed →
  futures_with create_tables.SKIP completed + futures_with create_tables.SUCCESS completed +
  futures_with create_tables.ERROR completed = length completed.
Proof.
  unfold futures_with. induction 1 as [|[k future] completed [s0 Hs0] _ IH]; [done|].
  cbn in Hs0. subst future.
  destruct s0.
  - rewrite (filter_cons_True (λ c, holds create_tables.SKIP c.2)) by done.
    rewrite !filter_cons_False by (cbn [snd]; by rewrite holds_Ok).
    simpl. lia.
  - rewrite (filter_cons_True (λ c, holds create_tables.SUCCESS c.2)) by done.
    rewrite !filter_cons_False by (cbn [snd]; by rewrite holds_Ok).
    simpl. lia.
  - rewrite (filter_cons_True (λ c, holds create_tables.ERROR c.2)) by done.
    rewrite !filter_cons_False by (cbn [snd]; by rewrite holds_Ok).
    simpl. lia.
Qed.

End Aggregators.

(** *** Every unit is accounted for *)

Section Accounting.
Context {W : Type} {WH : Warehouse W} {JS : Json}.

Lemma database_tasks_keys (dbs : list (string * list string)) (config : SnowflakeConfig) :
  (create_databases.database_tasks (W := W) dbs config).*1 = dbs.*1.
Proof. induction dbs as [|[db cmds] dbs IH]; [done|]. cbn. by f_equal. Qed.

Lemma schema_tasks_keys (units : list (string * list string)) (conn : Conn) :
  (create_tables.schema_tasks (W := W) units conn).*1 = units.*1.
Proof. induction units as [|[schema sqls] units IH]; [done|]. cbn. by f_equal. Qed.

Lemma in_task_attempt_result {A} (k : string) (m : M W A) (w w1 : World W) (r : res A) :
  in_task k (attempt m) w = (Ok r, w1) →
  ∃ wk, task wk = k :: task w ∧ next_conn wk = next_conn w ∧ trace wk = trace w ∧
        r = (m wk).1 ∧
        task w1 = task w ∧ next_conn w1 = next_conn (m wk).2 ∧ trace w1 = trace (m wk).2.
Proof.
  unfold in_task, attempt. set (wk := mkWorld _ _ _ (k :: task w) _ _).
  destruct (m wk) as [r' w'] eqn:Hm. intros [= <- <-]. exists wk. rewrite Hm. by repeat split.
Qed.

(** C6 (as the code has it).  In flat mode the pool completes every submitted
    database unit, in some order, and [db_create_statuses] ends up with
    exactly one entry per submitted database, whatever that order: the status
    the worker returned, or ERROR when the worker raised.  In nested mode
    there is no mapping by unit: [statuses] holds one count per status, every
    submitted schema unit adds one to the count of its status (ERROR when
    processing it raised), and the counts add up to the number of units. *)
Theorem every_unit_is_accounted_for (rows : list MappingRow) (config : SnowflakeConfig)
    (conn : Conn) (w v : World W) :
  let dbs := create_databases.collect_dbs_setup_commands rows config in
  let units := create_tables.collect_schema_to_table_sqls rows in
  (∃ completed w1 statuses w',
     run_pool 8 (create_databases.database_tasks dbs config) w = (Ok completed, w1) ∧
     create_databases.create_all dbs config w = (Ok statuses, w') ∧
     completed.*1 ≡ₚ dbs.*1 ∧ NoDup dbs.*1 ∧
     dom statuses = list_to_set dbs.*1 ∧ size statuses = length dbs ∧
     dom statuses = list_to_set (target_database_name <$> rows) ∧
     ∀ db future, (db, future) ∈ completed → statuses !! db = Some (recorded future)) ∧
  (∃ completed v1 statuses v',
     run_pool create_tables.MAX_SCHEMA_THREADS (create_tables.schema_tasks units conn) v =
       (Ok completed, v1) ∧
     create_tables.process_all units conn v = (Ok statuses, v') ∧
     completed.*1 ≡ₚ units.*1 ∧
     (∀ s, tally statuses s = futures_with s completed) ∧
     tally statuses create_tables.SKIP + tally statuses create_tables.SUCCESS +
     tally statuses create_tables.ERROR = length units).
Proof.
  intros dbs units. split.
  - destruct (run_pool_spec (λ _ _ _, True) 8 (create_databases.database_tasks dbs config) w)
      as (completed & w1 & Hrun & Hperm & _); [lia|done|done|].
    rewrite database_tasks_keys in Hperm.
    destruct (record_statuses_spec completed ∅ w1) as (statuses & w' & Hrec & _ & Hdom & Hlook).
    pose proof (collect_dbs_setup_commands_NoDup rows config) as Hnd. fold dbs in Hnd.
    exists completed, w1, statuses, w'. split; [done|]. split.
    { unfold create_databases.create_all. by rewrite (bind_ok _ _ _ _ _ Hrun). }
    split; [done|]. split; [done|].
    assert (dom statuses = list_to_set dbs.*1) as Hdom'.
    { rewrite Hdom, dom_empty_L, (left_id_L ∅ (∪)). by apply list_to_set_perm_L. }
    split; [done|]. split; [|split].
    + rewrite <-size_dom, Hdom', size_list_to_set by done. by rewrite length_fmap.
    + rewrite Hdom'. apply collect_dbs_setup_commands_keys.
    + apply Hlook. by rewrite Hperm.
  - destruct (run_pool_spec (λ cs _ _, Forall (λ c, ∃ s, c.2 = Ok s) cs)
                create_tables.MAX_SCHEMA_THREADS (create_tables.schema_tasks units conn) v)
      as (completed & v1 & Hrun & Hperm & Hall).
    + unfold create_tables.MAX_SCHEMA_THREADS. lia.
    + done.
    + intros k t b u r u1 u2 cs Hin Hstep Hcs. constructor; [|done]. cbn.
      unfold create_tables.schema_tasks in Hin.
      apply list_elem_of_fmap in Hin as ([schema sqls] & [= -> ->] & _).
      apply in_task_attempt_result in Hstep as (wk & _ & _ & _ & -> & _).
      apply safe_check_schema_and_execute_total.
    + rewrite schema_tasks_keys in Hperm.
      destruct (count_statuses_spec completed ∅ v1 Hall) as (statuses & Hcount & Htally).
      exists completed, v1, statuses, v1. split; [done|]. split.
      { unfold create_tables.process_all. by rewrite (bind_ok _ _ _ _ _ Hrun). }
      split; [done|].
      assert (∀ s, tally statuses s = futures_with s completed) as Htally'.
      { intros s. rewrite Htally. unfold tally. by rewrite lookup_empty. }
      split; [done|]. rewrite !Htally', futures_with_total by done.
      rewrite <-(length_fmap fst completed), Hperm. by rewrite length_fmap.
Qed.

End Accounting.

(** *** An existence query that raises *)

Section ExistenceQuery.
Context {W : Type} {WH : Warehouse W} {JS : Json}.







End ExistenceQuery.

Section ExistenceQueryExample.
Import Scenario.


End ExistenceQueryExample.

(** *** Connections of concurrent units *)

Section Connections.
Context {W : Type} {WH : Warehouse W} {JS : Json}.

Lemma record_statuses_runs t Q (completed : list (string * res string))
    (statuses : gmap string string) :
  runs (W := W) t Q (create_databases.record_statuses completed statuses).
Proof.
  revert statuses. induction completed as [|[db [status|e]] completed IH]; intros statuses.
  - apply runs_ret.
  - apply IH.
  - cbn [create_databases.record_statuses]. apply runs_bind; [apply runs_logger|].
    intros _. apply IH.
Qed.

Lemma count_statuses_runs t Q (completed : list (string * res create_tables.Status))
    (statuses : gmap create_tables.Status nat) :
  runs (W := W) t Q (create_tables.count_statuses completed statuses).
Proof.
  revert statuses. induction completed as [|[k [status|e]] completed IH]; intros statuses.
  - apply runs_ret.
  - apply IH.
  - apply runs_raise.
Qed.

(** Flat mode, the pool: the statements of a unit are issued on a connection
    created for that unit. *)
Lemma database_pool_connections (dbs : list (string * list string)) (config : SnowflakeConfig)
    (w : World W) :
  ∃ completed w',
    run_pool 8 (create_databases.database_tasks dbs config) w = (Ok completed, w') ∧
    task w' = task w ∧ next_conn w ≤ next_conn w' ∧
    ∃ evs, trace w' = trace w ++ evs ∧
      Forall (λ e, next_conn w ≤ ev_conn e < next_conn w' ∧
                   ∃ db, db ∈ dbs.*1 ∧ ev_task e = db :: task w) evs ∧
      ∀ e1 e2, e1 ∈ evs → e2 ∈ evs → ev_conn e1 = ev_conn e2 → ev_task e1 = ev_task e2.
Proof.
  destruct (run_pool_spec
    (λ (_ : list (string * res string)) u u',
       task u' = task u ∧ next_conn u ≤ next_conn u' ∧
       ∃ evs, trace u' = trace u ++ evs ∧
         Forall (λ e, next_conn u ≤ ev_conn e < next_conn u' ∧
                      ∃ db, db ∈ dbs.*1 ∧ ev_task e = db :: task u) evs ∧
         ∀ e1 e2, e1 ∈ evs → e2 ∈ evs → ev_conn e1 = ev_conn e2 → ev_task e1 = ev_task e2)
    8 (create_databases.database_tasks dbs config) w)
    as (completed & w' & Hrun & _ & HP); [lia| | |by eauto].
  - intros u. split; [done|]. split; [done|]. exists []. rewrite app_nil_r.
    split; [done|]. split; [done|]. by intros ?? ?%elem_of_nil.
  - intros k t b u r u1 u2 cs Hin Hstep (Ht2 & Hn2 & evs2 & Htr2 & Hall2 & Hinj2).
    assert (k ∈ dbs.*1) as Hk.
    { rewrite <-(database_tasks_keys dbs config). apply list_elem_of_fmap. by exists (k, t). }
    unfold create_databases.database_tasks in Hin.
    apply list_elem_of_fmap in Hin as ([db cmds] & [= -> ->] & _).
    apply in_task_attempt_result in Hstep as (wk & Htk & Hnk & Htrk & _ & Ht1 & Hn1 & Htr1).
    cbn [next_pick snd task next_conn trace] in Htk, Hnk, Htrk, Ht1.
    destruct (exec_set_of_cmds_connection cmds config (Some db) None wk)
      as (_ & evs1 & Htrace1 & Hall1 & Hconn1).
    cbn zeta in *. rewrite Htk, Hnk, Htrk in *. rewrite <-Hn1, <-Htr1 in *. clear Hn1 Htr1 wk Htk Hnk Htrk.
    split; [congruence|]. split; [destruct Hconn1 as [?|[? _]]; lia|].
    exists (evs1 ++ evs2). split; [by rewrite Htr2, Htrace1, <-app_assoc|].
    assert (Hleft : ∀ e, e ∈ evs1 → ev_conn e = next_conn u ∧ ev_task e = db :: task u ∧
                                   next_conn u1 = S (next_conn u)).
    { intros e He. destruct (proj1 (Forall_forall _ _) Hall1 e He) as [? ?].
      repeat split; try done. destruct Hconn1 as [?|[_ ->]]; [done|by apply elem_of_nil in He]. }
    assert (Hright : ∀ e, e ∈ evs2 → next_conn u1 ≤ ev_conn e < next_conn u2 ∧
                                    ∃ db', db' ∈ dbs.*1 ∧ ev_task e = db' :: task u).
    { intros e He. destruct (proj1 (Forall_forall _ _) Hall2 e He) as [? (db' & ? & ?)].
      split; [done|]. exists db'. split; [done|]. congruence. }
    split.
    + apply Forall_app. split; apply Forall_forall; intros e He.
      * destruct (Hleft e He) as (? & ? & ?). split; [lia|]. by exists db.
      * destruct (Hright e He) as [? ?]. split; [destruct Hconn1 as [?|[? _]]; lia|done].
    + intros e1 e2 [He1|He1]%elem_of_app [He2|He2]%elem_of_app Heq.
      * destruct (Hleft e1 He1) as (_ & -> & _). by destruct (Hleft e2 He2) as (_ & -> & _).
      * destruct (Hleft e1 He1) as (? & _ & ?). destruct (Hright e2 He2) as [? _]. lia.
      * destruct (Hleft e2 He2) as (? & _ & ?). destruct (Hright e1 He1) as [? _]. lia.
      * by apply Hinj2.
Qed.

(** C7 (as the code has it).  Flat mode: every statement issued while the
    database units run is issued by one of the units, on a connection that
    was created during the run, and statements of two different units are
    never issued on the same connection.  Nested mode:
    every statement of every schema unit, table statements included, is
    issued on the one connection that [main] created before it started the
    pool. *)
Theorem connections_of_units (rows : list MappingRow) (file : list string)
    (config : SnowflakeConfig) (w v : World W) :
  let dbs := create_databases.collect_dbs_setup_commands rows config in
  (∃ evs, trace (create_databases.create_all dbs config w).2 = trace w ++ evs ∧
     Forall (λ e, next_conn w ≤ ev_conn e ∧
                  ∃ db, db ∈ dbs.*1 ∧ ev_task e = db :: task w) evs ∧
     ∀ e1 e2, e1 ∈ evs → e2 ∈ evs →
       ev_task e1 ≠ ev_task e2 → ev_conn e1 ≠ ev_conn e2) ∧
  (∃ evs, trace (create_tables.main file config v).2 = trace v ++ evs ∧
     Forall (λ e, ev_conn e = next_conn v) evs).
Proof.
  intros dbs. split.
  - destruct (database_pool_connections dbs config w)
      as (completed & w1 & Hrun & Ht & _ & evs & Htr & Hall & Hinj).
    unfold create_databases.create_all. rewrite (bind_ok _ _ _ _ _ Hrun).
    destruct (record_statuses_runs (task w1) (λ _, False) completed ∅ w1 eq_refl)
      as (_ & _ & evs' & Htr' & Hnone).
    destruct evs' as [|e evs']; [|by apply Forall_cons in Hnone as [[] _]].
    rewrite app_nil_r in Htr'. exists evs. rewrite Htr', Htr. split; [done|]. split.
    + eapply Forall_impl; [exact Hall|]. by intros e [[? _] ?].
    + intros e1 e2 He1 He2 Hne Heq. by apply Hne, Hinj.
  - unfold create_tables.main.
    pose proof (get_sf_connection_cases config v) as Hc.
    unfold create_databases.get_sf_connection in Hc.
    unfold create_tables.get_sf_connection.
    destruct (sf_connect (wh v)) as [wh' [msg|]].
    { rewrite (bind_raise _ _ _ _ _ Hc). exists []. by rewrite app_nil_r. }
    rewrite (bind_ok _ _ _ _ _ Hc).
    destruct (create_tables.get_json_setup file) as [json_data|e].
    + set (v1 := mkWorld _ _ _ _ _ _).
      assert (Hruns : runs (task v1) (λ e, ev_conn e = next_conn v)
                (create_tables.process_all
                   (create_tables.collect_schema_to_table_sqls json_data) (next_conn v))).
      { unfold create_tables.process_all. apply runs_bind.
        - apply runs_run_pool. unfold create_tables.schema_tasks.
          apply Forall_fmap, Forall_forall. intros [schema sqls] _. cbn.
          apply safe_check_schema_and_execute_runs.
        - intros completed. apply count_statuses_runs. }
      destruct (Hruns v1 eq_refl) as (_ & _ & evs & Htr & Hall). by exists evs.
    + exists []. by rewrite app_nil_r.
Qed.

End Connections.

Section ConnectionsExample.
Import Scenario.

(** C7 fails in nested mode: the schema units FOO.PUBLIC and BAR.PUBLIC of
    one run both issue their statements on connection 0. *)
Lemma schema_units_share_one_connection :
  let run := create_tables.main (WH := scripted obliging) (JS := line_is_database)
               ["FOO"; "BAR"] cfg (start []) in
  let e1 := mkEvent ["FOO.PUBLIC"] 0 "SHOW TABLES IN SCHEMA FOO.PUBLIC" true in
  let e2 := mkEvent ["BAR.PUBLIC"] 0 "SHOW TABLES IN SCHEMA BAR.PUBLIC" true in
  e1 ∈ trace run.2 ∧ e2 ∈ trace run.2 ∧
  ev_task e1 ≠ ev_task e2 ∧ ev_conn e1 = ev_conn e2.
Proof.
  vm_compute. split; [|split; [|split]].
  - apply list_elem_of_here.
  - do 2 apply list_elem_of_further. apply list_elem_of_here.
  - discriminate.
  - reflexivity.
Qed.

End ConnectionsExample.

(** *** database_mapping: schema names that do not unpack *)

Section StaleSplit.
Context {W : Type} {WH : Warehouse W}.

Lemma locals_after_snoc locals (schema_names : list string) (schema_name : string) :
  locals_after locals (schema_names ++ [schema_name]) =
  from_option Some (locals_after locals schema_names) (splits schema_name).
Proof. unfold locals_after. by rewrite foldl_app. Qed.


Lemma locals_after_Some p (schema_names : list string) :
  is_Some (locals_after (Some p) schema_names).
Proof.
  revert p. induction schema_names as [|n ns IH]; intros p; [by eexists|].
  cbn. destruct (splits n); apply IH.
Qed.

(** The assignment [new_database_name, real_schema_name = ...] under its
    [try]: either both locals are assigned, or the ValueError is logged as a
    warning and the locals are left as they were. *)
Lemma unpack_step (schema_name : string) (locals : option (string * string)) (w : World W) :
  try_except_ValueError
    (bind (database_mapping.unpack2 (PyStr.split DELIMITER schema_name)) (λ p, ret (Some p)))
    (λ e, bind (logger L_WARNING (exn_str e)) (λ _, ret locals)) w =
  match splits schema_name with
  | Some p => (Ok (Some p), w)
  | None =>
      (Ok locals,
       mkWorld (wh w) (next_conn w) (picks w) (task w) (trace w)
               (logs w ++ [(L_WARNING, unpack_message (PyStr.split DELIMITER schema_name))]))
  end.
Proof.
  unfold splits.
  destruct (PyStr.split DELIMITER schema_name) as [|a [|b [|c parts]]]; try done.
Qed.


Lemma unpack_warnings_cons (schema_name : string) (schema_names : list string) :
  unpack_warnings (schema_name :: schema_names) =
  match splits schema_name with
  | Some _ => []
  | None => [(L_WARNING, unpack_message (PyStr.split DELIMITER schema_name))]
  end ++ unpack_warnings schema_names.
Proof.
  unfold unpack_warnings. destruct (splits schema_name) eqn:Hn.
  - by rewrite filter_cons_False by (cbn beta; congruence).
  - by rewrite filter_cons_True by (cbn beta; congruence).
Qed.

(** The loop over the names [pre], when the locals are bound as the first
    record is built and the warehouse answers the [SHOW TABLES] queries of
    [pre], one after the other from the state it is in: one record per name,
    one warning per name that does not unpack, and the loop goes on with the
    names that follow. *)
Lemma mapping_loop_prefix (connection : Conn) (source_database : string)
    (pre rest : list string) (locals : option (string * string)) (jsons : list MappingRow)
    (w : World W) (wh2 : W) :
  pre = [] ∨ is_Some (locals_after locals (take 1 pre)) →
  all_succeed connection (table_queries source_database pre) (wh w) = Some wh2 →
  ∃ out,
    database_mapping.mapping_loop connection source_database (pre ++ rest) locals jsons w =
    database_mapping.mapping_loop connection source_database rest (locals_after locals pre)
      (jsons ++ out)
      (mkWorld wh2 (next_conn w) (picks w) (task w)
         (trace w ++ events (task w) connection true (table_queries source_database pre))
         (logs w ++ unpack_warnings pre)) ∧
    length out = length pre ∧
    ∀ i schema_name, pre !! i = Some schema_name →
      ∃ d s table_names,
        locals_after locals (take (S i) pre) = Some (d, s) ∧
        out !! i = Some (mapping_record source_database schema_name d s table_names).
Proof.
  revert locals jsons w. induction pre as [|n ns IH]; intros locals jsons w Hbound Hok.
  - injection Hok as <-. exists []. cbn. rewrite !app_nil_r. by destruct w.
  - destruct Hbound as [|Hbound]; [done|].
    change (is_Some (from_option Some locals (splits n))) in Hbound.
    cbn [table_queries map all_succeed] in Hok.
    destruct (sf_execute (wh w) connection
                ("SHOW TABLES IN SCHEMA " +:+ source_database +:+ "." +:+ n))
      as [wh' [rs|msg]] eqn:Hq; [|done].
    cbn [app database_mapping.mapping_loop]. unfold bind at 1. rewrite unpack_step.
    set (w1 := match splits n with
               | Some _ => w
               | None => mkWorld (wh w) (next_conn w) (picks w) (task w) (trace w)
                           (logs w ++ [(L_WARNING, unpack_message (PyStr.split DELIMITER n))])
               end).
    assert (Hstep : (match splits n with
                     | Some p => (Ok (Some p), w)
                     | None => (Ok locals, mkWorld (wh w) (next_conn w) (picks w) (task w) (trace w)
                           (logs w ++ [(L_WARNING, unpack_message (PyStr.split DELIMITER n))]))
                     end) = (Ok (from_option Some locals (splits n)), w1)).
    { subst w1. by destruct (splits n). }
    rewrite Hstep. clear Hstep.
    assert (Hw1 : wh w1 = wh w ∧ next_conn w1 = next_conn w ∧ picks w1 = picks w ∧
                  task w1 = task w ∧ trace w1 = trace w ∧
                  logs w1 = logs w ++ match splits n with
                                      | Some _ => []
                                      | None => [(L_WARNING,
                                                  unpack_message (PyStr.split DELIMITER n))]
                                      end).
    { subst w1. destruct (splits n); cbn; by rewrite ?app_nil_r. }
    destruct Hw1 as (Hwh1 & Hn1 & Hp1 & Ht1 & Htr1 & Hl1).
    destruct Hbound as [[d s] Hds]. rewrite Hds.
    unfold bind at 1, utils.get_table_names, bind at 1.
    rewrite <-Hwh1 in Hq.
    rewrite (cursor_execute_rows (conn_cursor connection) _ w1 wh' rs Hq). cbn [ret].
    set (w2 := mkWorld _ _ _ _ _ _).
    set (json := mkMappingRow _ _ _ _ _).
    destruct (IH (Some (d, s)) (jsons ++ [json]) w2) as (out & Hrun & Hlen & Hrec).
    { destruct ns; [by left|right]. apply locals_after_Some. }
    { done. }
    exists (json :: out). split; [|split].
    + rewrite Hrun. f_equal.
      * unfold locals_after. cbn [foldl]. by rewrite Hds.
      * by rewrite <-app_assoc.
      * subst w2. cbn [wh next_conn picks task trace logs cursor_conn conn_cursor].
        rewrite Hn1, Hp1, Ht1, Htr1, Hl1, unpack_warnings_cons. cbn [table_queries map events].
        by rewrite <-!app_assoc.
    + cbn. by rewrite Hlen.
    + intros [|i] schema_name Hi.
      * injection Hi as <-. exists d, s, (map row_name rs). cbn. by rewrite Hds.
      * cbn in Hi. destruct (Hrec i schema_name Hi) as (d' & s' & tbls & Hloc & Hout).
        exists d', s', tbls. split; [|done].
        change (take (S (S i)) (n :: ns)) with (n :: take (S i) ns).
        unfold locals_after in *. cbn [foldl]. by rewrite Hds.
Qed.

(** [main] up to its loop, once it is connected and [SHOW SCHEMAS] has
    answered. *)
Lemma main_reaches_mapping_loop (source_database : string) (config : SnowflakeConfig)
    (w : World W) (wh0 wh1 : W) (rows : list Row) :
  sf_connect (wh w) = (wh0, None) →
  sf_execute wh0 (next_conn w) ("SHOW SCHEMAS IN DATABASE " +:+ source_database) =
    (wh1, Rows rows) →
  database_mapping.main source_database config w =
  bind (database_mapping.mapping_loop (next_conn w) source_database (map row_name rows) None [])
       (λ jsons, ret jsons)
       (mkWorld wh1 (S (next_conn w)) (picks w) (task w)
          (trace w ++ [mkEvent (task w) (next_conn w)
                         ("SHOW SCHEMAS IN DATABASE " +:+ source_database) true])
          (logs w)).
Proof.
  intros Hconn Hschemas. unfold database_mapping.main.
  pose proof (get_sf_connection_cases config w) as Hc. rewrite Hconn in Hc.
  unfold create_databases.get_sf_connection in Hc. unfold database_mapping.get_sf_connection.
  rewrite (bind_ok _ _ _ _ _ Hc).
  set (wa := mkWorld _ _ _ _ _ _).
  assert (Hn : utils.get_schema_names (next_conn w) source_database wa =
               (Ok (map row_name rows),
                mkWorld wh1 (next_conn wa) (picks wa) (task wa)
                  (trace wa ++ [mkEvent (task wa) (next_conn w)
                                  ("SHOW SCHEMAS IN DATABASE " +:+ source_database) true])
                  (logs wa))).
  { unfold utils.get_schema_names.
    by rewrite (bind_ok _ _ _ _ _ (cursor_execute_rows (conn_cursor (next_conn w)) _ wa wh1 rows Hschemas)). }
  by rewrite (bind_ok _ _ _ _ _ Hn).
Qed.



End StaleSplit.

Section StaleSplitExample.
Import Scenario.


End StaleSplitExample.

(** *** merge_databases: names that contain the delimiter *)

Section MergeDatabase.
Context {W : Type} {WH : Warehouse W}.

(** While neither the schema name nor the database name contains the
    delimiter, and the clone statements succeed, the loop goes on. *)
Lemma clone_loop_prefix (connection : Conn) (database_name output_database : string)
    (dry_run : bool) (pre rest : list string) (w : World W) (wh2 : W) :
  Forall (λ schema_name,
            (PyStr.contains DELIMITER schema_name || PyStr.contains DELIMITER database_name) = false)
         pre →
  (if dry_run then Some (wh w)
   else all_succeed connection (map (clone_sql database_name output_database) pre) (wh w)) = Some wh2 →
  merge_databases.clone_loop (conn_cursor connection) database_name output_database dry_run
    (pre ++ rest) w =
  merge_databases.clone_loop (conn_cursor connection) database_name output_database dry_run rest
    (mkWorld wh2 (next_conn w) (picks w) (task w)
       (trace w ++ (if dry_run then []
                    else events (task w) connection true
                           (map (clone_sql database_name output_database) pre)))
       (logs w ++ (if dry_run
                   then map (λ s, (L_DEBUG, clone_sql database_name output_database s)) pre
                   else []))).
Proof.
  intros Hpre. revert w. induction Hpre as [|n pre Hn _ IH]; intros w Hok.
  - destruct dry_run; injection Hok as <-; cbn; rewrite !app_nil_r; by destruct w.
  - cbn [app merge_databases.clone_loop]. rewrite Hn.
    fold (clone_sql database_name output_database n).
    destruct dry_run.
    + injection Hok as <-. unfold bind at 1, logger at 1. cbn [fst snd].
      rewrite IH by done. cbn. by rewrite <-!app_assoc.
    + cbn in Hok.
      destruct (sf_execute (wh w) connection (clone_sql database_name output_database n))
        as [wh' [rs|msg]] eqn:Hq; [|done].
      unfold bind at 1, bind at 1.
      rewrite (cursor_execute_rows (conn_cursor connection) _ w wh' rs Hq). cbn [ret].
      rewrite IH by done. cbn. by rewrite <-!app_assoc.
Qed.

(** C10 (as the code has it).  [merge_database] with the output database
    created and [SHOW SCHEMAS] answered.  Going through the schemas other
    than INFORMATION_SCHEMA in order, it clones the schemas [pre] for which
    neither the schema name nor the database name contains the delimiter, and
    raises ValueError at the first schema for which one of them does: that
    schema and the schemas after it are not cloned.  When the loop meets no
    such schema it returns normally; this includes a database whose name
    contains the delimiter and that has no schema besides
    INFORMATION_SCHEMA. *)
Theorem merge_database_stops_at_delimiter
    (connection : Conn) (database_name output_database : string) (dry_run : bool)
    (w : World W) (wh0 wh1 wh2 : W) (rows : list Row) (pre rest : list string) :
  let create_db_sql := "CREATE DATABASE IF NOT EXISTS " +:+ output_database in
  let show_sql := "SHOW SCHEMAS IN DATABASE " +:+ database_name in
  let clones := map (clone_sql database_name output_database) pre in
  (if dry_run then Some (wh w) else all_succeed connection [create_db_sql] (wh w)) = Some wh0 →
  sf_execute wh0 connection show_sql = (wh1, Rows rows) →
  filter (λ schema_name, schema_name ≠ "INFORMATION_SCHEMA") (map row_name rows) = pre ++ rest →
  Forall (λ schema_name,
            (PyStr.contains DELIMITER schema_name || PyStr.contains DELIMITER database_name) = false)
         pre →
  match rest with
  | [] => True
  | schema_name :: _ =>
      (PyStr.contains DELIMITER schema_name || PyStr.contains DELIMITER database_name) = true
  end →
  (if dry_run then Some wh1 else all_succeed connection clones wh1) = Some wh2 →
  ∃ w',
    merge_databases.merge_database connection database_name output_database dry_run w =
      (match rest with
       | [] => Ok tt
       | _ :: _ => Raise (ValueError ("Database or schema name contains the delimiter '" +:+
                                      DELIMITER +:+ "'."))
       end, w') ∧
    trace w' =
      trace w ++ (if dry_run then [] else [mkEvent (task w) connection create_db_sql true])
              ++ [mkEvent (task w) connection show_sql true]
              ++ (if dry_run then [] else events (task w) connection true clones) ∧
    logs w' =
      logs w ++ (if dry_run
                 then (L_DEBUG, create_db_sql) ::
                      map (λ s, (L_DEBUG, clone_sql database_name output_database s)) pre
                 else []).
Proof.
  intros create_db_sql show_sql clones Hcreate Hshow Hfilter Hpre Hrest Hclones.
  unfold merge_databases.merge_database. fold create_db_sql.
  set (wa := mkWorld wh0 (next_conn w) (picks w) (task w)
               (trace w ++ (if dry_run then []
                            else [mkEvent (task w) connection create_db_sql true]))
               (logs w ++ (if dry_run then [(L_DEBUG, create_db_sql)] else []))).
  assert (Hfirst : (if dry_run then logger L_DEBUG create_db_sql
                    else bind (cursor_execute (conn_cursor connection) create_db_sql)
                              (λ _, ret tt)) w = (Ok tt, wa)).
  { subst wa. destruct dry_run.
    - injection Hcreate as <-. unfold logger. by rewrite app_nil_r.
    - cbn in Hcreate.
      destruct (sf_execute (wh w) connection create_db_sql) as [wh' [rs|msg]] eqn:Hq; [|done].
      injection Hcreate as <-.
      rewrite (bind_ok _ _ _ _ _ (cursor_execute_rows (conn_cursor connection) _ w wh' rs Hq)).
      by rewrite app_nil_r. }
  rewrite (bind_ok _ _ _ _ _ Hfirst).
  set (wb := mkWorld wh1 (next_conn wa) (picks wa) (task wa)
               (trace wa ++ [mkEvent (task wa) connection show_sql true]) (logs wa)).
  assert (Hnames : utils.get_schema_names connection database_name wa =
                   (Ok (map row_name rows), wb)).
  { unfold utils.get_schema_names.
    by rewrite (bind_ok _ _ _ _ _ (cursor_execute_rows (conn_cursor connection) _ wa wh1 rows Hshow)). }
  rewrite (bind_ok _ _ _ _ _ Hnames), Hfilter.
  rewrite (clone_loop_prefix connection database_name output_database dry_run pre rest wb wh2 Hpre)
    by done.
  eexists. split; [|split].
  - destruct rest as [|schema_name rest]; [reflexivity|].
    cbn [merge_databases.clone_loop]. rewrite Hrest. reflexivity.
  - subst wb wa. cbn. destruct dry_run; cbn; by rewrite <-?app_assoc.
  - subst wb wa. cbn. destruct dry_run; cbn; by rewrite <-?app_assoc, ?app_nil_r.
Qed.

End MergeDatabase.

Section MergeDatabaseExample.
Import Scenario.

(** C10 fails for a database that has no schema of its own: the name A__B
    contains the delimiter and [merge_database] returns normally. *)
Lemma delimiter_in_database_name_not_reported :
  let run := merge_databases.merge_database (WH := scripted only_information_schema)
               0 "A__B" "OUT" false (start []) in
  PyStr.contains DELIMITER "A__B" = true ∧
  run.1 = Ok tt ∧
  trace run.2 = [ mkEvent [] 0 "CREATE DATABASE IF NOT EXISTS OUT" true;
                  mkEvent [] 0 "SHOW SCHEMAS IN DATABASE A__B" true ].
Proof. vm_compute. by repeat split. Qed.

End MergeDatabaseExample.

(** *** The theorems at concrete inputs *)

Section Instances.
Import Scenario.

(** Database FOO does not exist; of its nine setup statements the second is
    refused: FAILED after two statements. *)
Lemma exec_set_of_cmds_stops_at_first_failure_witness :
  let cmds := config.get_database_setup_commands cfg "FOO" in
  (sf_execute (Warehouse := scripted second_setup_refused) tt 0
     "CREATE DATABASE IF NOT EXISTS FOO;").2 =
    Fails "SQL compilation error: CREATE DATABASE IF NOT EXISTS FOO;" ∧
  ∃ w', create_databases.exec_set_of_cmds (WH := scripted second_setup_refused)
          cmds cfg (Some "FOO") None (start []) = (Ok "FAILED", w') ∧
        trace w' = [ mkEvent [] 0 "SHOW DATABASES LIKE 'FOO'" true;
                     mkEvent [] 0 "USE ROLE accountadmin;" true;
                     mkEvent [] 0 "CREATE DATABASE IF NOT EXISTS FOO;" false ].
Proof.
  intros cmds. split; [reflexivity|].
  pose (wa := (create_databases.get_sf_connection (WH := scripted second_setup_refused)
                 cfg (start [])).2).
  pose (wb := (create_databases.check_database_exists (WH := scripted second_setup_refused)
                 0 "FOO" wa).2).
  destruct (exec_set_of_cmds_stops_at_first_failure (WH := scripted second_setup_refused)
              cfg (Some "FOO") None (take 1 cmds) (drop 1 cmds) 0 (start []) wa wb wb tt)
    as (w' & Hrun & Htrace).
  - reflexivity.
  - reflexivity.
  - reflexivity.
  - reflexivity.
  - eexists. reflexivity.
  - exists w'. split; [exact Hrun | exact Htrace].
Defined.

(** Schema DB.S exists with one of the three tables: not skipped. *)
Lemma schema_unit_skipped_iff_all_tables_exist_witness :
  let run := create_tables._check_schema_and_execute (WH := scripted one_table_exists)
               "DB.S" three_tables 0 (start []) in
  three_tables ≠ [] ∧
  (run.1 = Ok create_tables.SKIP ↔
     ∃ rs, (sf_execute (Warehouse := scripted one_table_exists) tt 0
              "SHOW TABLES IN SCHEMA DB.S").2 = Rows rs ∧
           length rs = length three_tables) ∧
  run.1 = Ok create_tables.SUCCESS.
Proof.
  intros run.
  assert (Hne : three_tables ≠ []) by discriminate.
  destruct (schema_unit_skipped_iff_all_tables_exist (WH := scripted one_table_exists)
              "DB.S" three_tables 0 (start []) Hne) as [Hiff Hrun].
  split; [exact Hne|]. split; [exact Hiff|].
  destruct (Hrun [mkRow "T1" "TABLE"]) as [Hsuccess _].
  - reflexivity.
  - vm_compute. lia.
  - exact Hsuccess.
Defined.


(** A file of three records, the second for EBI_CHEMBL. *)
Lemma process_jsonl_file_drops_ebi_chembl_witness :
  create_databases.process_jsonl_file (JS := line_is_database) ["FOO"; "EBI_CHEMBL"; "BAR"] =
    Ok [record_of "FOO"; record_of "BAR"].
Proof.
  apply (process_jsonl_file_drops_ebi_chembl (JS := line_is_database)
           ["FOO"; "EBI_CHEMBL"; "BAR"]
           [record_of "FOO"; record_of "EBI_CHEMBL"; record_of "BAR"]).
  repeat constructor.
Defined.


(** The schemas of DB are PUBLIC, A__B and LATER: PUBLIC is cloned, the
    ValueError comes at A__B, LATER is not cloned. *)
Lemma merge_database_stops_at_delimiter_witness :
  ∃ w', merge_databases.merge_database (WH := scripted delimiter_in_schema)
          0 "DB" "OUT" false (start []) =
          (Raise (ValueError "Database or schema name contains the delimiter '__'."), w') ∧
        trace w' = [ mkEvent [] 0 "CREATE DATABASE IF NOT EXISTS OUT" true;
                     mkEvent [] 0 "SHOW SCHEMAS IN DATABASE DB" true;
                     mkEvent [] 0 (clone_sql "DB" "OUT" "PUBLIC") true ].
Proof.
  destruct (merge_database_stops_at_delimiter (WH := scripted delimiter_in_schema)
              0 "DB" "OUT" false (start []) tt tt tt
              [mkRow "INFORMATION_SCHEMA" ""; mkRow "PUBLIC" ""; mkRow "A__B" ""; mkRow "LATER" ""]
              ["PUBLIC"] ["A__B"; "LATER"])
    as (w' & Hrun & Htrace & _).
  - reflexivity.
  - reflexivity.
  - reflexivity.
  - repeat constructor.
  - reflexivity.
  - reflexivity.
  - exists w'. split; [exact Hrun | exact Htrace].
Defined.

(** C6 fails in nested mode: two schema units are submitted and the final
    mapping has the single entry SUCCESS, with count two; no entry is keyed
    by a unit. *)
Lemma nested_statuses_have_no_entry_per_unit :
  let rows := [record_of "FOO"; record_of "BAR"] in
  let units := create_tables.collect_schema_to_table_sqls rows in
  let run := create_tables.process_all (WH := scripted obliging) units 0 (start []) in
  units.*1 = ["FOO.PUBLIC"; "BAR.PUBLIC"] ∧
  ∃ statuses, run.1 = Ok statuses ∧
              size statuses = 1 ∧
              statuses !! create_tables.SUCCESS = Some 2.
Proof. vm_compute. split; [done|]. eexists. split; [reflexivity|]. by vm_compute. Qed.

End Instances.

(** ** Further properties of the scripts *)

(** *** config.py and utils.py: settings from the environment *)

Section Settings.

Lemma truthy_nonempty (o : option string) : utils.truthy o = true ↔ nonempty o.
Proof.
  unfold nonempty. destruct o as [s|]; simpl.
  - case_bool_decide; simpl; split; try done.
    + by intros (? & [= <-] & ?).
    + intros _. by exists s.
  - split; [done|]. by intros (? & ? & _).
Qed.

Lemma truthy_default (o : option string) : utils.truthy o = true → Some (default "" o) = o.
Proof. by destruct o. Qed.

Lemma unresolved_nil (settings : list (string * option string)) :
  unresolved settings = [] ↔ Forall (λ setting, nonempty setting.2) settings.
Proof.
  unfold unresolved. induction settings as [|[name o] settings IH]; [by split|].
  cbn [omap list_omap snd fst]. rewrite Forall_cons, <-IH, <-truthy_nonempty. cbn [snd].
  destruct (utils.truthy o); cbn; [tauto|]. split; [done|]. by intros [? _].
Qed.

(** [from_env], with the list of missing settings computed at once. *)
Lemma from_env_unfold (environ : gmap string string)
    (o_account o_role o_warehouse o_admin_role o_readonly_role : option string) :
  config.from_env environ o_account o_role o_warehouse o_admin_role o_readonly_role =
  match unresolved (resolved_settings environ o_account o_role o_warehouse
                                      o_admin_role o_readonly_role) with
  | [] =>
      Ok (config.cls
            (default "" (utils.py_or o_account (environ !! "SNOWFLAKE_ACCOUNT")))
            (default "" (utils.py_or o_role (environ !! "SNOWFLAKE_ROLE")))
            (default "" (utils.py_or o_warehouse (environ !! "SNOWFLAKE_WAREHOUSE")))
            (default "" (utils.py_or o_admin_role (environ !! "SNOWFLAKE_ADMIN_ROLE")))
            (default "" (utils.py_or o_readonly_role (environ !! "SNOWFLAKE_READONLY_ROLE")))
            (environ !! "DESTINATION_USER"))
  | missing => Raise (ValueError (missing_message missing))
  end.
Proof.
  unfold config.from_env, unresolved, resolved_settings. cbn [omap list_omap fst snd].
  destruct (utils.truthy (utils.py_or o_account _)),
           (utils.truthy (utils.py_or o_role _)),
           (utils.truthy (utils.py_or o_warehouse _)),
           (utils.truthy (utils.py_or o_admin_role _)),
           (utils.truthy (utils.py_or o_readonly_role _)); reflexivity.
Qed.

Lemma from_env_returns_config (environ : gmap string string)
    (o1 o2 o3 o4 o5 : option string) (cfg : config.SnowflakeConfigFull) :
  config.from_env environ o1 o2 o3 o4 o5 = Ok cfg → config.authenticator cfg = "snowflake".
Proof.
  rewrite from_env_unfold. destruct (unresolved _); [|done]. by intros [= <-].
Qed.

(** X1.  [from_env] returns a configuration exactly when each of the five
    required settings resolves to a non-empty string; the configuration then
    holds the resolved values, the user from DESTINATION_USER (or none), and
    the defaults https, 443 and snowflake. *)
Theorem from_env_returns_resolved_settings (environ : gmap string string)
    (o_account o_role o_warehouse o_admin_role o_readonly_role : option string) :
  let settings :=
    resolved_settings environ o_account o_role o_warehouse o_admin_role o_readonly_role in
  let result :=
    config.from_env environ o_account o_role o_warehouse o_admin_role o_readonly_role in
  ((∃ cfg, result = Ok cfg) ↔ Forall (λ setting, nonempty setting.2) settings) ∧
  ∀ cfg, result = Ok cfg →
    settings.*2 = Some <$> [ account (config.base cfg); role (config.base cfg);
                             warehouse (config.base cfg); admin_role (config.base cfg);
                             readonly_role (config.base cfg) ] ∧
    config.user cfg = environ !! "DESTINATION_USER" ∧
    config.protocol cfg = "https" ∧ config.port cfg = 443 ∧
    config.authenticator cfg = "snowflake".
Proof.
  intros settings result. subst result. rewrite from_env_unfold. fold settings.
  rewrite <-unresolved_nil.
  destruct (unresolved settings) as [|name missing] eqn:Hmissing.
  - split; [split; [done | by eexists]|]. intros cfg [= <-].
    apply unresolved_nil in Hmissing. subst settings. unfold resolved_settings in *.
    repeat (apply Forall_cons in Hmissing as [?%truthy_nonempty%truthy_default Hmissing]).
    cbn in *. repeat split. congruence.
  - split; [split; [by intros [? [=]] | done]|]. by intros cfg [=].
Qed.

(** X2.  When a required setting is missing, [from_env] raises a ValueError
    whose message lists the environment-variable names of exactly the
    settings that resolve to nothing or to the empty string, in the order
    account, role, warehouse, admin role, readonly role. *)
Theorem from_env_names_missing_settings (environ : gmap string string)
    (o_account o_role o_warehouse o_admin_role o_readonly_role : option string) :
  let settings :=
    resolved_settings environ o_account o_role o_warehouse o_admin_role o_readonly_role in
  unresolved settings ≠ [] →
  config.from_env environ o_account o_role o_warehouse o_admin_role o_readonly_role =
    Raise (ValueError (missing_message (unresolved settings))) ∧
  ∀ name, name ∈ unresolved settings ↔ ∃ o, (name, o) ∈ settings ∧ ¬ nonempty o.
Proof.
  intros settings Hmissing. rewrite from_env_unfold. fold settings. split.
  - by destruct (unresolved settings).
  - intros name. unfold unresolved. rewrite list_elem_of_omap. split.
    + intros ([n o] & Hin & Hn). cbn in Hn. destruct (utils.truthy o) eqn:Ho; [done|].
      injection Hn as <-. exists o. split; [done|]. rewrite <-truthy_nonempty. congruence.
    + intros (o & Hin & Hno). exists (name, o). split; [done|]. cbn.
      rewrite <-truthy_nonempty in Hno. by destruct (utils.truthy o).
Qed.

(** X3.  An override given as the empty string is ignored: [from_env] then
    reads the environment variable, as if no override had been given. *)
Theorem from_env_ignores_empty_overrides (environ : gmap string string)
    (o_account o_role o_warehouse o_admin_role o_readonly_role : option string) :
  config.from_env environ o_account o_role o_warehouse o_admin_role o_readonly_role =
  config.from_env environ (blank_is_none o_account) (blank_is_none o_role)
    (blank_is_none o_warehouse) (blank_is_none o_admin_role) (blank_is_none o_readonly_role).
Proof.
  assert (Hor : ∀ o x, utils.py_or (blank_is_none o) x = utils.py_or o x).
  { by intros [[|? ?]|] x. }
  unfold config.from_env. by rewrite !Hor.
Qed.

(** X4.  The connection parameters always hold the seven entries protocol,
    port, account, user, authenticator, role and warehouse, taken from the
    configuration.  A password entry is added exactly when the authenticator
    is snowflake and SNOWFLAKE_PASSWORD is set to a non-empty string, and it
    is that string.  For a configuration built by [from_env] the first
    condition always holds. *)
Theorem connection_params_password (self : config.SnowflakeConfigFull)
    (environ : gmap string string) :
  let params := config.get_connection_params self environ in
  params !! "protocol" = Some (config.PStr (config.protocol self)) ∧
  params !! "port" = Some (config.PInt (config.port self)) ∧
  params !! "account" = Some (config.PStr (account (config.base self))) ∧
  params !! "user" = Some (config.opt_param (config.user self)) ∧
  params !! "authenticator" = Some (config.PStr (config.authenticator self)) ∧
  params !! "role" = Some (config.PStr (role (config.base self))) ∧
  params !! "warehouse" = Some (config.PStr (warehouse (config.base self))) ∧
  (∀ value, params !! "password" = Some value ↔
     config.authenticator self = "snowflake" ∧
     ∃ password, environ !! "SNOWFLAKE_PASSWORD" = Some password ∧
                 password ≠ EmptyString ∧ value = config.PStr password) ∧
  (∀ key, is_Some (params !! key) →
     key ∈ ["protocol"; "port"; "account"; "user"; "authenticator"; "role"; "warehouse";
            "password"]) ∧
  (∀ o1 o2 o3 o4 o5 cfg,
     config.from_env environ o1 o2 o3 o4 o5 = Ok cfg →
     (is_Some (config.get_connection_params cfg environ !! "password") ↔
      nonempty (environ !! "SNOWFLAKE_PASSWORD"))).
Proof.
  intros params.
  assert (Hpw : ∀ self' : config.SnowflakeConfigFull,
    ∀ value, config.get_connection_params self' environ !! "password" = Some value ↔
      config.authenticator self' = "snowflake" ∧
      ∃ password, environ !! "SNOWFLAKE_PASSWORD" = Some password ∧
                  password ≠ EmptyString ∧ value = config.PStr password).
  { intros self' value. unfold config.get_connection_params.
    destruct (decide (config.authenticator self' = "snowflake")) as [Ha|Ha].
    - destruct (environ !! "SNOWFLAKE_PASSWORD") as [pw|] eqn:Hpw; cbn.
      + case_bool_decide as Hempty; cbn.
        * rewrite !lookup_insert_ne, lookup_empty by done. split; [done|].
          intros (_ & pw' & [= <-] & ? & _). done.
        * rewrite lookup_insert_eq. split.
          -- intros [= <-]. split; [done|]. by exists pw.
          -- intros (_ & pw' & [= <-] & _ & ->). done.
      + rewrite !lookup_insert_ne, lookup_empty by done. split; [done|].
        by intros (_ & pw' & [=] & _).
    - rewrite !lookup_insert_ne, lookup_empty by done. split; [done|]. by intros [? _]. }
  assert (Hother : ∀ key, key ≠ "password" →
    params !! key = base_params self !! key).
  { intros key Hkey. subst params. unfold config.get_connection_params.
    case_decide; [|done]. destruct (utils.truthy _); [|done].
    by rewrite lookup_insert_ne. }
  split_and!; try (rewrite Hother by done; unfold base_params; by simplify_map_eq).
  - apply Hpw.
  - intros key [value Hkey]. destruct (decide (key = "password")) as [->|Hne].
    + do 7 apply list_elem_of_further. apply list_elem_of_here.
    + rewrite Hother in Hkey by done. unfold base_params in Hkey.
      repeat (apply lookup_insert_Some in Hkey as [[<- _]|[_ Hkey]];
              [repeat first [apply list_elem_of_here | apply list_elem_of_further]|]).
      by rewrite lookup_empty in Hkey.
  - intros o1 o2 o3 o4 o5 cfg Hcfg. split.
    + intros [value Hvalue]. apply Hpw in Hvalue as (_ & pw & Hpw' & Hne & _). by exists pw.
    + intros (pw & Hpw' & Hne). exists (config.PStr pw). apply Hpw. split; [|by exists pw].
      by apply from_env_returns_config in Hcfg.
Qed.

(** X5.  merge_databases reads its credentials with
    [get_environment_variable]: SPIDER_ACCOUNT, SPIDER_USER and SPIDER_PWD
    must be set, and a variable set to the empty string counts as set; the
    first of them that is not set is named in the ValueError.  The warehouse
    and the role default to WH_MIGRATION and ACCOUNTADMIN. *)
Theorem spider_environment_variables (environ : gmap string string) :
  match utils.get_snowflake_conneciton_env_variables environ with
  | Ok (account, user, password, warehouse, role) =>
      environ !! "SPIDER_ACCOUNT" = Some account ∧
      environ !! "SPIDER_USER" = Some user ∧
      environ !! "SPIDER_PWD" = Some password ∧
      warehouse = default "WH_MIGRATION" (environ !! "SPIDER_WAREHOUSE") ∧
      role = default "ACCOUNTADMIN" (environ !! "SPIDER_ROLE")
  | Raise e =>
      ∃ before name after,
        ["SPIDER_ACCOUNT"; "SPIDER_USER"; "SPIDER_PWD"] = before ++ name :: after ∧
        Forall (λ n, is_Some (environ !! n)) before ∧
        environ !! name = None ∧
        e = ValueError ("Environment variable '" +:+ name +:+ "' not found.")
  end.
Proof.
  unfold utils.get_snowflake_conneciton_env_variables, utils.get_environment_variable.
  destruct (environ !! "SPIDER_ACCOUNT") as [a|] eqn:Ha.
  2:{ exists [], "SPIDER_ACCOUNT", ["SPIDER_USER"; "SPIDER_PWD"]. by repeat split. }
  destruct (environ !! "SPIDER_USER") as [u|] eqn:Hu.
  2:{ exists ["SPIDER_ACCOUNT"], "SPIDER_USER", ["SPIDER_PWD"].
      repeat split; [|done]. repeat constructor. by rewrite Ha. }
  destruct (environ !! "SPIDER_PWD") as [p|] eqn:Hp.
  2:{ exists ["SPIDER_ACCOUNT"; "SPIDER_USER"], "SPIDER_PWD", [].
      repeat split; [|done]. repeat constructor; by rewrite ?Ha, ?Hu. }
  by destruct (environ !! "SPIDER_WAREHOUSE"), (environ !! "SPIDER_ROLE").
Qed.

End Settings.

(** *** Units that have nothing to do, or cannot start *)

Section UnitEdges.
Context {W : Type} {WH : Warehouse W} {JS : Json}.

Lemma bind_inv {A B} (m : M W A) (k : A → M W B) (w : World W) (b : B) (w' : World W) :
  bind m k w = (Ok b, w') → ∃ a w1, m w = (Ok a, w1) ∧ k a w1 = (Ok b, w').
Proof. unfold bind. destruct (m w) as [[a|e] w1]; [eauto | done]. Qed.

(** X6.  Flat mode: when the connection is there and [SHOW DATABASES] shows
    the database, the unit is SKIPPED with that one statement issued: no
    schema check is made and none of the unit's statements is executed. *)
Theorem existing_database_is_skipped
    (cmds : list string) (config : SnowflakeConfig) (db : string)
    (schema_to_check : option string) (w : World W) (wh0 wh1 : W) (row : Row) (rows : list Row) :
  sf_connect (wh w) = (wh0, None) →
  sf_execute wh0 (next_conn w) ("SHOW DATABASES LIKE '" +:+ db +:+ "'") =
    (wh1, Rows (row :: rows)) →
  create_databases.exec_set_of_cmds cmds config (Some db) schema_to_check w =
    (Ok "SKIPPED",
     mkWorld wh1 (S (next_conn w)) (picks w) (task w)
       (trace w ++ [mkEvent (task w) (next_conn w) ("SHOW DATABASES LIKE '" +:+ db +:+ "'") true])
       (logs w)).
Proof.
  intros Hconn Hshow. unfold create_databases.exec_set_of_cmds.
  pose proof (get_sf_connection_cases config w) as Hc. rewrite Hconn in Hc.
  rewrite (bind_ok _ _ _ _ _ Hc).
  set (wa := mkWorld wh0 _ _ _ _ _).
  assert (Hcheck : create_databases.check_database_exists (next_conn w) db wa =
            (Ok true,
             mkWorld wh1 (next_conn wa) (picks wa) (task wa)
               (trace wa ++ [mkEvent (task wa) (next_conn w)
                               ("SHOW DATABASES LIKE '" +:+ db +:+ "'") true])
               (logs wa))).
  { unfold create_databases.check_database_exists.
    by rewrite (bind_ok _ _ _ _ _
                  (cursor_execute_rows (conn_cursor (next_conn w)) _ wa wh1 _ Hshow)). }
  by rewrite (bind_ok _ _ _ _ _ Hcheck).
Qed.

(** X7.  Nested mode: when [SHOW TABLES] shows as many tables as the unit
    has statements, the unit is SKIP with that one statement issued, through
    the safe wrapper as well: no schema is created, no table statement is
    executed and no warning or error is logged. *)
Theorem complete_schema_is_skipped
    (schema : string) (sqls : list string) (conn : Conn) (w : World W) (wh1 : W)
    (rs : list Row) :
  sqls ≠ [] →
  sf_execute (wh w) conn ("SHOW TABLES IN SCHEMA " +:+ schema) = (wh1, Rows rs) →
  length rs = length sqls →
  let w' := mkWorld wh1 (next_conn w) (picks w) (task w)
              (trace w ++ [mkEvent (task w) conn ("SHOW TABLES IN SCHEMA " +:+ schema) true])
              (logs w) in
  create_tables._check_schema_and_execute schema sqls conn w = (Ok create_tables.SKIP, w') ∧
  create_tables.safe_check_schema_and_execute schema sqls conn w = (Ok create_tables.SKIP, w').
Proof.
  intros Hsqls Hshow Hlen w'.
  pose proof (check_schema_and_execute_cases schema sqls conn w Hsqls) as Hcases.
  cbn zeta in Hcases. rewrite Hshow in Hcases. rewrite decide_True in Hcases by done.
  split; [done|]. unfold create_tables.safe_check_schema_and_execute, try_except.
  by rewrite Hcases.
Qed.

(** X8.  When the connection cannot be established, a flat-mode unit, the
    run of create_tables and the run of database_mapping each raise the
    connection error without a statement issued; create_tables has not read
    its mapping file at that point. *)
Theorem refused_connection_issues_nothing
    (cmds : list string) (config : SnowflakeConfig) (db_to_check schema_to_check : option string)
    (file : list string) (source_database : string) (w : World W) (wh0 : W) (msg : string) :
  sf_connect (wh w) = (wh0, Some msg) →
  let w' := mkWorld wh0 (next_conn w) (picks w) (task w) (trace w) (logs w) in
  create_databases.exec_set_of_cmds cmds config db_to_check schema_to_check w =
    (Raise (ConnectError msg), w') ∧
  create_tables.main file config w = (Raise (ConnectError msg), w') ∧
  database_mapping.main source_database config w = (Raise (ConnectError msg), w').
Proof.
  intros Hconn w'.
  pose proof (get_sf_connection_cases config w) as Hc. rewrite Hconn in Hc.
  split; [|split].
  - unfold create_databases.exec_set_of_cmds. by rewrite (bind_raise _ _ _ _ _ Hc).
  - unfold create_tables.main. by rewrite (bind_raise _ _ _ _ _ Hc).
  - unfold database_mapping.main. by rewrite (bind_raise _ _ _ _ _ Hc).
Qed.

(** X9.  A schema path without a dot cannot be unpacked into database and
    schema: [check_schema_exists] raises ValueError before any statement, and
    a unit that is given such a path to check raises it right after
    connecting, with none of its statements executed. *)
Theorem undotted_schema_path_raises
    (cmds : list string) (config : SnowflakeConfig) (schema_path : string) (conn : Conn)
    (w : World W) (wh0 : W) :
  PyStr.contains "." schema_path = false →
  sf_connect (wh w) = (wh0, None) →
  let e := ValueError "not enough values to unpack (expected 2, got 1)" in
  create_databases.check_schema_exists conn schema_path config w = (Raise e, w) ∧
  create_databases.exec_set_of_cmds cmds config None (Some schema_path) w =
    (Raise e, mkWorld wh0 (S (next_conn w)) (picks w) (task w) (trace w) (logs w)).
Proof.
  intros Hdot Hconn e.
  assert (Hcheck : ∀ c (v : World W),
            create_databases.check_schema_exists c schema_path config v = (Raise e, v)).
  { intros c v. unfold create_databases.check_schema_exists. by rewrite (split_no_sep _ _ Hdot). }
  split; [apply Hcheck|].
  unfold create_databases.exec_set_of_cmds.
  pose proof (get_sf_connection_cases config w) as Hc. rewrite Hconn in Hc.
  rewrite (bind_ok _ _ _ _ _ Hc). unfold bind at 1. cbn [ret].
  by rewrite (bind_raise _ _ _ _ _ (Hcheck _ _)).
Qed.

Lemma exec_cmds_loop_result (sf_conn : Conn) (cmds : list string) (w : World W) :
  ∃ status, (create_databases.exec_cmds_loop sf_conn cmds w).1 = Ok status ∧
            status ∈ ["DONE"; "FAILED"].
Proof.
  revert w. induction cmds as [|cmd cmds IH]; intros w.
  - exists "DONE". split; [done|]. apply list_elem_of_here.
  - cbn [create_databases.exec_cmds_loop]. unfold bind at 1, try_except, bind at 1.
    rewrite cursor_execute_step. destruct (sf_execute _ _ _) as [wh' [rs|msg]]; cbn.
    + apply IH.
    + exists "FAILED". split; [done|]. apply list_elem_of_further, list_elem_of_here.
Qed.

(** What a database unit returns when it returns. *)
Lemma exec_set_of_cmds_result (cmds : list string) (config : SnowflakeConfig)
    (db_to_check schema_to_check : option string) (w : World W) (status : string) :
  (create_databases.exec_set_of_cmds cmds config db_to_check schema_to_check w).1 = Ok status →
  status ∈ ["SKIPPED"; "DONE"; "FAILED"].
Proof.
  unfold create_databases.exec_set_of_cmds.
  destruct (bind _ _ w) as [[s|e] w'] eqn:Hrun; [|done]. cbn. intros [= <-].
  apply bind_inv in Hrun as (sf_conn & w1 & _ & Hrun).
  apply bind_inv in Hrun as ([] & w2 & _ & Hrun).
  { injection Hrun as <- _. apply list_elem_of_here. }
  apply bind_inv in Hrun as ([] & w3 & _ & Hrun).
  { injection Hrun as <- _. apply list_elem_of_here. }
  destruct (exec_cmds_loop_result sf_conn cmds w3) as (s' & Hs' & Hin).
  rewrite Hrun in Hs'. injection Hs' as <-. by apply list_elem_of_further.
Qed.

(** X10.  The values of [db_create_statuses] form a closed set: whatever the
    warehouse and the scheduler do, every database is recorded as SKIPPED,
    DONE, FAILED or ERROR. *)
Theorem recorded_statuses_are_closed (rows : list MappingRow) (config : SnowflakeConfig)
    (w : World W) :
  ∃ statuses w',
    create_databases.create_all (create_databases.collect_dbs_setup_commands rows config)
      config w = (Ok statuses, w') ∧
    ∀ db status, statuses !! db = Some status →
      status ∈ ["SKIPPED"; "DONE"; "FAILED"; "ERROR"].
Proof.
  set (dbs := create_databases.collect_dbs_setup_commands rows config).
  destruct (run_pool_spec
              (λ cs _ _, Forall (λ c, recorded c.2 ∈ ["SKIPPED"; "DONE"; "FAILED"; "ERROR"]) cs)
              8 (create_databases.database_tasks dbs config) w)
    as (completed & w1 & Hrun & Hperm & Hall); [lia|done| |].
  { intros k t b u r u1 u2 cs Hin Hstep Hcs. constructor; [|done]. cbn.
    unfold create_databases.database_tasks in Hin.
    apply list_elem_of_fmap in Hin as ([db cmds] & [= -> ->] & _).
    apply in_task_attempt_result in Hstep as (wk & _ & _ & _ & Hr & _).
    destruct r as [status|e]; cbn.
    - symmetry in Hr. apply exec_set_of_cmds_result in Hr.
      apply list_elem_of_In. apply list_elem_of_In in Hr. cbn in *. tauto.
    - do 3 apply list_elem_of_further. apply list_elem_of_here. }
  destruct (record_statuses_spec completed ∅ w1) as (statuses & w' & Hrec & _ & Hdom & Hlook).
  exists statuses, w'. split.
  { unfold create_databases.create_all. by rewrite (bind_ok _ _ _ _ _ Hrun). }
  intros db status Hdb.
  assert (NoDup completed.*1) as Hnd.
  { rewrite Hperm, database_tasks_keys. apply collect_dbs_setup_commands_NoDup. }
  assert (db ∈ completed.*1) as Hin.
  { assert (db ∈ dom statuses) as Hd by (apply elem_of_dom; eauto).
    rewrite Hdom, dom_empty_L, elem_of_union, elem_of_list_to_set in Hd.
    destruct Hd as [?%elem_of_empty|?]; done. }
  apply list_elem_of_fmap in Hin as ([db' future] & -> & Hin). cbn in Hdb.
  rewrite (Hlook Hnd _ _ Hin) in Hdb. injection Hdb as <-.
  by apply (proj1 (Forall_forall _ _) Hall _ Hin).
Qed.

End UnitEdges.

(** *** The runs and their mapping file *)

Section MappingFile.
Context {W : Type} {WH : Warehouse W} {JS : Json}.

(** X11.  create_databases.main on a file that parses: it returns the
    statuses of exactly the target databases of the records other than
    EBI_CHEMBL.  EBI_CHEMBL gets no entry, and no statement is issued by a
    unit of that name. *)
Theorem main_leaves_ebi_chembl_out (file : list string) (recs : list MappingRow)
    (config : SnowflakeConfig) (w : World W) :
  Forall2 (λ line r, json_loads line = Ok r) file recs →
  ∃ statuses w',
    create_databases.main file config w = (Ok statuses, w') ∧
    dom statuses =
      list_to_set (target_database_name <$>
                     filter (λ r, target_database_name r ≠ "EBI_CHEMBL") recs) ∧
    statuses !! "EBI_CHEMBL" = None ∧
    ∃ evs, trace w' = trace w ++ evs ∧
           Forall (λ e, ev_task e ≠ "EBI_CHEMBL" :: task w) evs.
Proof.
  intros Hparse. unfold create_databases.main, create_databases.process_jsonl_file.
  rewrite (process_jsonl_file_loop_spec file recs [] Hparse). cbn [app].
  set (rows := filter _ recs).
  set (dbs := create_databases.collect_dbs_setup_commands rows config).
  destruct (database_pool_connections dbs config w)
    as (completed & w1 & Hrun & _ & _ & evs & Htr & Hall & _).
  destruct (run_pool_spec (λ _ _ _, True) 8 (create_databases.database_tasks dbs config) w)
    as (completed' & w1' & Hrun' & Hperm & _); [lia|done|done|].
  rewrite Hrun in Hrun'. injection Hrun' as <- <-. rewrite database_tasks_keys in Hperm.
  destruct (record_statuses_spec completed ∅ w1) as (statuses & w' & Hrec & Htr' & Hdom & _).
  assert (Hdom' : dom statuses = list_to_set (target_database_name <$> rows)).
  { rewrite Hdom, dom_empty_L, (left_id_L ∅ (∪)), (list_to_set_perm_L _ _ Hperm).
    apply collect_dbs_setup_commands_keys. }
  assert (Hnot : "EBI_CHEMBL" ∉ target_database_name <$> rows).
  { intros (r & Hr & Hin)%list_elem_of_fmap. subst rows.
    apply list_elem_of_filter in Hin as [Hne _]. by apply Hne. }
  exists statuses, w'. split.
  { unfold create_databases.create_all. by rewrite (bind_ok _ _ _ _ _ Hrun). }
  split; [done|]. split.
  - apply not_elem_of_dom. rewrite Hdom', elem_of_list_to_set. done.
  - exists evs. split; [congruence|]. eapply Forall_impl; [exact Hall|].
    intros e (_ & db & Hdb & ->) [= ->].
    apply Hnot. apply (elem_of_list_to_set (C := gset string)).
    rewrite <-(collect_dbs_setup_commands_keys rows config). by apply elem_of_list_to_set.
Qed.

Lemma process_jsonl_file_loop_raises (pre post : list string) (bad : string)
    (recs acc : list MappingRow) (e : exn) :
  Forall2 (λ line r, json_loads line = Ok r) pre recs →
  json_loads bad = Raise e →
  create_databases.process_jsonl_file_loop (pre ++ bad :: post) acc = Raise e.
Proof.
  intros Hpre Hbad. revert acc.
  induction Hpre as [|line r pre recs Hline _ IH]; intros acc; cbn.
  - by rewrite Hbad.
  - rewrite Hline. case_decide; apply IH.
Qed.

Lemma get_json_setup_raises (pre post : list string) (bad : string)
    (recs : list MappingRow) (e : exn) :
  Forall2 (λ line r, json_loads line = Ok r) pre recs →
  json_loads bad = Raise e →
  create_tables.get_json_setup (pre ++ bad :: post) = Raise e.
Proof.
  intros Hpre Hbad.
  induction Hpre as [|line r pre recs Hline _ IH]; cbn.
  - by rewrite Hbad.
  - by rewrite Hline, IH.
Qed.

(** X12.  A line that does not parse, anywhere in the file, aborts the run
    with the parser's exception.  create_databases.main has then touched
    nothing: no connection, no statement, whatever the records before the
    line.  create_tables.main has opened its connection, and has issued no
    statement. *)
Theorem unparsable_line_aborts_the_run (pre post : list string) (bad : string)
    (recs : list MappingRow) (e : exn) (config : SnowflakeConfig) (w : World W) (wh0 : W) :
  Forall2 (λ line r, json_loads line = Ok r) pre recs →
  json_loads bad = Raise e →
  sf_connect (wh w) = (wh0, None) →
  create_databases.main (pre ++ bad :: post) config w = (Raise e, w) ∧
  create_tables.main (pre ++ bad :: post) config w =
    (Raise e, mkWorld wh0 (S (next_conn w)) (picks w) (task w) (trace w) (logs w)).
Proof.
  intros Hpre Hbad Hconn. split.
  - unfold create_databases.main, create_databases.process_jsonl_file.
    by rewrite (process_jsonl_file_loop_raises pre post bad recs [] e).
  - unfold create_tables.main.
    pose proof (get_sf_connection_cases config w) as Hc. rewrite Hconn in Hc.
    rewrite (bind_ok _ _ _ _ _ Hc).
    by rewrite (get_json_setup_raises pre post bad recs e).
Qed.

End MappingFile.

Section Units.

Lemma dict_set_elem {V} (k : string) (v : V) (d : list (string * V)) :
  (k, v) ∈ dict_set k v d.
Proof.
  induction d as [|[k' v'] d IH]; cbn; [apply list_elem_of_here|].
  case_decide as Hk.
  - subst. apply list_elem_of_here.
  - by apply list_elem_of_further.
Qed.

Lemma dict_set_other {V} (k k' : string) (v v' : V) (d : list (string * V)) :
  k ≠ k' → (k', v') ∈ d → (k', v') ∈ dict_set k v d.
Proof.
  intros Hne. induction d as [|[k2 v2] d IH]; cbn; [by intros ?%elem_of_nil|].
  intros [[= <- <-]|Hin]%elem_of_cons.
  - rewrite decide_False by done. apply list_elem_of_here.
  - case_decide; apply list_elem_of_further; [done | by apply IH].
Qed.

Lemma dict_keys_functional {V} (d : list (string * V)) (k : string) (v1 v2 : V) :
  NoDup d.*1 → (k, v1) ∈ d → (k, v2) ∈ d → v1 = v2.
Proof.
  induction d as [|[k' v'] d IH]; [by intros _ ?%elem_of_nil|].
  cbn. intros [Hfresh Hnd]%NoDup_cons H1 H2.
  apply elem_of_cons in H1 as [H1|H1]; apply elem_of_cons in H2 as [H2|H2].
  - congruence.
  - injection H1 as -> ->. destruct Hfresh. apply list_elem_of_fmap. by exists (k', v2).
  - injection H2 as -> ->. destruct Hfresh. apply list_elem_of_fmap. by exists (k', v1).
  - by apply IH.
Qed.

Lemma collect_schema_to_table_sqls_snoc (rows : list MappingRow) (row : MappingRow) :
  create_tables.collect_schema_to_table_sqls (rows ++ [row]) =
  dict_set (target_schema row) (table_sqls row) (create_tables.collect_schema_to_table_sqls rows).
Proof. unfold create_tables.collect_schema_to_table_sqls. by rewrite foldl_app. Qed.

Lemma collect_schema_to_table_sqls_NoDup (rows : list MappingRow) :
  NoDup (create_tables.collect_schema_to_table_sqls rows).*1.
Proof.
  induction rows as [|row rows IH] using rev_ind; [constructor|].
  rewrite collect_schema_to_table_sqls_snoc. by apply dict_set_NoDup.
Qed.

Lemma collect_schema_to_table_sqls_keys (rows : list MappingRow) (schema : string) :
  schema ∈ (create_tables.collect_schema_to_table_sqls rows).*1 ↔
  schema ∈ target_schema <$> rows.
Proof.
  induction rows as [|row rows IH] using rev_ind; [done|].
  rewrite collect_schema_to_table_sqls_snoc, dict_set_keys, fmap_app, elem_of_app.
  cbn. rewrite list_elem_of_singleton, <-IH. case_decide as Hin.
  - split; [tauto|]. intros [? | ->]; done.
  - by rewrite elem_of_app, list_elem_of_singleton.
Qed.

(** X13.  create_tables.main keeps one unit per target schema.  When several
    records of the file name the same target schema, the unit runs the table
    statements of the last of them only: the tables of the earlier records
    are not created. *)
Theorem last_record_of_a_schema_wins (before after : list MappingRow) (row : MappingRow) :
  let units := create_tables.collect_schema_to_table_sqls (before ++ row :: after) in
  Forall (λ r, target_schema r ≠ target_schema row) after →
  NoDup units.*1 ∧
  (∀ schema, schema ∈ units.*1 ↔ schema ∈ target_schema <$> (before ++ row :: after)) ∧
  ∀ sqls, (target_schema row, sqls) ∈ units ↔ sqls = table_sqls row.
Proof.
  intros units Hafter.
  assert (Hnd : NoDup units.*1) by apply collect_schema_to_table_sqls_NoDup.
  split; [done|]. split; [apply collect_schema_to_table_sqls_keys|].
  assert (Hin : (target_schema row, table_sqls row) ∈ units).
  { subst units. clear Hnd. revert Hafter.
    induction after as [|r after IH] using rev_ind; intros Hafter.
    - rewrite collect_schema_to_table_sqls_snoc. apply dict_set_elem.
    - apply Forall_app in Hafter as [Hafter [Hr _]%Forall_cons].
      rewrite app_comm_cons, app_assoc, collect_schema_to_table_sqls_snoc.
      apply dict_set_other; [done|]. by apply IH. }
  intros sqls. split; [|by intros ->].
  intros Hin'. by apply (dict_keys_functional units (target_schema row)).
Qed.

(** X14.  The schema commands of create_databases are USE ROLE with the
    admin role, CREATE SCHEMA IF NOT EXISTS for the target schema, and then,
    in the order of the record, the very CTAS statements that create_tables
    runs for that record. *)
Theorem schema_setup_commands_end_with_table_statements (row : MappingRow)
    (config : SnowflakeConfig) :
  ∃ sqls,
    create_tables.collect_schema_to_table_sqls [row] = [(target_schema row, sqls)] ∧
    length sqls = length (tables row) ∧
    create_databases.get_schema_setup_commands row config =
      [ "USE ROLE " +:+ admin_role config;
        "CREATE SCHEMA IF NOT EXISTS " +:+ target_schema row ] ++ sqls.
Proof.
  exists (table_sqls row). split; [done|]. split; [unfold table_sqls; by rewrite length_map|].
  unfold create_databases.get_schema_setup_commands, table_sqls. cbn zeta.
  generalize ["USE ROLE " +:+ admin_role config;
              "CREATE SCHEMA IF NOT EXISTS " +:+ target_schema row].
  induction (tables row) as [|table tables IH]; intros out_cmds; cbn.
  - by rewrite app_nil_r.
  - rewrite IH. by rewrite <-app_assoc.
Qed.

End Units.

(** *** Names and the delimiter *)

Section Names.

Lemma split_go_nonempty (sep cur s : string) (skip : nat) : PyStr.split_go sep skip cur s ≠ [].
Proof.
  revert skip cur. induction s as [|c s IH]; intros skip cur; [done|].
  cbn [PyStr.split_go]. destruct skip; [|apply IH].
  destruct (String.prefix sep (String c s)); [done | apply IH].
Qed.

Lemma split_go_contains (sep cur s : string) :
  sep ≠ EmptyString → PyStr.contains sep s = true → 2 ≤ length (PyStr.split_go sep 0 cur s).
Proof.
  intros Hsep. revert cur. induction s as [|c s IH]; intros cur Hc.
  - destruct sep; [done|]. discriminate.
  - cbn [PyStr.contains] in Hc. cbn [PyStr.split_go].
    destruct (String.prefix sep (String c s)) eqn:Hp.
    + cbn [length].
      pose proof (split_go_nonempty sep EmptyString s (String.length sep - 1)) as Hne.
      destruct (PyStr.split_go sep _ _ s); [done|]. cbn. lia.
    + apply IH. by rewrite orb_false_l in Hc.
Qed.

(** X15.  The two scripts test a name for the delimiter in different ways,
    and the tests agree: [DELIMITER in name] (merge_databases) is false
    exactly when [name.split(DELIMITER)] (database_mapping) gives the name
    itself as its only part, and true exactly when it gives two parts or
    more. *)
Theorem delimiter_test_agrees_with_split (name : string) :
  (PyStr.contains DELIMITER name = false ↔ PyStr.split DELIMITER name = [name]) ∧
  (PyStr.contains DELIMITER name = true ↔ 2 ≤ length (PyStr.split DELIMITER name)).
Proof.
  assert (Htrue : PyStr.contains DELIMITER name = true →
                  2 ≤ length (PyStr.split DELIMITER name)).
  { by apply split_go_contains. }
  split; split.
  - apply split_no_sep.
  - intros Hsplit. destruct (PyStr.contains DELIMITER name); [|done].
    specialize (Htrue eq_refl). rewrite Hsplit in Htrue. cbn in Htrue. lia.
  - exact Htrue.
  - intros Hlen. destruct (PyStr.contains DELIMITER name) eqn:Hc; [done|].
    rewrite (split_no_sep _ _ Hc) in Hlen. cbn in Hlen. lia.
Qed.

Lemma prefix_nil (s : string) : String.prefix EmptyString s = true.
Proof. by destruct s. Qed.

Lemma append_cons (c : ascii) (s t : string) : String c s +:+ t = String c (s +:+ t).
Proof. reflexivity. Qed.

(** Reading the database part of a cloned schema name. *)
Lemma split_go_database_part (database_name rest cur : string) :
  PyStr.contains DELIMITER database_name = false →
  (∀ p, database_name ≠ p +:+ "_") →
  PyStr.split_go DELIMITER 0 cur (database_name +:+ DELIMITER +:+ rest) =
  (cur +:+ database_name) :: PyStr.split_go DELIMITER 0 EmptyString rest.
Proof.
  revert cur. induction database_name as [|c db IH]; intros cur Hc Hend.
  - rewrite append_empty_r. change (EmptyString +:+ DELIMITER +:+ rest) with (String "_" (String "_" rest)).
    cbn [PyStr.split_go].
    assert (String.prefix DELIMITER (String "_" (String "_" rest)) = true) as ->.
    { unfold DELIMITER. cbn [String.prefix].
      destruct (ascii_dec "_" "_"); [apply prefix_nil | done]. }
    reflexivity.
  - cbn [PyStr.contains] in Hc. apply orb_false_iff in Hc as [Hp Hc].
    rewrite append_cons. cbn [PyStr.split_go].
    assert (String.prefix DELIMITER (String c (db +:+ DELIMITER +:+ rest)) = false) as ->.
    { unfold DELIMITER in *. cbn [String.prefix] in *.
      destruct (ascii_dec "_" c) as [<-|]; [|done].
      destruct db as [|c' db].
      - by destruct (Hend EmptyString).
      - rewrite append_cons. cbn [String.prefix] in *.
        destruct (ascii_dec "_" c') as [<-|]; [|done].
        by rewrite prefix_nil in Hp. }
    rewrite IH; [by rewrite append_snoc|done|].
    intros p ->. by apply (Hend (String c p)).
Qed.

(** X16.  The name that merge_database gives a cloned schema, the database
    name, the delimiter and the schema name, is unpacked by
    database_mapping into that database and that schema again, provided that
    neither name contains the delimiter and the database name does not end
    with an underscore. *)
Theorem cloned_schema_name_unpacks (database_name schema_name : string) :
  PyStr.contains DELIMITER database_name = false →
  PyStr.contains DELIMITER schema_name = false →
  (∀ p, database_name ≠ p +:+ "_") →
  splits (database_name +:+ DELIMITER +:+ schema_name) = Some (database_name, schema_name).
Proof.
  intros Hdb Hschema Hend. unfold splits, PyStr.split.
  rewrite (split_go_database_part _ _ _ Hdb Hend), (split_go_no_sep _ _ _ Hschema).
  done.
Qed.

Lemma prefix_append (sep s : string) :
  String.prefix sep s = true → ∃ rest, s = sep +:+ rest.
Proof.
  revert s. induction sep as [|a sep IH]; intros s Hp; [by exists s|].
  destruct s as [|c s]; [done|]. cbn [String.prefix] in Hp.
  destruct (ascii_dec a c) as [<-|]; [|done].
  destruct (IH s Hp) as [rest ->]. by exists rest.
Qed.

Lemma split_go_skip (sep pre rest cur : string) :
  PyStr.split_go sep (String.length pre) cur (pre +:+ rest) = PyStr.split_go sep 0 cur rest.
Proof. induction pre as [|a pre IH]; [done|]. rewrite append_cons. apply IH. Qed.

Lemma append_assoc (s t u : string) : (s +:+ t) +:+ u = s +:+ (t +:+ u).
Proof.
  induction s as [|a s IH]; [done|]. rewrite !append_cons. by rewrite IH.
Qed.

Lemma length_append (s t : string) :
  String.length (s +:+ t) = String.length s + String.length t.
Proof. induction s as [|a s IH]; [done|]. rewrite append_cons. cbn. by rewrite IH. Qed.

Lemma join_cons (sep part : string) (parts : list string) :
  parts ≠ [] → PyStr.join sep (part :: parts) = part +:+ sep +:+ PyStr.join sep parts.
Proof. by destruct parts. Qed.

Lemma join_split_go (sep : string) (n : nat) :
  sep ≠ EmptyString →
  ∀ s cur, String.length s ≤ n →
    PyStr.join sep (PyStr.split_go sep 0 cur s) = cur +:+ s.
Proof.
  intros Hsep. induction n as [n IH] using lt_wf_ind. intros s cur Hlen.
  destruct s as [|c s]; [by rewrite append_empty_r|].
  cbn [PyStr.split_go]. destruct (String.prefix sep (String c s)) eqn:Hp.
  - destruct (prefix_append _ _ Hp) as [rest Hrest].
    destruct sep as [|a sep]; [done|]. rewrite append_cons in Hrest.
    injection Hrest as <- ->.
    replace (String.length (String c sep) - 1) with (String.length sep) by (cbn; lia).
    rewrite split_go_skip.
    rewrite join_cons by apply split_go_nonempty.
    cbn [String.length] in Hlen. rewrite length_append in Hlen.
    rewrite (IH (String.length rest)); [done|lia|lia].
  - cbn [String.length] in Hlen.
    rewrite (IH (String.length s)); [by rewrite append_snoc|lia|lia].
Qed.

(** Splitting at a separator loses nothing: joining the parts of
    [s.split(sep)] with [sep] gives [s] back, for every non-empty separator,
    and the parts are never an empty list. *)
Lemma join_split (sep s : string) :
  sep ≠ EmptyString →
  PyStr.split sep s ≠ [] ∧ PyStr.join sep (PyStr.split sep s) = s.
Proof.
  intros Hsep. split; [apply split_go_nonempty|].
  unfold PyStr.split. by rewrite (join_split_go sep (String.length s)).
Qed.

End Names.

(** *** merge_databases: dry runs, exclusions, and a failing database *)

Section MergeRun.
Context {W : Type} {WH : Warehouse W}.

Local Ltac runs_step' :=
  first [ apply runs_ret | apply runs_raise | apply runs_logger
        | apply runs_bind; [|intros ?] ].

Lemma clone_loop_runs t (Q : Event → Prop) (connection : Conn)
    (database_name output_database : string) (dry_run : bool) (schema_names : list string) :
  (dry_run = false →
   ∀ schema_name ok,
     Q (mkEvent t connection (clone_sql database_name output_database schema_name) ok)) →
  runs t Q (merge_databases.clone_loop (conn_cursor connection) database_name output_database
              dry_run schema_names).
Proof.
  intros HQ. induction schema_names as [|schema_name schema_names IH]; [apply runs_ret|].
  cbn [merge_databases.clone_loop]. destruct (_ || _); [apply runs_raise|].
  apply runs_bind; [|intros _; apply IH].
  destruct dry_run; [apply runs_logger|].
  apply runs_bind; [|intros; apply runs_ret].
  apply runs_cursor_execute. intros ok. by apply HQ.
Qed.

Lemma merge_database_runs t (Q : Event → Prop) (connection : Conn)
    (database_name output_database : string) (dry_run : bool) :
  (∀ ok, Q (mkEvent t connection ("SHOW SCHEMAS IN DATABASE " +:+ database_name) ok)) →
  (dry_run = false →
   ∀ ok, Q (mkEvent t connection ("CREATE DATABASE IF NOT EXISTS " +:+ output_database) ok)) →
  (dry_run = false →
   ∀ schema_name ok,
     Q (mkEvent t connection (clone_sql database_name output_database schema_name) ok)) →
  runs t Q (merge_databases.merge_database connection database_name output_database dry_run).
Proof.
  intros Hshow Hcreate Hclone. unfold merge_databases.merge_database.
  apply runs_bind.
  { destruct dry_run; [apply runs_logger|].
    apply runs_bind; [|intros; apply runs_ret]. apply runs_cursor_execute. by apply Hcreate. }
  intros _. apply runs_bind.
  { unfold utils.get_schema_names. apply runs_bind; [|intros; apply runs_ret].
    by apply runs_cursor_execute. }
  intros schema_names. by apply clone_loop_runs.
Qed.

Lemma main_loop_runs t (Q : Event → Prop) (connection : Conn) (output_database : string)
    (dry_run : bool) (database_names : list Row) (marketplace migration : list string) :
  (∀ row, row ∈ database_names → eligible output_database row →
     runs t Q (merge_databases.merge_database connection (row_name row) output_database dry_run)) →
  runs t Q (merge_databases.main_loop connection output_database dry_run database_names
              marketplace migration).
Proof.
  revert marketplace migration.
  induction database_names as [|row rows IH]; intros marketplace migration Hmerge;
    [apply runs_ret|].
  cbn [merge_databases.main_loop].
  assert (Hrest : ∀ row', row' ∈ rows → eligible output_database row' →
            runs t Q (merge_databases.merge_database connection (row_name row')
                        output_database dry_run)).
  { intros row' Hin. apply Hmerge. by apply list_elem_of_further. }
  case_bool_decide as Hexcluded; [by apply IH|].
  case_decide as Hkind; [by apply IH|].
  apply runs_bind; [|intros _; by apply IH].
  apply Hmerge; [apply list_elem_of_here | done].
Qed.

(** X17.  A dry run sends the warehouse nothing but queries.  [merge_database] with
    [dry_run] set issues exactly one statement, the SHOW SCHEMAS query,
    whatever the warehouse answers and whether or not a ValueError is raised;
    [main] with [dry_run] set issues SHOW statements only. *)
Theorem dry_run_only_shows (environ : gmap string string) (connection : Conn)
    (database_name output_database : string) (w v : World W) :
  (∃ ok, trace (merge_databases.merge_database connection database_name output_database
                  true w).2 =
         trace w ++ [mkEvent (task w) connection
                       ("SHOW SCHEMAS IN DATABASE " +:+ database_name) ok]) ∧
  (∃ evs, trace (merge_databases.main environ output_database true v).2 = trace v ++ evs ∧
          Forall (λ e, String.prefix "SHOW " (ev_sql e) = true) evs).
Proof.
  split.
  - unfold merge_databases.merge_database, bind at 1, logger at 1. cbn [fst snd].
    unfold bind at 1, utils.get_schema_names, bind at 1. rewrite cursor_execute_step.
    cbn [wh cursor_conn conn_cursor].
    destruct (sf_execute (wh w) connection _) as [wh' [rs|msg]]; cbn [ret]; [|by eexists].
    match goal with |- context [merge_databases.clone_loop ?c ?d ?o true ?names ?w1] =>
      destruct (clone_loop_runs (task w1) (λ _, False) connection d o true names
                  ltac:(done) w1 eq_refl) as (_ & _ & evs & Htr & Hnone)
    end.
    destruct evs as [|e evs]; [|by apply Forall_cons in Hnone as [[] _]].
    rewrite app_nil_r in Htr. exists true. by rewrite Htr.
  - unfold merge_databases.main, bind at 1, of_res.
    destruct (utils.get_snowflake_conneciton_env_variables environ)
      as [[[[[account user] password] warehouse] role]|e];
      [|exists []; by rewrite app_nil_r].
    unfold bind at 1, merge_databases.SnowflakeConnection.
    destruct (sf_connect (wh v)) as [wh' [msg|]]; [exists []; by rewrite app_nil_r|].
    set (v1 := mkWorld _ _ _ _ _ _).
    match goal with |- context [bind ?m ?k v1] =>
      assert (Hruns : runs (task v1) (λ e, String.prefix "SHOW " (ev_sql e) = true) (bind m k))
    end.
    { apply runs_bind.
      - unfold utils.get_database_names. apply runs_bind; [|intros; apply runs_ret].
        by apply runs_cursor_execute.
      - intros rows. apply main_loop_runs. intros row _ _.
        by apply merge_database_runs. }
    destruct (Hruns v1 eq_refl) as (_ & _ & evs & Htr & Hall). by exists evs.
Qed.

(** The two lists that [main] builds, when the loop comes to its end. *)
Lemma main_loop_lists (connection : Conn) (output_database : string) (dry_run : bool)
    (rows : list Row) (marketplace migration marketplace' migration' : list string)
    (w w' : World W) :
  merge_databases.main_loop connection output_database dry_run rows marketplace migration w =
    (Ok (marketplace', migration'), w') →
  marketplace' = marketplace ++ (row_name <$> filter (imported output_database) rows) ∧
  migration' = migration ++ (row_name <$> filter (eligible output_database) rows).
Proof.
  revert marketplace migration w.
  induction rows as [|row rows IH]; intros marketplace migration w Hrun.
  - injection Hrun as <- <- _. by rewrite !app_nil_r.
  - cbn [merge_databases.main_loop] in Hrun.
    case_bool_decide as Hexcluded.
    { apply IH in Hrun as [-> ->].
      rewrite !filter_cons_False; [done| |]; unfold eligible, imported; tauto. }
    case_decide as Hkind.
    { apply IH in Hrun as [-> ->].
      rewrite filter_cons_True by done.
      rewrite (filter_cons_False (eligible output_database)) by (unfold eligible; tauto).
      cbn. by rewrite <-app_assoc. }
    apply bind_inv in Hrun as (_ & w1 & _ & Hrun). apply IH in Hrun as [-> ->].
    rewrite filter_cons_False by (unfold imported; tauto).
    rewrite (filter_cons_True (eligible output_database)) by done.
    cbn. by rewrite <-app_assoc.
Qed.

(** X18.  What [main] touches, once the credentials are read, the connection
    is there and SHOW TERSE DATABASES has answered.  After that query every
    statement belongs to the merge of a listed database that is neither
    SNOWFLAKE, nor the output database, nor an imported database: those three
    kinds are never looked into and never cloned.  When the run comes to its
    end, the databases it reports as migrated are exactly the merged ones, in
    the order listed, and the marketplace databases are the imported ones. *)
Theorem main_merges_eligible_databases_only
    (environ : gmap string string) (output_database : string) (dry_run : bool)
    (vars : string * string * string * string * string)
    (w : World W) (wh0 wh1 : W) (rows : list Row) :
  utils.get_snowflake_conneciton_env_variables environ = Ok vars →
  sf_connect (wh w) = (wh0, None) →
  sf_execute wh0 (next_conn w) "SHOW TERSE DATABASES" = (wh1, Rows rows) →
  let run := merge_databases.main environ output_database dry_run w in
  (∃ evs,
     trace run.2 =
       trace w ++ mkEvent (task w) (next_conn w) "SHOW TERSE DATABASES" true :: evs ∧
     Forall (λ e, ev_conn e = next_conn w ∧
                  ∃ row, row ∈ rows ∧ eligible output_database row ∧
                         merge_statement output_database (row_name row) (ev_sql e)) evs) ∧
  ∀ marketplace migration,
    run.1 = Ok (marketplace, migration) →
    marketplace = row_name <$> filter (imported output_database) rows ∧
    migration = row_name <$> filter (eligible output_database) rows.
Proof.
  intros Hvars Hconn Hshow.
  set (w1 := mkWorld wh1 (S (next_conn w)) (picks w) (task w)
               (trace w ++ [mkEvent (task w) (next_conn w) "SHOW TERSE DATABASES" true])
               (logs w)).
  assert (Hmain : merge_databases.main environ output_database dry_run w =
                  merge_databases.main_loop (next_conn w) output_database dry_run rows [] [] w1).
  { unfold merge_databases.main, bind at 1, of_res. rewrite Hvars.
    destruct vars as [[[[account user] password] warehouse] role].
    unfold bind at 1, merge_databases.SnowflakeConnection. rewrite Hconn.
    unfold bind at 1, utils.get_database_names, bind at 1.
    by rewrite (cursor_execute_rows (conn_cursor (next_conn w)) "SHOW TERSE DATABASES"
                  (mkWorld wh0 (S (next_conn w)) (picks w) (task w) (trace w) (logs w))
                  wh1 rows Hshow). }
  intros run. subst run. rewrite Hmain. clear Hmain.
  set (Q := λ e, ev_conn e = next_conn w ∧
                 ∃ row, row ∈ rows ∧ eligible output_database row ∧
                        merge_statement output_database (row_name row) (ev_sql e)).
  destruct (main_loop_runs (task w1) Q (next_conn w) output_database dry_run rows [] [])
    with (w := w1) as (_ & _ & evs & Htr & Hall); [|done|].
  { intros row Hin Hrow. apply merge_database_runs; intros; (split; [done|]);
      exists row; (split; [done|]); (split; [done|]); unfold merge_statement; cbn; eauto. }
  split.
  - exists evs. rewrite Htr. subst w1. cbn. by rewrite <-app_assoc.
  - intros marketplace migration Hrun.
    eapply (main_loop_lists (next_conn w) output_database dry_run rows [] [] _ _ w1).
    rewrite <-Hrun. apply surjective_pairing.
Qed.

Lemma main_loop_app (connection : Conn) (output_database : string) (dry_run : bool)
    (pre rest : list Row) (marketplace migration : list string) (w : World W) :
  merge_databases.main_loop connection output_database dry_run (pre ++ rest)
    marketplace migration w =
  bind (merge_databases.main_loop connection output_database dry_run pre marketplace migration)
       (λ lists, merge_databases.main_loop connection output_database dry_run rest
                   lists.1 lists.2) w.
Proof.
  revert marketplace migration w.
  induction pre as [|row pre IH]; intros marketplace migration w; [done|].
  cbn [app merge_databases.main_loop].
  case_bool_decide; [apply IH|]. case_decide; [apply IH|].
  unfold bind.
  destruct (merge_databases.merge_database _ _ _ _ w) as [[[]|e] w1]; [|done].
  apply IH.
Qed.

(** X19.  The databases are merged one after the other with nothing to
    catch an exception: when the merge of one database raises, a ValueError
    for a delimiter included, [main]'s loop ends with that exception in the
    world the failing merge left, and the databases listed after it are not
    merged. *)
Theorem failing_database_ends_the_run
    (connection : Conn) (output_database : string) (dry_run : bool)
    (pre post : list Row) (row : Row)
    (marketplace migration marketplace1 migration1 : list string)
    (w w1 w2 : World W) (e : exn) :
  merge_databases.main_loop connection output_database dry_run pre marketplace migration w =
    (Ok (marketplace1, migration1), w1) →
  eligible output_database row →
  merge_databases.merge_database connection (row_name row) output_database dry_run w1 =
    (Raise e, w2) →
  merge_databases.main_loop connection output_database dry_run (pre ++ row :: post)
    marketplace migration w = (Raise e, w2).
Proof.
  intros Hpre [Hname Hkind] Hmerge. rewrite main_loop_app, (bind_ok _ _ _ _ _ Hpre).
  cbn [fst snd merge_databases.main_loop].
  rewrite bool_decide_eq_false_2 by done. rewrite decide_False by done.
  by rewrite (bind_raise _ _ _ _ _ Hmerge).
Qed.

End MergeRun.

(** ** create_tables.py: what a schema unit can come to *)

Section TableUnits.
Context {W : Type} {WH : Warehouse W}.

(** X20.  [execute_sqls] returns normally whatever the warehouse answers,
    opens no connection, and hands every one of its statements to the
    warehouse exactly once, on the connection it was given: the statements
    issued are a permutation of [sqls], in the order the scheduler chose. *)
Theorem execute_sqls_issues_each_statement_once (sqls : list string) (conn : Conn)
    (w : World W) :
  let run := create_tables.execute_sqls sqls conn w in
  run.1 = Ok tt ∧ next_conn run.2 = next_conn w ∧
  ∃ evs, trace run.2 = trace w ++ evs ∧
         map ev_sql evs ≡ₚ sqls ∧
         Forall (λ e, ev_conn e = conn) evs.
Proof.
  intros run. subst run.
  destruct (execute_sqls_spec sqls conn w) as (w' & -> & Hn & _ & _ & evs & Htr & Hp & Hf).
  cbn [fst snd]. split; [done|]. split; [done|]. exists evs. split; [done|]. split; [done|].
  eapply Forall_impl; [exact Hf|]. by intros e [? _].
Qed.

(** X21.  Where ERROR comes from in nested mode.  [_check_schema_and_execute]
    itself never returns ERROR: its handler around [execute_sqls] is never
    entered.  Through the safe wrapper a unit is ERROR exactly when it has
    statements and the warehouse refuses both the [SHOW TABLES] query and the
    [CREATE SCHEMA] statement that follows; the message of that second
    refusal is then logged as an error, and no table statement is issued. *)
Theorem schema_unit_is_error_iff_schema_cannot_be_created
    (schema : string) (sqls : list string) (conn : Conn) (w : World W) :
  let probe := "SHOW TABLES IN SCHEMA " +:+ schema in
  let create := "CREATE SCHEMA IF NOT EXISTS " +:+ schema in
  let refused msg :=
    ∃ msg1, (sf_execute (wh w) conn probe).2 = Fails msg1 ∧
            (sf_execute (sf_execute (wh w) conn probe).1 conn create).2 = Fails msg in
  let run := create_tables.safe_check_schema_and_execute schema sqls conn w in
  (create_tables._check_schema_and_execute schema sqls conn w).1 ≠ Ok create_tables.ERROR ∧
  (run.1 = Ok create_tables.ERROR ↔ sqls ≠ [] ∧ ∃ msg, refused msg) ∧
  (∀ msg, sqls ≠ [] → refused msg →
     logs run.2 = logs w ++ [(L_ERROR, "Error while processing schema " +:+ schema +:+ ": " +:+ msg)] ∧
     trace run.2 = trace w ++ [mkEvent (task w) conn probe false;
                               mkEvent (task w) conn create false]).
Proof.
  intros probe create refused run. subst run refused.
  unfold create_tables.safe_check_schema_and_execute, try_except.
  destruct sqls as [|sql sqls].
  { unfold create_tables._check_schema_and_execute. cbn.
    split; [done|]. split; [|done]. split; [done|]. by intros [? _]. }
  pose proof (check_schema_and_execute_cases schema (sql :: sqls) conn w) as Hcases.
  specialize (Hcases ltac:(done)). cbn zeta in Hcases. fold probe create in Hcases.
  destruct (sf_execute (wh w) conn probe) as [wh1 [rs|msg1]]; cbn [fst snd].
  - assert (Hno : ¬ ∃ msg msg1 : string, Rows rs = Fails msg1 ∧
                      (sf_execute wh1 conn create).2 = Fails msg).
    { by intros (? & ? & [=] & _). }
    case_decide.
    + rewrite Hcases. cbn. split; [done|]. split.
      * split; [done|]. by intros [_ ?].
      * intros msg _ (? & [=] & _).
    + destruct Hcases as (w' & -> & _). cbn. split; [done|]. split.
      * split; [done|]. by intros [_ ?].
      * intros msg _ (? & [=] & _).
  - destruct (sf_execute wh1 conn create) as [wh2 [rs|msg2]]; cbn [fst snd].
    + destruct Hcases as (w' & -> & _). cbn. split; [done|]. split.
      * split; [done|]. by intros [_ (? & ? & _ & [=])].
      * intros msg _ (? & _ & [=]).
    + rewrite Hcases. cbn. split; [done|]. split.
      * split; [|done]. intros _. split; [done|]. eauto.
      * by intros msg _ (? & _ & [= <-]).
Qed.

End TableUnits.

(** ** database_mapping.py: records and warnings *)

Section MappingRun.
Context {W : Type} {WH : Warehouse W}.

(** X22.  [main] once it is connected and [SHOW SCHEMAS] has answered, with
    a first schema name that unpacks and a warehouse that answers the
    [SHOW TABLES] queries the run issues, one after the other.  One record is
    written per schema name, in order.  The record of a name that unpacks
    into exactly two parts carries these two parts as target database and
    schema, whatever came before it.  The warnings the run logs are one per
    name that does not unpack into two parts, in the order of the names:
    "not enough values" for a name without the delimiter, "too many values"
    for a name with the delimiter more than once.  The statements of the run
    are the [SHOW SCHEMAS] query and one [SHOW TABLES] query per name. *)
Theorem delimited_schema_maps_to_its_own_parts
    (source_database : string) (config : SnowflakeConfig)
    (w : World W) (wh0 wh1 wh2 : W) (rows : list Row) :
  sf_connect (wh w) = (wh0, None) →
  sf_execute wh0 (next_conn w) ("SHOW SCHEMAS IN DATABASE " +:+ source_database) =
    (wh1, Rows rows) →
  all_succeed (next_conn w) (table_queries source_database (map row_name rows)) wh1 =
    Some wh2 →
  (∀ first, head (map row_name rows) = Some first → is_Some (splits first)) →
  let schema_names := map row_name rows in
  let run := database_mapping.main source_database config w in
  ∃ jsons,
    run.1 = Ok jsons ∧
    map source_schema jsons = schema_names ∧
    (∀ i schema_name d s,
       schema_names !! i = Some schema_name → splits schema_name = Some (d, s) →
       ∃ table_names,
         jsons !! i = Some (mapping_record source_database schema_name d s table_names)) ∧
    logs run.2 = logs w ++ unpack_warnings schema_names ∧
    trace run.2 =
      trace w ++ mkEvent (task w) (next_conn w)
                   ("SHOW SCHEMAS IN DATABASE " +:+ source_database) true ::
                 events (task w) (next_conn w) true
                   (table_queries source_database schema_names).
Proof.
  intros Hconn Hschemas Htables Hfirst schema_names run.
  pose proof (main_reaches_mapping_loop source_database config w wh0 wh1 rows Hconn Hschemas)
    as Hrun.
  fold schema_names run in Hrun, Htables. set (w1 := mkWorld _ _ _ _ _ _) in Hrun.
  assert (Hbound : schema_names = [] ∨ is_Some (locals_after None (take 1 schema_names))).
  { clear Hrun Htables. subst run schema_names.
    destruct (map row_name rows) as [|first rest]; [by left|right].
    destruct (Hfirst first eq_refl) as [p Hp]. cbn. rewrite Hp. by eexists. }
  destruct (mapping_loop_prefix (next_conn w) source_database schema_names [] None [] w1 wh2
              Hbound Htables) as (out & Hloop & Hlen & Hrec).
  rewrite app_nil_r in Hloop.
  exists out. rewrite Hrun. unfold bind. rewrite Hloop.
  cbn [fst snd ret database_mapping.mapping_loop].
  split; [done|]. split; [|split; [|split]].
  - apply list_eq. intros i. rewrite list_lookup_fmap.
    destruct (schema_names !! i) as [schema_name|] eqn:Hi.
    + destruct (Hrec i schema_name Hi) as (d & s & tbls & _ & ->). done.
    + apply lookup_ge_None in Hi. rewrite (proj2 (lookup_ge_None out i)); [done|lia].
  - intros i schema_name d s Hi Hsplit.
    destruct (Hrec i schema_name Hi) as (d' & s' & tbls & Hloc & Hout).
    exists tbls. rewrite Hout.
    rewrite (take_S_r _ _ _ Hi), locals_after_snoc, Hsplit in Hloc. cbn in Hloc.
    by simplify_eq.
  - done.
  - subst w1. cbn. by rewrite <-app_assoc.
Qed.

End MappingRun.

Section MergeRefusal.
Context {W : Type} {WH : Warehouse W}.

(** X23.  [merge_database], not a dry run, has nothing to catch a refusal
    of the warehouse.  When the output database is created, [SHOW SCHEMAS]
    has answered and the clones of the schemas [pre] are carried out, a
    refusal of the clone of the next schema ends the merge with the
    warehouse's error: the schemas after it are not cloned, and the schemas
    before it stay cloned. *)
Theorem refused_clone_ends_the_merge
    (connection : Conn) (database_name output_database : string)
    (w : World W) (wh0 wh1 wh2 wh3 : W) (rows : list Row)
    (pre post : list string) (schema_name msg : string) :
  let create_db_sql := "CREATE DATABASE IF NOT EXISTS " +:+ output_database in
  let show_sql := "SHOW SCHEMAS IN DATABASE " +:+ database_name in
  let clones := map (clone_sql database_name output_database) pre in
  all_succeed connection [create_db_sql] (wh w) = Some wh0 →
  sf_execute wh0 connection show_sql = (wh1, Rows rows) →
  filter (λ schema_name, schema_name ≠ "INFORMATION_SCHEMA") (map row_name rows) =
    pre ++ schema_name :: post →
  Forall (λ schema_name,
            (PyStr.contains DELIMITER schema_name || PyStr.contains DELIMITER database_name) = false)
         (pre ++ [schema_name]) →
  all_succeed connection clones wh1 = Some wh2 →
  sf_execute wh2 connection (clone_sql database_name output_database schema_name) =
    (wh3, Fails msg) →
  ∃ w',
    merge_databases.merge_database connection database_name output_database false w =
      (Raise (ProgrammingError msg), w') ∧
    trace w' =
      trace w ++ [mkEvent (task w) connection create_db_sql true;
                  mkEvent (task w) connection show_sql true]
              ++ events (task w) connection true clones
              ++ [mkEvent (task w) connection
                    (clone_sql database_name output_database schema_name) false].
Proof.
  intros create_db_sql show_sql clones Hcreate Hshow Hfilter Hclean Hclones Hrefused.
  apply Forall_app in Hclean as [Hpre [Hbad _]%Forall_cons].
  unfold merge_databases.merge_database. fold create_db_sql.
  set (wa := mkWorld wh0 (next_conn w) (picks w) (task w)
               (trace w ++ [mkEvent (task w) connection create_db_sql true]) (logs w)).
  assert (Hfirst : bind (cursor_execute (conn_cursor connection) create_db_sql)
                        (λ _, ret tt) w = (Ok tt, wa)).
  { subst wa. cbn in Hcreate.
    destruct (sf_execute (wh w) connection create_db_sql) as [wh' [rs|msg']] eqn:Hq; [|done].
    injection Hcreate as <-.
    by rewrite (bind_ok _ _ _ _ _ (cursor_execute_rows (conn_cursor connection) _ w wh' rs Hq)). }
  rewrite (bind_ok _ _ _ _ _ Hfirst).
  set (wb := mkWorld wh1 (next_conn wa) (picks wa) (task wa)
               (trace wa ++ [mkEvent (task wa) connection show_sql true]) (logs wa)).
  assert (Hnames : utils.get_schema_names connection database_name wa =
                   (Ok (map row_name rows), wb)).
  { unfold utils.get_schema_names.
    by rewrite (bind_ok _ _ _ _ _ (cursor_execute_rows (conn_cursor connection) _ wa wh1 rows Hshow)). }
  rewrite (bind_ok _ _ _ _ _ Hnames), Hfilter.
  rewrite (clone_loop_prefix connection database_name output_database false pre
             (schema_name :: post) wb wh2 Hpre) by done.
  cbn [merge_databases.clone_loop]. rewrite Hbad.
  fold (clone_sql database_name output_database schema_name).
  set (wc := mkWorld wh2 _ _ _ _ _).
  assert (Hclone : bind (cursor_execute (conn_cursor connection)
                           (clone_sql database_name output_database schema_name))
                        (λ _, ret tt) wc =
                   (Raise (ProgrammingError msg),
                    mkWorld wh3 (next_conn wc) (picks wc) (task wc)
                      (trace wc ++ [mkEvent (task wc) connection
                                      (clone_sql database_name output_database schema_name) false])
                      (logs wc))).
  { by rewrite (bind_raise _ _ _ _ _
                  (cursor_execute_fails (conn_cursor connection) _ wc wh3 msg Hrefused)). }
  rewrite (bind_raise _ _ _ _ _ Hclone).
  eexists. split; [reflexivity|]. subst wc wb wa. cbn. by rewrite <-!app_assoc.
Qed.

End MergeRefusal.

(** ** Instances of the further properties *)

Section FurtherInstances.
Import Scenario.

(** Only the account is set and the warehouse is given as an override: the
    three roles are missing. *)
Lemma from_env_names_missing_settings_witness :
  config.from_env environ_account_only None None (Some "WH") None None =
    Raise (ValueError
      ("Missing required configuration: " +:+
       "SNOWFLAKE_ROLE, SNOWFLAKE_ADMIN_ROLE, SNOWFLAKE_READONLY_ROLE. " +:+
       "Please set environment variables or provide command line arguments.")).
Proof.
  destruct (from_env_names_missing_settings environ_account_only
              None None (Some "WH") None None) as [Hraise _].
  - vm_compute. discriminate.
  - rewrite Hraise. vm_compute. reflexivity.
Defined.

(** Database FOO is there: SKIPPED after the one query. *)
Lemma existing_database_is_skipped_witness :
  let cmds := config.get_database_setup_commands cfg "FOO" in
  ∃ w', create_databases.exec_set_of_cmds (WH := scripted database_foo_exists)
          cmds cfg (Some "FOO") None (start []) = (Ok "SKIPPED", w') ∧
        trace w' = [mkEvent [] 0 "SHOW DATABASES LIKE 'FOO'" true].
Proof.
  intros cmds. eexists. split.
  - apply (existing_database_is_skipped (WH := scripted database_foo_exists)
             cmds cfg "FOO" None (start []) tt tt (mkRow "FOO" "STANDARD") []).
    + reflexivity.
    + reflexivity.
  - reflexivity.
Defined.

(** Schema DB.S holds its three tables: SKIP after the one query. *)
Lemma complete_schema_is_skipped_witness :
  ∃ w', create_tables.safe_check_schema_and_execute (WH := scripted three_tables_exist)
          "DB.S" three_tables 0 (start []) = (Ok create_tables.SKIP, w') ∧
        trace w' = [mkEvent [] 0 "SHOW TABLES IN SCHEMA DB.S" true].
Proof.
  eexists. split.
  - apply (complete_schema_is_skipped (WH := scripted three_tables_exist)
             "DB.S" three_tables 0 (start []) tt
             [mkRow "T1" "TABLE"; mkRow "T2" "TABLE"; mkRow "T3" "TABLE"]).
    + discriminate.
    + reflexivity.
    + reflexivity.
  - reflexivity.
Defined.

(** The warehouse cannot be reached. *)
Lemma refused_connection_issues_nothing_witness :
  create_tables.main (WH := scripted unreachable) (JS := line_is_database)
    ["FOO"; ""] cfg (start []) =
    (Raise (ConnectError "connection refused"), start []).
Proof.
  apply (refused_connection_issues_nothing (WH := scripted unreachable) (JS := line_is_database)
           [] cfg None None ["FOO"; ""] "SRC" (start []) tt "connection refused").
  reflexivity.
Defined.

(** A unit that is to check the schema path NODOT. *)
Lemma undotted_schema_path_raises_witness :
  ∃ w', create_databases.exec_set_of_cmds (WH := scripted obliging)
          ["CREATE SCHEMA IF NOT EXISTS NODOT"] cfg None (Some "NODOT") (start []) =
          (Raise (ValueError "not enough values to unpack (expected 2, got 1)"), w') ∧
        trace w' = [].
Proof.
  eexists. split.
  - apply (undotted_schema_path_raises (WH := scripted obliging)
             ["CREATE SCHEMA IF NOT EXISTS NODOT"] cfg "NODOT" 0 (start []) tt).
    + reflexivity.
    + reflexivity.
  - reflexivity.
Defined.

(** A file of three records, the second for EBI_CHEMBL. *)
Lemma main_leaves_ebi_chembl_out_witness :
  ∃ statuses w',
    create_databases.main (WH := scripted obliging) (JS := line_is_database)
      ["FOO"; "EBI_CHEMBL"; "BAR"] cfg (start []) = (Ok statuses, w') ∧
    dom statuses = list_to_set ["FOO"; "BAR"] ∧
    statuses !! "EBI_CHEMBL" = None.
Proof.
  destruct (main_leaves_ebi_chembl_out (WH := scripted obliging) (JS := line_is_database)
              ["FOO"; "EBI_CHEMBL"; "BAR"]
              [record_of "FOO"; record_of "EBI_CHEMBL"; record_of "BAR"] cfg (start []))
    as (statuses & w' & Hrun & Hdom & Hnone & _).
  - repeat constructor.
  - exists statuses, w'. split; [exact Hrun|]. split; [|exact Hnone].
    exact Hdom.
Defined.

(** A file whose second line is empty. *)
Lemma unparsable_line_aborts_the_run_witness :
  create_databases.main (WH := scripted obliging) (JS := line_is_database)
    ["FOO"; ""; "BAR"] cfg (start []) =
    (Raise (JSONDecodeError "Expecting value: line 1 column 1 (char 0)"), start []).
Proof.
  apply (unparsable_line_aborts_the_run (WH := scripted obliging) (JS := line_is_database)
           ["FOO"] ["BAR"] "" [record_of "FOO"]
           (JSONDecodeError "Expecting value: line 1 column 1 (char 0)") cfg (start []) tt).
  - repeat constructor.
  - reflexivity.
  - reflexivity.
Defined.

(** Two records for schema FOO.PUBLIC, with a record for BAR.PUBLIC after
    them: the unit of FOO.PUBLIC creates table U only. *)
Lemma last_record_of_a_schema_wins_witness :
  let units := create_tables.collect_schema_to_table_sqls
                 [record_of "FOO"; later_record_of "FOO"; record_of "BAR"] in
  ("FOO.PUBLIC", ["CREATE TABLE IF NOT EXISTS FOO.PUBLIC.U AS SELECT * FROM SRC.FOO.U"]) ∈ units ∧
  ("FOO.PUBLIC", ["CREATE TABLE IF NOT EXISTS FOO.PUBLIC.T AS SELECT * FROM SRC.FOO.T"]) ∉ units.
Proof.
  intros units.
  destruct (last_record_of_a_schema_wins [record_of "FOO"] [record_of "BAR"]
              (later_record_of "FOO")) as (_ & _ & Hsqls).
  - repeat constructor. vm_compute. discriminate.
  - split.
    + apply Hsqls. reflexivity.
    + intros Hin. apply Hsqls in Hin. discriminate Hin.
Defined.

(** Schema S of database DB is cloned as DB__S. *)
Lemma cloned_schema_name_unpacks_witness :
  splits "DB__S" = Some ("DB", "S").
Proof.
  apply (cloned_schema_name_unpacks "DB" "S").
  - reflexivity.
  - reflexivity.
  - intros [|a [|b [|c p]]] Hend; vm_compute in Hend; discriminate.
Defined.

(** Of the four databases of the account only DB is merged. *)
Lemma main_merges_eligible_databases_only_witness :
  let run := merge_databases.main (WH := scripted four_databases)
               environ_spider "OUT" false (start []) in
  run.1 = Ok (["MARKET"], ["DB"]) ∧
  ∃ evs, trace run.2 = mkEvent [] 0 "SHOW TERSE DATABASES" true :: evs ∧
         Forall (λ e, ∃ row, eligible "OUT" row ∧
                             merge_statement "OUT" (row_name row) (ev_sql e)) evs.
Proof.
  intros run.
  destruct (main_merges_eligible_databases_only (WH := scripted four_databases)
              environ_spider "OUT" false
              ("acct", "me", "secret", "WH_MIGRATION", "ACCOUNTADMIN") (start []) tt tt
              [mkRow "SNOWFLAKE" "APPLICATION"; mkRow "OUT" "STANDARD";
               mkRow "MARKET" "IMPORTED DATABASE"; mkRow "DB" "STANDARD"])
    as [(evs & Htrace & Hall) _].
  - vm_compute. reflexivity.
  - reflexivity.
  - reflexivity.
  - split; [vm_compute; reflexivity|].
    exists evs. split; [exact Htrace|].
    eapply Forall_impl; [exact Hall|]. intros e (_ & row & _ & Hrow & Hsql). eauto.
Defined.

(** SNOWFLAKE is passed over, the merge of DB raises at its schema A__B,
    and OTHER is not merged. *)
Lemma failing_database_ends_the_run_witness :
  ∃ w', merge_databases.main_loop (WH := scripted delimiter_in_schema) 0 "OUT" false
          [mkRow "SNOWFLAKE" "APPLICATION"; mkRow "DB" "STANDARD"; mkRow "OTHER" "STANDARD"]
          [] [] (start []) =
          (Raise (ValueError "Database or schema name contains the delimiter '__'."), w') ∧
        map ev_sql (trace w') =
          [ "CREATE DATABASE IF NOT EXISTS OUT"; "SHOW SCHEMAS IN DATABASE DB";
            clone_sql "DB" "OUT" "PUBLIC" ].
Proof.
  pose (w2 := (merge_databases.merge_database (WH := scripted delimiter_in_schema)
                 0 "DB" "OUT" false (start [])).2).
  exists w2. split.
  - apply (failing_database_ends_the_run (WH := scripted delimiter_in_schema) 0 "OUT" false
             [mkRow "SNOWFLAKE" "APPLICATION"] [mkRow "OTHER" "STANDARD"] (mkRow "DB" "STANDARD")
             [] [] [] [] (start []) (start []) w2).
    + reflexivity.
    + vm_compute. split; [|discriminate].
      intros Hin. repeat (apply elem_of_cons in Hin as [Hin|Hin]; [discriminate|]).
      by apply elem_of_nil in Hin.
    + vm_compute. reflexivity.
  - vm_compute. reflexivity.
Defined.

(** The schemas of SRC are DB1__S1, A__B__C and DB2__S2: one warning, for
    the second, and the third is mapped to DB2 and S2. *)
Lemma delimited_schema_maps_to_its_own_parts_witness :
  let run := database_mapping.main (WH := scripted overlong_schema_name) "SRC" cfg (start []) in
  logs run.2 = [(L_WARNING, "too many values to unpack (expected 2)")] ∧
  ∃ jsons table_names,
    run.1 = Ok jsons ∧
    jsons !! 2 = Some (mapping_record "SRC" "DB2__S2" "DB2" "S2" table_names).
Proof.
  intros run.
  destruct (delimited_schema_maps_to_its_own_parts (WH := scripted overlong_schema_name)
              "SRC" cfg (start []) tt tt tt
              [mkRow "DB1__S1" ""; mkRow "A__B__C" ""; mkRow "DB2__S2" ""])
    as (jsons & Hrun & _ & Hrec & Hlogs & _).
  - reflexivity.
  - reflexivity.
  - reflexivity.
  - intros first [= <-]. eexists. reflexivity.
  - split; [exact Hlogs|].
    destruct (Hrec 2 "DB2__S2" "DB2" "S2") as (table_names & Hjson).
    + reflexivity.
    + reflexivity.
    + exists jsons, table_names. split; [exact Hrun | exact Hjson].
Defined.

(** The clone of RAW, the second schema of DB, is refused: PUBLIC stays
    cloned and LATER is not cloned. *)
Lemma refused_clone_ends_the_merge_witness :
  ∃ w', merge_databases.merge_database (WH := scripted second_clone_refused)
          0 "DB" "OUT" false (start []) =
          (Raise (ProgrammingError
                    "SQL compilation error: CREATE SCHEMA IF NOT EXISTS OUT.DB__RAW CLONE DB.RAW;"),
           w') ∧
        map ev_sql (trace w') =
          [ "CREATE DATABASE IF NOT EXISTS OUT"; "SHOW SCHEMAS IN DATABASE DB";
            clone_sql "DB" "OUT" "PUBLIC"; clone_sql "DB" "OUT" "RAW" ].
Proof.
  destruct (refused_clone_ends_the_merge (WH := scripted second_clone_refused)
              0 "DB" "OUT" (start []) tt tt tt tt
              [mkRow "INFORMATION_SCHEMA" ""; mkRow "PUBLIC" ""; mkRow "RAW" ""; mkRow "LATER" ""]
              ["PUBLIC"] ["LATER"] "RAW"
              "SQL compilation error: CREATE SCHEMA IF NOT EXISTS OUT.DB__RAW CLONE DB.RAW;")
    as (w' & Hrun & Htrace).
  - reflexivity.
  - reflexivity.
  - reflexivity.
  - repeat constructor.
  - reflexivity.
  - reflexivity.
  - exists w'. split; [exact Hrun|]. rewrite Htrace. reflexivity.
Defined.

End FurtherInstances.
